(** * InkBattle room game-session engine: shallow embedding and checked properties

    The development embeds, as executable Rocq functions, the parts of the
    backend that drive one room's game session:

    - [sockets/gameHelpers.js]   scoring helpers, [checkGameEnd], [endGame];
    - the round-phase module with ticking timers and team-aware rotation,
      the one [socket.js] and [utils/cleanRoom] import as [./roundPhases]
      (module [RoundPhases] below): [startPhaseTimerAndBroadcast],
      [startNewRound], [selectDrawerAndStartWordChoice],
      [startWordChoicePhase], [startDrawingPhase], [endDrawingPhase],
      [startIntervalPhase], [handleDrawerLeave], [handleOwnerLeave];
    - the earlier copy of [sockets/roundPhases.js], with one-shot timers and
      flat rotation only (module [RoundPhasesV1]): its
      [selectDrawerAndStartWordChoice];
    - [utils/wordSelector.js]    the tail of [getWordsForTheme] and
      [getRandomWordForTheme] (module [WordSelector]), and the whole of
      [getWordsForTheme] with its normalisation of language and script and
      its translation fallbacks (module [WordLookup]);
    - [utils/cleanRoom]          [deleteRoom], [checkAndMaybeDeleteRoom];
    - [sockets/socket.js]        the [join_room], [select_team], [start_game],
      [choose_word], [submit_guess], [skip_turn], [leave_room] and
      [disconnect] handlers (module [Socket]) and [update_settings] (module
      [Settings]);
    - the rooms router           [assignTeamRandomly], [POST /join] and
      [POST /:roomId/leave] (module [Rest]);
    - the report router          [POST /report] (module [Reports]).

    How the program is modelled.

    - Persistent state is one room row, its participant rows, the user rows
      and the coin ledger ([Db]).  Sequelize's [update ... where] is a [map]
      over the rows, [findAll ... where] a [filter], [count] the length of a
      [filter], [instance.save()] the replacement of the row.
    - A command handler and a timer callback each run from start to end on
      the store: they are functions [Db -> Db] (with a result where the
      caller or the client sees one).  The body of every timer is a function
      of its own, so that it can be applied to any state in which the timer
      may fire; the values captured by a closure are its arguments.
    - Exceptions swallowed by a [try/catch] leave the writes made before
      them; the functions return that store.
    - What comes from outside the engine in one call (the words the
      translation tables resolve, the outcome of the random shuffle) is an
      [Oracle] passed to the call.
    - Numbers are [Z]: all values are small integers, on which the
      JavaScript double arithmetic used here (division by 8, floor of a
      quotient) is exact.  Row ids, user ids, the rotation pointer and list
      indexes are [nat]: they are unsigned keys or results of [%] on
      non-negative operands.
    - Socket rooms, broadcasts and wall-clock dates are not modelled; of the
      events only the payloads that a property speaks about are returned.
    - The HTTP routes act on the room that the request names; the checks of
      the request body for missing fields are left out, except where a
      handler is given a value that stands for the missing field.
    - Strings hold the UTF-8 bytes of their text; the length of a string is
      counted in UTF-16 code units, as JavaScript does.  Lower-casing and
      trimming are those of ASCII text.
    - A JSON column read from a row is an array that the row itself holds.
      Code that changes such an array in place and assigns it back to the
      row assigns the value the row already has: Sequelize sees no change
      and [save()] or [update()] does not write the column.  Only a new
      array is written.  This decides what is stored in the room's
      [drawnUserIds] and in a report's [reportedBy]. *)

From Stdlib Require Import List ZArith Lia Bool Arith String Ascii Permutation PeanoNat Sorted.
Import ListNotations.

Local Open Scope string_scope.
Local Open Scope list_scope.
Local Open Scope Z_scope.

(* ===================================================================== *)
(** ** JavaScript values used by the engine *)
(* ===================================================================== *)

Module Js.

(** [Math.ceil(a / b)] for integers [a] and [b > 0]. *)
Definition ceil_div (a b : Z) : Z := - ((- a) / b).

(** [Math.floor(a / b)] for integers [a] and [b > 0]. *)
Definition floor_div (a b : Z) : Z := a / b.

(** What the variable [words] of the drawer selection can hold: [null],
    one string, or an array of strings. *)
Inductive Words :=
| Null
| Str (s : string)
| Arr (l : list string).

(** Truthiness of such a value ([!words] is its negation). *)
Definition truthy (w : Words) : bool :=
  match w with
  | Null => false
  | Str s => negb (String.eqb s "")
  | Arr _ => true
  end.

(** A [string] holds the UTF-8 bytes of its text.  The number of UTF-16
    code units of that text, which is what [s.length] counts: none for a
    continuation byte (10xxxxxx), two for the lead byte of a four-byte
    character (11110xxx, a surrogate pair), one for every other byte. *)
Fixpoint utf16_length (s : string) : nat :=
  match s with
  | EmptyString => 0%nat
  | String c r =>
      let n := nat_of_ascii c in
      ((if (128 <=? n)%nat && (n <? 192)%nat then 0
        else if (240 <=? n)%nat then 2 else 1)
       + utf16_length r)%nat
  end.

(** [words.length]: UTF-16 code units of a string, elements of an array. *)
Definition length (w : Words) : nat :=
  match w with
  | Null => 0%nat
  | Str s => utf16_length s
  | Arr l => List.length l
  end.

(** [options.includes(word)]: membership for an array, substring test for
    a string. *)
Definition includes (w : Words) (word : string) : bool :=
  match w with
  | Null => false
  | Str s => match String.index 0 word s with Some _ => true | None => false end
  | Arr l => existsb (String.eqb word) l
  end.

(** The value is an array holding exactly three words. *)
Definition three_words (w : Words) : bool :=
  match w with
  | Arr l => Nat.eqb (List.length l) 3
  | _ => false
  end.

Definition is_upper (c : ascii) : bool :=
  let n := nat_of_ascii c in (65 <=? n)%nat && (n <=? 90)%nat.

Definition lower_char (c : ascii) : ascii :=
  if is_upper c then ascii_of_nat (nat_of_ascii c + 32) else c.

(** [s.toLowerCase()] on ASCII text. *)
Fixpoint toLowerCase (s : string) : string :=
  match s with
  | EmptyString => EmptyString
  | String c r => String (lower_char c) (toLowerCase r)
  end.

Definition is_space (c : ascii) : bool :=
  let n := nat_of_ascii c in
  (Nat.eqb n 32) || ((9 <=? n)%nat && (n <=? 13)%nat).

Fixpoint trim_left (s : string) : string :=
  match s with
  | EmptyString => EmptyString
  | String c r => if is_space c then trim_left r else s
  end.

Fixpoint rev_string (s acc : string) : string :=
  match s with
  | EmptyString => acc
  | String c r => rev_string r (String c acc)
  end.

(** [s.trim()] on ASCII text. *)
Definition trim (s : string) : string :=
  rev_string (trim_left (rev_string (trim_left s) EmptyString)) EmptyString.

End Js.

(* ===================================================================== *)
(** ** The persisted records *)
(* ===================================================================== *)

Inductive Phase := selecting_drawer | choosing_word | drawing | reveal | interval.

Inductive Status := lobby | waiting | playing | finished | inactive | closed.

Definition Phase_eqb (a b : Phase) : bool :=
  match a, b with
  | selecting_drawer, selecting_drawer | choosing_word, choosing_word
  | drawing, drawing | reveal, reveal | interval, interval => true
  | _, _ => false
  end.

Definition Status_eqb (a b : Status) : bool :=
  match a, b with
  | lobby, lobby | waiting, waiting | playing, playing
  | finished, finished | inactive, inactive | closed, closed => true
  | _, _ => false
  end.

(** [room.roundPhase === key]; the column is nullable. *)
Definition phase_is (p : option Phase) (key : Phase) : bool :=
  match p with
  | Some q => Phase_eqb q key
  | None => false
  end.

Definition opt_nat_eqb (a b : option nat) : bool :=
  match a, b with
  | Some x, Some y => Nat.eqb x y
  | None, None => true
  | _, _ => false
  end.

Definition opt_string_eqb (a b : option string) : bool :=
  match a, b with
  | Some x, Some y => String.eqb x y
  | None, None => true
  | _, _ => false
  end.

(** Row of table [rooms] (the columns the engine reads or writes). *)
Record Room := mkRoom {
  ownerId : nat;
  gameMode : string;
  isPublic : bool;
  entryPoints : Z;
  targetPoints : Z;
  maxPointsPerRound : Z;
  maxPlayers : Z;
  status : Status;
  currentWord : option string;
  currentWordOptions : Js.Words;
  currentDrawerId : option nat;
  currentRound : Z;
  roundPhase : option Phase;
  roundRemainingTime : Z;
  drawerPointerIndex : nat;
  themeId : option nat;
  drawnUserIds : list nat
}.

(** Row of table [room_participants]. *)
Record RoomParticipant := mkParticipant {
  id : nat;
  userId : nat;
  team : option string;
  isDrawer : bool;
  score : Z;
  hasDrawn : bool;
  hasGuessedThisRound : bool;
  hasPaidEntry : bool;
  isActive : bool;
  socketId : option string
}.

(** Row of table [users]. *)
Record User := mkUser {
  uid : nat;
  coins : Z
}.

(** Row of table [coin_transactions]. *)
Record CoinTransaction := mkTx {
  txUser : nat;
  amount : Z;
  reason : string
}.

(** The store: the room row ([None] once destroyed), its participants, the
    users and the ledger. *)
Record Db := mkDb {
  room : option Room;
  parts : list RoomParticipant;
  users : list User;
  ledger : list CoinTransaction
}.

(** Field updates ([row.field = v]). *)

Definition set_status (v : Status) (r : Room) : Room :=
  mkRoom (ownerId r) (gameMode r) (isPublic r) (entryPoints r) (targetPoints r)
    (maxPointsPerRound r) (maxPlayers r) v (currentWord r) (currentWordOptions r)
    (currentDrawerId r) (currentRound r) (roundPhase r) (roundRemainingTime r)
    (drawerPointerIndex r) (themeId r) (drawnUserIds r).

Definition set_currentWord (v : option string) (r : Room) : Room :=
  mkRoom (ownerId r) (gameMode r) (isPublic r) (entryPoints r) (targetPoints r)
    (maxPointsPerRound r) (maxPlayers r) (status r) v (currentWordOptions r)
    (currentDrawerId r) (currentRound r) (roundPhase r) (roundRemainingTime r)
    (drawerPointerIndex r) (themeId r) (drawnUserIds r).

Definition set_currentWordOptions (v : Js.Words) (r : Room) : Room :=
  mkRoom (ownerId r) (gameMode r) (isPublic r) (entryPoints r) (targetPoints r)
    (maxPointsPerRound r) (maxPlayers r) (status r) (currentWord r) v
    (currentDrawerId r) (currentRound r) (roundPhase r) (roundRemainingTime r)
    (drawerPointerIndex r) (themeId r) (drawnUserIds r).

Definition set_currentDrawerId (v : option nat) (r : Room) : Room :=
  mkRoom (ownerId r) (gameMode r) (isPublic r) (entryPoints r) (targetPoints r)
    (maxPointsPerRound r) (maxPlayers r) (status r) (currentWord r)
    (currentWordOptions r) v (currentRound r) (roundPhase r)
    (roundRemainingTime r) (drawerPointerIndex r) (themeId r) (drawnUserIds r).

Definition set_currentRound (v : Z) (r : Room) : Room :=
  mkRoom (ownerId r) (gameMode r) (isPublic r) (entryPoints r) (targetPoints r)
    (maxPointsPerRound r) (maxPlayers r) (status r) (currentWord r)
    (currentWordOptions r) (currentDrawerId r) v (roundPhase r)
    (roundRemainingTime r) (drawerPointerIndex r) (themeId r) (drawnUserIds r).

Definition set_roundPhase (v : option Phase) (r : Room) : Room :=
  mkRoom (ownerId r) (gameMode r) (isPublic r) (entryPoints r) (targetPoints r)
    (maxPointsPerRound r) (maxPlayers r) (status r) (currentWord r)
    (currentWordOptions r) (currentDrawerId r) (currentRound r) v
    (roundRemainingTime r) (drawerPointerIndex r) (themeId r) (drawnUserIds r).

Definition set_roundRemainingTime (v : Z) (r : Room) : Room :=
  mkRoom (ownerId r) (gameMode r) (isPublic r) (entryPoints r) (targetPoints r)
    (maxPointsPerRound r) (maxPlayers r) (status r) (currentWord r)
    (currentWordOptions r) (currentDrawerId r) (currentRound r)
    (roundPhase r) v (drawerPointerIndex r) (themeId r) (drawnUserIds r).

Definition set_drawerPointerIndex (v : nat) (r : Room) : Room :=
  mkRoom (ownerId r) (gameMode r) (isPublic r) (entryPoints r) (targetPoints r)
    (maxPointsPerRound r) (maxPlayers r) (status r) (currentWord r)
    (currentWordOptions r) (currentDrawerId r) (currentRound r)
    (roundPhase r) (roundRemainingTime r) v (themeId r) (drawnUserIds r).

Definition set_drawnUserIds (v : list nat) (r : Room) : Room :=
  mkRoom (ownerId r) (gameMode r) (isPublic r) (entryPoints r) (targetPoints r)
    (maxPointsPerRound r) (maxPlayers r) (status r) (currentWord r)
    (currentWordOptions r) (currentDrawerId r) (currentRound r)
    (roundPhase r) (roundRemainingTime r) (drawerPointerIndex r)
    (themeId r) v.

Definition set_team (v : option string) (p : RoomParticipant) : RoomParticipant :=
  mkParticipant (id p) (userId p) v (isDrawer p) (score p) (hasDrawn p)
    (hasGuessedThisRound p) (hasPaidEntry p) (isActive p) (socketId p).

Definition set_isDrawer (v : bool) (p : RoomParticipant) : RoomParticipant :=
  mkParticipant (id p) (userId p) (team p) v (score p) (hasDrawn p)
    (hasGuessedThisRound p) (hasPaidEntry p) (isActive p) (socketId p).

Definition set_score (v : Z) (p : RoomParticipant) : RoomParticipant :=
  mkParticipant (id p) (userId p) (team p) (isDrawer p) v (hasDrawn p)
    (hasGuessedThisRound p) (hasPaidEntry p) (isActive p) (socketId p).

Definition set_hasDrawn (v : bool) (p : RoomParticipant) : RoomParticipant :=
  mkParticipant (id p) (userId p) (team p) (isDrawer p) (score p) v
    (hasGuessedThisRound p) (hasPaidEntry p) (isActive p) (socketId p).

Definition set_hasGuessedThisRound (v : bool) (p : RoomParticipant) : RoomParticipant :=
  mkParticipant (id p) (userId p) (team p) (isDrawer p) (score p)
    (hasDrawn p) v (hasPaidEntry p) (isActive p) (socketId p).

Definition set_hasPaidEntry (v : bool) (p : RoomParticipant) : RoomParticipant :=
  mkParticipant (id p) (userId p) (team p) (isDrawer p) (score p)
    (hasDrawn p) (hasGuessedThisRound p) v (isActive p) (socketId p).

Definition set_isActive (v : bool) (p : RoomParticipant) : RoomParticipant :=
  mkParticipant (id p) (userId p) (team p) (isDrawer p) (score p)
    (hasDrawn p) (hasGuessedThisRound p) (hasPaidEntry p) v (socketId p).

Definition set_socketId (v : option string) (p : RoomParticipant) : RoomParticipant :=
  mkParticipant (id p) (userId p) (team p) (isDrawer p) (score p)
    (hasDrawn p) (hasGuessedThisRound p) (hasPaidEntry p)
    (isActive p) v.

Definition set_coins (v : Z) (u : User) : User := mkUser (uid u) v.

Definition set_room (v : option Room) (d : Db) : Db :=
  mkDb v (parts d) (users d) (ledger d).

Definition set_parts (v : list RoomParticipant) (d : Db) : Db :=
  mkDb (room d) v (users d) (ledger d).

Definition set_users (v : list User) (d : Db) : Db :=
  mkDb (room d) (parts d) v (ledger d).

Definition set_ledger (v : list CoinTransaction) (d : Db) : Db :=
  mkDb (room d) (parts d) (users d) v.


(* ===================================================================== *)
(** ** Queries on the participant table *)
(* ===================================================================== *)

(** [RoomParticipant.update(values, { where })]: every row matching [cond]
    is rewritten by [f]. *)
Definition updateWhere (cond : RoomParticipant -> bool)
  (f : RoomParticipant -> RoomParticipant) (ps : list RoomParticipant)
  : list RoomParticipant :=
  map (fun p => if cond p then f p else p) ps.

(** [RoomParticipant.count({ where })]. *)
Definition countWhere (cond : RoomParticipant -> bool) (ps : list RoomParticipant) : Z :=
  Z.of_nat (List.length (filter cond ps)).

(** [RoomParticipant.findOne({ where: { roomId, userId } })]. *)
Definition findByUser (u : nat) (ps : list RoomParticipant) : option RoomParticipant :=
  find (fun p => Nat.eqb (userId p) u) ps.

(** [findOne] with a nullable user id ([userId: null] matches no row). *)
Definition findByUserOpt (u : option nat) (ps : list RoomParticipant)
  : option RoomParticipant :=
  match u with
  | Some n => findByUser n ps
  | None => None
  end.

(** [findAll({ where: { roomId, isActive: true } })]. *)
Definition activeParticipants (ps : list RoomParticipant) : list RoomParticipant :=
  filter isActive ps.

Definition team_is (t : string) (p : RoomParticipant) : bool :=
  opt_string_eqb (team p) (Some t).

(** [User.findByPk]. *)
Definition findUser (u : nat) (us : list User) : option User :=
  find (fun x => Nat.eqb (uid x) u) us.

(** [user.coins += delta; user.save()]. *)
Definition creditUser (u : nat) (delta : Z) (us : list User) : list User :=
  map (fun x => if Nat.eqb (uid x) u then set_coins (coins x + delta) x else x) us.

(** Number of rows flagged as drawer. *)
Definition drawerCount (ps : list RoomParticipant) : nat :=
  List.length (filter isDrawer ps).

(* ===================================================================== *)
(** ** sockets/gameHelpers.js *)
(* ===================================================================== *)

Module GameHelpers.

(** [PHASE_DURATIONS], in seconds. *)
Definition PHASE_DURATIONS (p : Phase) : Z :=
  match p with
  | selecting_drawer => 5
  | choosing_word => 10
  | drawing => 80
  | reveal => 7
  | interval => 4
  end.

Definition calculateEntryCost (entryPoints : Z) (voiceEnabled : bool) : Z :=
  entryPoints.

Definition calculateGuessReward (remainingTime maxPoints : Z) : Z :=
  Z.min (Js.ceil_div remainingTime 8) maxPoints.

Definition calculateTimeReduction (remainingTime numPlayers : Z) : Z :=
  Js.floor_div remainingTime numPlayers.

(** [participants.sort((a, b) => b.score - a.score)]: a stable sort by
    descending score. *)
Fixpoint insertByScore (p : RoomParticipant) (l : list RoomParticipant)
  : list RoomParticipant :=
  match l with
  | [] => [p]
  | q :: r => if score p <? score q then q :: insertByScore p r else p :: l
  end.

Fixpoint sortByScoreDesc (l : list RoomParticipant) : list RoomParticipant :=
  match l with
  | [] => []
  | p :: r => insertByScore p (sortByScoreDesc r)
  end.

(** One line of the [rankings] payload of [game_ended]. *)
Record Ranking := mkRanking {
  place : nat;
  rankUser : nat;
  rankScore : Z;
  coinsAwarded : Z
}.

(** The [rewards] table: place and multiplier by index. *)
Definition rewards : list (nat * Z) := [(1%nat, 3); (2%nat, 2); (3%nat, 1)].

(** [`game_reward_place_${place}`]; the table holds the places 1 to 3. *)
Definition rewardReason (place : nat) : string :=
  match place with
  | 1%nat => "game_reward_place_1"
  | 2%nat => "game_reward_place_2"
  | 3%nat => "game_reward_place_3"
  | _ => "game_reward_place_n"
  end.

(** The first loop of [endGame]: for [i < min(length, 3)], credit the user
    of [participants[i]] when that user exists. *)
Fixpoint payTop (entryCost : Z) (rs : list (nat * Z)) (ps : list RoomParticipant)
  (us : list User) (lg : list CoinTransaction) (acc : list Ranking)
  : list User * list CoinTransaction * list Ranking :=
  match rs, ps with
  | (pl, mult) :: rs', p :: ps' =>
      let coinsAwarded := entryCost * mult in
      match findUser (userId p) us with
      | Some _ =>
          payTop entryCost rs' ps'
            (creditUser (userId p) coinsAwarded us)
            (lg ++ [mkTx (userId p) coinsAwarded (rewardReason pl)])
            (acc ++ [mkRanking pl (userId p) (score p) coinsAwarded])
      | None => payTop entryCost rs' ps' us lg acc
      end
  | _, _ => (us, lg, acc)
  end.

(** The second loop: [for (i = 3; i < length; i++)], place [i + 1], no coins. *)
Fixpoint restRankings (i : nat) (ps : list RoomParticipant) : list Ranking :=
  match ps with
  | [] => []
  | p :: r => mkRanking (i + 1) (userId p) (score p) 0 :: restRankings (S i) r
  end.

(** [endGame(io, room, participants)]: the store afterwards and the
    [rankings] that are broadcast. *)
Definition endGame (r : Room) (participants : list RoomParticipant) (db : Db)
  : Db * list Ranking :=
  let r1 := set_status finished r in
  let sorted := sortByScoreDesc participants in
  let entryCost := calculateEntryCost (entryPoints r1) false in
  let '(us, lg, top) := payTop entryCost rewards sorted (users db) (ledger db) [] in
  let rankings := top ++ restRankings 3 (skipn 3 sorted) in
  (mkDb (Some r1) (parts db) us lg, rankings).

(** The deferred callback of [endGame]: two seconds later the room goes back
    to the lobby. *)
Definition endGameLobbyTimeout (db : Db) : Db :=
  match room db with
  | Some r => set_room (Some (set_status lobby r)) db
  | None => db
  end.

(** [checkGameEnd(io, room)]: [findAll] active participants ordered by
    score descending (rows of equal score are taken in table order); the
    game ends when one reached the target. *)
Definition checkGameEnd (r : Room) (db : Db) : Db * bool :=
  let participants := sortByScoreDesc (activeParticipants (parts db)) in
  match find (fun p => targetPoints r <=? score p) participants with
  | Some _ => (fst (endGame r participants db), true)
  | None => (db, false)
  end.

End GameHelpers.

(* ===================================================================== *)
(** ** utils/wordSelector.js *)
(* ===================================================================== *)

(** What one call of the word gateway sees from outside the engine:
    [resolved] is the list of surface words left after the translation
    fallback chain of [getWordsForTheme] (empty when the theme, its keywords
    or the base language are missing, or when the lookup fails), and
    [shuffle] is the outcome of [list.sort(() => 0.5 - Math.random())]. *)
Record Oracle := mkOracle {
  resolved : list string;
  shuffle : list string -> list string
}.

Module WordSelector.

(** The tail of [getWordsForTheme]: shuffle, then [slice(0, limit)] when
    [limit] is truthy. *)
Definition getWordsForTheme (o : Oracle) (limit : nat) : list string :=
  let shuffled := shuffle o (resolved o) in
  if Nat.eqb limit 0 then shuffled else firstn limit shuffled.

(** [getRandomWordForTheme]: [words.length > 0 ? words[0] : null]. *)
Definition getRandomWordForTheme (o : Oracle) : Js.Words :=
  match getWordsForTheme o 3 with
  | w :: _ => Js.Str w
  | [] => Js.Null
  end.

End WordSelector.

(* ===================================================================== *)
(** ** Drawer rotation *)
(* ===================================================================== *)

Module Rotation.

(** [list.sort((a, b) => a.userId - b.userId)]: a stable ascending sort. *)
Fixpoint insertByUserId (p : RoomParticipant) (l : list RoomParticipant)
  : list RoomParticipant :=
  match l with
  | [] => [p]
  | q :: r => if (userId q <? userId p)%nat then q :: insertByUserId p r else p :: l
  end.

Fixpoint sortByUserId (l : list RoomParticipant) : list RoomParticipant :=
  match l with
  | [] => []
  | p :: r => insertByUserId p (sortByUserId r)
  end.

(** [drawnUserIds.includes(userId)]. *)
Definition includes (drawn : list nat) (u : nat) : bool :=
  existsb (Nat.eqb u) drawn.

(** Result of the rotation: the participant picked ([None] when the array
    access gave [undefined]), the new pointer and the local [drawnUserIds]
    before the winner is appended; [PickThrown] when the loop itself fails.

    The local [drawnUserIds] is the very array read from the room row
    ([room.drawnUserIds], part_004:137) unless the reset branch assigned a
    new one ([drawnUserIds = []], part_004:204): [fresh] tells which.  The
    distinction decides what [room.save()] writes, see
    [RoundPhases.selectDrawerAndStartWordChoice]. *)
Inductive Picked :=
| Pick (nextDrawer : option RoomParticipant) (pointer : nat) (drawn : list nat)
       (fresh : bool)
| PickThrown.

(** Flat rotation:
    [pointer = pointer % n; nextDrawer = participants[pointer];
     pointer = (pointer + 1) % n]. *)
Definition flatPick (participants : list RoomParticipant) (pointer : nat)
  (drawn : list nat) : Picked :=
  let n := List.length participants in
  let pointer := (pointer mod n)%nat in
  Pick (nth_error participants pointer) ((pointer + 1) mod n)%nat drawn false.

Definition opt_list {A} (o : option A) : list A :=
  match o with
  | Some a => [a]
  | None => []
  end.

(** The alternating list [blue[0], orange[0], blue[1], orange[1], ...]. *)
Definition alternatingList (blueTeam orangeTeam : list RoomParticipant)
  : list RoomParticipant :=
  let maxLen := Nat.max (List.length blueTeam) (List.length orangeTeam) in
  flat_map (fun i => opt_list (nth_error blueTeam i) ++ opt_list (nth_error orangeTeam i))
           (seq 0 maxLen).

Inductive Walk :=
| Chosen (candidate : RoomParticipant) (pointer : nat)
| NoneEligible
| WalkThrown.

(** The search loop over [i = 0 .. totalPlayers - 1] (here the list [idxs]):
    the first [alternatingList[(pointer + i) % totalPlayers]] whose user is
    not in [drawnUserIds]. *)
Fixpoint walk (alt : list RoomParticipant) (drawn : list nat) (pointer : nat)
  (idxs : list nat) : Walk :=
  match idxs with
  | [] => NoneEligible
  | i :: rest =>
      let totalPlayers := List.length alt in
      let idx := ((pointer + i) mod totalPlayers)%nat in
      match nth_error alt idx with
      | None => WalkThrown
      | Some candidate =>
          if includes drawn (userId candidate)
          then walk alt drawn pointer rest
          else Chosen candidate ((idx + 1) mod totalPlayers)%nat
      end
  end.

(** Team rotation, with its fallback to the flat rule when a team is empty. *)
Definition teamPick (participants : list RoomParticipant) (pointer : nat)
  (drawn : list nat) : Picked :=
  let blueTeam := sortByUserId (filter (team_is "blue") participants) in
  let orangeTeam := sortByUserId (filter (team_is "orange") participants) in
  if Nat.eqb (List.length blueTeam) 0 || Nat.eqb (List.length orangeTeam) 0
  then flatPick participants pointer drawn
  else
    let alt := alternatingList blueTeam orangeTeam in
    let totalPlayers := List.length alt in
    match walk alt drawn pointer (seq 0 totalPlayers) with
    | Chosen c p => Pick (Some c) p drawn false
    | NoneEligible =>
        (* everyone has drawn: reset the cycle with a new array *)
        Pick (nth_error alt pointer) ((pointer + 1) mod totalPlayers)%nat [] true
    | WalkThrown => PickThrown
    end.

(** The rotation of [selectDrawerAndStartWordChoice] over the sorted active
    participants. *)
Definition pickDrawer (mode : string) (participants : list RoomParticipant)
  (pointer : nat) (drawn : list nat) : Picked :=
  if String.eqb mode "1v1"
  then flatPick participants pointer drawn
  else teamPick participants pointer drawn.

End Rotation.

(* ===================================================================== *)
(** ** The round-phase module: ticking timers and team-aware rotation *)
(* ===================================================================== *)

Module RoundPhases.

Import GameHelpers.

(** Outcome of a drawer selection: the values captured by the timer
    callbacks that are scheduled after it. *)
Inductive Selection :=
| Selected (nextDrawer : RoomParticipant) (words : Js.Words)
| NotSelected.

Inductive Tick := Continue | Stopped.

(** The built-in generic word list. *)
Definition fallback : list string :=
  ["apple"; "banana"; "cat"; "dog"; "elephant"; "flower"; "guitar"; "house";
   "tree"; "sun"].

(** The word-selection block of [selectDrawerAndStartWordChoice]:
    [words = []]; with a theme, [words = await getRandomWordForTheme(...)];
    then the generic list when [!words || words.length < 3]. *)
Definition wordOptions (theme : option nat) (o : Oracle) : Js.Words :=
  let words :=
    match theme with
    | Some t => if Nat.eqb t 0 then Js.Arr [] else WordSelector.getRandomWordForTheme o
    | None => Js.Arr []
    end in
  if negb (Js.truthy words) || (Js.length words <? 3)%nat
  then Js.Arr (firstn 3 (shuffle o fallback))
  else words.

(** [startPhaseTimerAndBroadcast], up to the start of its ticker: the phase
    and its duration are written to the room row. *)
Definition startPhaseTimerAndBroadcast (r : Room) (phaseKey : Phase) (duration : Z)
  (db : Db) : Db :=
  set_room (Some (set_roundRemainingTime duration (set_roundPhase (Some phaseKey) r))) db.

(** One firing of the ticker started by [startPhaseTimerAndBroadcast] for
    [phaseKey], whose end-of-phase continuation is [onEndCallback]. *)
Definition phaseTimerTick (phaseKey : Phase) (onEndCallback : Room -> Db -> Db)
  (db : Db) : Db * Tick :=
  match room db with
  | None => (db, Stopped)
  | Some refreshedRoom =>
      if negb (phase_is (roundPhase refreshedRoom) phaseKey)
         || (roundRemainingTime refreshedRoom <=? 0)
      then
        if phase_is (roundPhase refreshedRoom) phaseKey
        then (onEndCallback refreshedRoom db, Stopped)
        else (db, Stopped)
      else
        (set_room (Some (set_roundRemainingTime (roundRemainingTime refreshedRoom - 1)
                           refreshedRoom)) db,
         Continue)
  end.

(** [selectDrawerAndStartWordChoice].  When the rotation yields [undefined]
    the marking of the new drawer throws after the old flag was cleared; the
    [catch] swallows it and the room row is left as it was.

    The drawer's id is pushed onto the local [drawnUserIds]
    (part_004:226) and the array is assigned to [room.drawnUserIds] before
    [room.save()] (part_004:234).  The local array is the one the getter
    returned (part_004:137), so the push changes the row's value in place and
    the assignment puts back the same object: Sequelize compares the assigned
    value with the previous one, which is that same array, sees no change and
    leaves the column out of the UPDATE.  The stored list therefore stays as
    it was, [saved] below.  Only the reset branch assigns a new array
    (part_004:204), and then the list with the new drawer is written. *)
Definition selectDrawerAndStartWordChoice (o : Oracle) (db : Db) : Db * Selection :=
  match room db with
  | None => (db, NotSelected)
  | Some r =>
      let participants := Rotation.sortByUserId (activeParticipants (parts db)) in
      match participants with
      | [] => (db, NotSelected)
      | _ :: _ =>
          match Rotation.pickDrawer (gameMode r) participants
                  (drawerPointerIndex r) (drawnUserIds r) with
          | Rotation.PickThrown => (db, NotSelected)
          | Rotation.Pick nextDrawer pointer drawn fresh =>
              let cleared := updateWhere isDrawer (set_isDrawer false) (parts db) in
              match nextDrawer with
              | None => (set_parts cleared db, NotSelected)
              | Some nd =>
                  let marked :=
                    updateWhere (fun p => Nat.eqb (id p) (id nd))
                      (fun p => set_hasDrawn true (set_isDrawer true p)) cleared in
                  let drawn' :=
                    if Rotation.includes drawn (userId nd) then drawn
                    else drawn ++ [userId nd] in
                  let saved := if fresh then drawn' else drawnUserIds r in
                  let words := wordOptions (themeId r) o in
                  let r1 :=
                    set_currentWordOptions words
                      (set_drawnUserIds saved
                        (set_currentWord None
                          (set_currentDrawerId (Some (userId nd))
                            (set_drawerPointerIndex pointer r)))) in
                  (startPhaseTimerAndBroadcast r1 selecting_drawer
                     (PHASE_DURATIONS selecting_drawer) (set_parts marked db),
                   Selected nd words)
              end
          end
      end
  end.

(** [startNewRound]. *)
Definition startNewRound (o : Oracle) (db : Db) : Db * Selection :=
  if (List.length (activeParticipants (parts db)) <? 2)%nat
  then (db, NotSelected)
  else
    selectDrawerAndStartWordChoice o
      (set_parts (updateWhere (fun _ => true)
                    (fun p => set_isDrawer false (set_hasGuessedThisRound false p))
                    (parts db)) db).

(** [startWordChoicePhase], the continuation of the [selecting_drawer]
    ticker: the store afterwards and the [words] of the [word_options] event
    sent to the drawer's socket. *)
Definition startWordChoicePhase (r : Room) (nextDrawer : RoomParticipant)
  (words : Js.Words) (db : Db) : Db * Js.Words :=
  (startPhaseTimerAndBroadcast r choosing_word (PHASE_DURATIONS choosing_word) db, words).

(** The continuation of the [choosing_word] ticker: the drawer timed out. *)
Definition chooseWordTimeout (o : Oracle) (nextDrawer : RoomParticipant)
  (currentRoom : Room) (db : Db) : Db * Selection :=
  let ps := updateWhere (fun p => Nat.eqb (userId p) (userId nextDrawer))
              (set_isDrawer false) (parts db) in
  let r1 := set_roundPhase (Some selecting_drawer)
              (set_currentWordOptions Js.Null
                (set_currentWord None (set_currentDrawerId None currentRoom))) in
  selectDrawerAndStartWordChoice o (set_room (Some r1) (set_parts ps db)).

(** [startDrawingPhase]: the row is saved before the hint is computed. *)
Definition startDrawingPhase (r : Room) (db : Db) : Db :=
  set_room (Some (set_roundRemainingTime (PHASE_DURATIONS drawing)
                    (set_roundPhase (Some drawing) r))) db.

(** [endDrawingPhase]: drawer reward, [reveal], win check.  The boolean tells
    whether the game ended; when it did not, the reveal timer is scheduled. *)
Definition endDrawingPhase (r : Room) (db : Db) : Db * bool :=
  let guessedCount := countWhere hasGuessedThisRound (parts db) in
  let drawer := findByUserOpt (currentDrawerId r) (parts db) in
  let ps :=
    match drawer with
    | Some d =>
        if 0 <? guessedCount
        then updateWhere (fun p => Nat.eqb (id p) (id d))
               (fun p => set_score (score p + Z.min (guessedCount * 2) (maxPointsPerRound r)) p)
               (parts db)
        else parts db
    | None => parts db
    end in
  let r1 := set_roundPhase (Some reveal) r in
  checkGameEnd r1 (set_room (Some r1) (set_parts ps db)).

(** One firing of the drawing ticker of [startDrawingPhase]. *)
Definition drawingTick (db : Db) : Db * Tick :=
  match room db with
  | None => (db, Stopped)
  | Some refreshedRoom =>
      if negb (phase_is (roundPhase refreshedRoom) drawing)
         || (roundRemainingTime refreshedRoom <=? 0)
      then
        if phase_is (roundPhase refreshedRoom) drawing
        then (fst (endDrawingPhase refreshedRoom db), Stopped)
        else (db, Stopped)
      else
        (set_room (Some (set_roundRemainingTime (roundRemainingTime refreshedRoom - 1)
                           refreshedRoom)) db,
         Continue)
  end.

(** [startIntervalPhase], the body of the one-shot timer that
    [endDrawingPhase] schedules [PHASE_DURATIONS.reveal] seconds after the
    reveal: reload the room, then enter [interval]. *)
Definition startIntervalPhase (db : Db) : Db :=
  match room db with
  | None => db
  | Some r => startPhaseTimerAndBroadcast r interval (PHASE_DURATIONS interval) db
  end.

(** The continuation of the [interval] ticker of [startIntervalPhase]. *)
Definition intervalTimeout (o : Oracle) (refreshedRoom : Room) (db : Db) : Db * Selection :=
  startNewRound o
    (set_room (Some (set_currentRound (currentRound refreshedRoom + 1) refreshedRoom)) db).

(** [deleteRoom] (utils/cleanRoom). *)
Definition deleteRoom (db : Db) : Db :=
  mkDb None [] (users db) (ledger db).

(** [checkAndMaybeDeleteRoom] (utils/cleanRoom). *)
Definition checkAndMaybeDeleteRoom (db : Db) : Db :=
  match room db with
  | None => db
  | Some r =>
      let participants := activeParticipants (parts db) in
      if Nat.eqb (List.length participants) 0 then deleteRoom db
      else if existsb (fun p => Nat.eqb (userId p) (ownerId r)) participants then db
      else deleteRoom db
  end.

(** [handleDrawerLeave]. *)
Definition handleDrawerLeave (r : Room) (user : nat) (db : Db) : Db * bool :=
  if negb (opt_nat_eqb (currentDrawerId r) (Some user))
     || negb (phase_is (roundPhase r) drawing)
  then (db, false)
  else
    let r1 := set_currentWordOptions Js.Null
                (set_currentWord None (set_currentDrawerId None r)) in
    (checkAndMaybeDeleteRoom
       (startPhaseTimerAndBroadcast r1 interval (PHASE_DURATIONS interval) db),
     true).

(** The continuation of the [interval] ticker of [handleDrawerLeave]. *)
Definition drawerLeaveIntervalTimeout (o : Oracle) (db : Db) : Db * Selection :=
  startNewRound o db.

(** [handleOwnerLeave]. *)
Definition handleOwnerLeave (r : Room) (user : nat) (db : Db) : Db * bool :=
  if negb (Nat.eqb (ownerId r) user) then (db, false)
  else (deleteRoom db, true).

End RoundPhases.

(* ===================================================================== *)
(** ** The earlier copy of sockets/roundPhases.js: flat rotation only *)
(* ===================================================================== *)

Module RoundPhasesV1.

Import RoundPhases.

(** The word-selection block of this engine: [getWordsForTheme(..., 3)],
    replaced by three generic words when fewer than three came back. *)
Definition wordOptions (theme : option nat) (o : Oracle) : list string :=
  let words :=
    match theme with
    | Some t => if Nat.eqb t 0 then [] else WordSelector.getWordsForTheme o 3
    | None => []
    end in
  if (List.length words <? 3)%nat then firstn 3 (shuffle o fallback) else words.

(** [selectDrawerAndStartWordChoice] of sockets/roundPhases.js. *)
Definition selectDrawerAndStartWordChoice (o : Oracle) (db : Db) : Db * Selection :=
  match room db with
  | None => (db, NotSelected)
  | Some r =>
      let participants := Rotation.sortByUserId (activeParticipants (parts db)) in
      match participants with
      | [] => (db, NotSelected)
      | _ :: _ =>
          let n := List.length participants in
          let pointer := (drawerPointerIndex r mod n)%nat in
          match nth_error participants pointer with
          | None => (db, NotSelected)
          | Some nextDrawer =>
              let pointer' := ((pointer + 1) mod n)%nat in
              let words := Js.Arr (wordOptions (themeId r) o) in
              let r1 :=
                set_roundPhase (Some selecting_drawer)
                  (set_currentWordOptions words
                    (set_currentWord None
                      (set_currentDrawerId (Some (userId nextDrawer))
                        (set_drawerPointerIndex pointer' r)))) in
              (set_room (Some r1)
                 (set_parts (updateWhere (fun p => Nat.eqb (id p) (id nextDrawer))
                               (set_isDrawer true) (parts db)) db),
               Selected nextDrawer words)
          end
      end
  end.

End RoundPhasesV1.

(* ===================================================================== *)
(** ** sockets/socket.js: the command handlers *)
(* ===================================================================== *)

Module Socket.

Import GameHelpers RoundPhases.

Inductive JoinResult :=
| JoinError (message : string)
| RoomJoined (isResuming : bool).

Inductive GuessResult :=
| GuessRejected (message : string)
| GuessIncorrect
| GuessCorrect (points : Z) (roundEnded : bool).

(** The auto-increment primary key of a new participant row. *)
Definition nextId (ps : list RoomParticipant) : nat :=
  S (fold_right Nat.max 0%nat (map id ps)).

(** [join_room].  [socketUser] is [socket.user] ([None] for an anonymous
    socket) and [sock] the socket id. *)
Definition join_room (socketUser : option nat) (sock : string) (db : Db)
  : Db * JoinResult :=
  match room db with
  | None => (db, JoinError "room_not_found")
  | Some r =>
      let existingParticipant :=
        match socketUser with
        | Some u => findByUser u (parts db)
        | None => None
        end in
      let isRejoining :=
        match existingParticipant with
        | Some p => negb (isActive p)
        | None => false
        end in
      if negb isRejoining && (maxPlayers r <=? countWhere isActive (parts db))
      then (db, JoinError "room_full")
      else
        let r1 :=
          if Status_eqb (status r) inactive
          then set_status (if isPublic r then waiting else lobby) r
          else r in
        let ps :=
          match socketUser with
          | Some u =>
              match existingParticipant with
              | Some _ =>
                  updateWhere (fun p => Nat.eqb (userId p) u)
                    (fun p => set_isActive true (set_socketId (Some sock) p)) (parts db)
              | None =>
                  parts db ++
                  [mkParticipant (nextId (parts db)) u None false 0 false false false
                     true (Some sock)]
              end
          | None => parts db
          end in
        (set_room (Some r1) (set_parts ps db), RoomJoined isRejoining)
  end.

(** [select_team]. *)
Definition select_team (socketUser : option nat) (t : string) (db : Db) : Db :=
  if negb (String.eqb t "orange") && negb (String.eqb t "blue") then db
  else
    match room db, socketUser with
    | Some r, Some u =>
        if negb (Status_eqb (status r) lobby) && negb (Status_eqb (status r) waiting)
        then db
        else if negb (String.eqb (gameMode r) "team")
                && negb (String.eqb (gameMode r) "team_vs_team")
        then db
        else
          match findByUser u (parts db) with
          | Some p =>
              set_parts (updateWhere (fun q => Nat.eqb (id q) (id p))
                           (set_team (Some t)) (parts db)) db
          | None => db
          end
    | _, _ => db
    end.

(** The entry-fee loop of [start_game]; [false] when a participant cannot
    pay (what was charged before stays charged). *)
Fixpoint chargeEntry (entryCost : Z) (todo : list RoomParticipant) (db : Db)
  : Db * bool :=
  match todo with
  | [] => (db, true)
  | participant :: rest =>
      match findUser (userId participant) (users db) with
      | None => chargeEntry entryCost rest db
      | Some user =>
          if hasPaidEntry participant then chargeEntry entryCost rest db
          else if coins user <? entryCost then (db, false)
          else
            chargeEntry entryCost rest
              (mkDb (room db)
                 (updateWhere (fun q => Nat.eqb (id q) (id participant))
                    (set_hasPaidEntry true) (parts db))
                 (creditUser (uid user) (- entryCost) (users db))
                 (ledger db ++ [mkTx (uid user) (- entryCost) "game_entry"]))
      end
  end.

(** [start_game]. *)
Definition start_game (o : Oracle) (socketUser : option nat) (db : Db) : Db :=
  match room db, socketUser with
  | Some r, Some u =>
      if negb (Nat.eqb (ownerId r) u) then db
      else if negb (Status_eqb (status r) lobby) && negb (Status_eqb (status r) waiting)
      then db
      else
        let participants := activeParticipants (parts db) in
        if (List.length participants <? 2)%nat then db
        else if String.eqb (gameMode r) "team_vs_team"
                && (Nat.eqb (List.length (filter (team_is "orange") participants)) 0
                    || Nat.eqb (List.length (filter (team_is "blue") participants)) 0)
        then db
        else
          let entryCost := calculateEntryCost (entryPoints r) false in
          match chargeEntry entryCost participants db with
          | (db1, false) => db1
          | (db1, true) =>
              let r1 := set_drawnUserIds [] (set_currentRound 1 (set_status playing r)) in
              fst (startNewRound o (set_room (Some r1) db1))
          end
  | _, _ => db
  end.

(** [choose_word]. *)
Definition choose_word (socketUser : option nat) (word : string) (db : Db) : Db :=
  match room db with
  | None => db
  | Some r =>
      if negb (match socketUser with
               | Some u => opt_nat_eqb (currentDrawerId r) (Some u)
               | None => false
               end)
      then db
      else if negb (phase_is (roundPhase r) choosing_word) then db
      else if negb (Js.truthy (currentWordOptions r))
              || negb (Js.includes (currentWordOptions r) word)
      then db
      else startDrawingPhase
             (set_currentWordOptions Js.Null (set_currentWord (Some word) r)) db
  end.

(** [s.trim().toLowerCase()]. *)
Definition normalize (s : string) : string := Js.toLowerCase (Js.trim s).

(** [activePlayers] of [submit_guess]: active rows that are not the drawer. *)
Definition activeNonDrawer (p : RoomParticipant) : bool :=
  isActive p && negb (isDrawer p).

(** [eligibleCount] of [submit_guess]. *)
Definition eligibleCount (r : Room) (participant : RoomParticipant)
  (ps : list RoomParticipant) : Z :=
  if String.eqb (gameMode r) "team_vs_team"
  then countWhere (fun p => activeNonDrawer p
                            && opt_string_eqb (team p) (team participant)) ps
  else countWhere activeNonDrawer ps.

(** [guessedCount] of [submit_guess]. *)
Definition guessedCount (ps : list RoomParticipant) : Z :=
  countWhere (fun p => isActive p && hasGuessedThisRound p) ps.

(** The checks of [submit_guess] before the guess is compared with the
    word: the rejection message, or the guesser's row. *)
Definition guessGate (socketUser : option nat) (r : Room) (ps : list RoomParticipant)
  : string + RoomParticipant :=
  if negb (phase_is (roundPhase r) drawing) then inl "not_drawing_phase"
  else
    match currentWord r with
    | None => inl "no_active_word"
    | Some w =>
        if String.eqb w "" then inl "no_active_word"
        else
          match socketUser with
          | None => inl "not_authenticated"
          | Some u =>
              match findByUser u ps with
              | None => inl "not_in_room"
              | Some participant =>
                  if isDrawer participant then inl "drawer_cannot_guess"
                  else if hasGuessedThisRound participant then inl "already_guessed"
                  else if String.eqb (gameMode r) "team_vs_team"
                          && match findByUserOpt (currentDrawerId r) ps with
                             | None => true
                             | Some drawer =>
                                 negb (opt_string_eqb (team participant) (team drawer))
                             end
                  then inl "wrong_team"
                  else inr participant
              end
          end
    end.

(** The participant rows after a correct guess: the reward goes to every
    active row of the guesser's team in [team_vs_team], to the guesser
    otherwise; then the guesser is flagged. *)
Definition afterGuess (r : Room) (participant : RoomParticipant) (db : Db)
  : list RoomParticipant :=
  let reward := calculateGuessReward (roundRemainingTime r) (maxPointsPerRound r) in
  updateWhere (fun p => Nat.eqb (id p) (id participant)) (set_hasGuessedThisRound true)
    (if String.eqb (gameMode r) "team_vs_team"
     then updateWhere (fun p => opt_string_eqb (team p) (team participant) && isActive p)
            (fun p => set_score (score p + reward) p) (parts db)
     else updateWhere (fun p => Nat.eqb (id p) (id participant))
            (fun p => set_score (score p + reward) p) (parts db)).

(** The remaining time after a correct guess: reduced when
    [activePlayers > 0]. *)
Definition compressedTime (r : Room) (ps : list RoomParticipant) : Z :=
  let activePlayers := countWhere activeNonDrawer ps in
  if 0 <? activePlayers
  then Z.max 0 (roundRemainingTime r
                - calculateTimeReduction (roundRemainingTime r) activePlayers)
  else roundRemainingTime r.

(** The correct-guess branch of [submit_guess]. *)
Definition correctGuess (r : Room) (participant : RoomParticipant) (db : Db)
  : Db * GuessResult :=
  let reward := calculateGuessReward (roundRemainingTime r) (maxPointsPerRound r) in
  let ps := afterGuess r participant db in
  let r1 := set_roundRemainingTime (compressedTime r ps) r in
  let db1 := set_room (Some r1) (set_parts ps db) in
  if eligibleCount r1 participant ps <=? guessedCount ps
  then (fst (endDrawingPhase r1 db1), GuessCorrect reward true)
  else (db1, GuessCorrect reward false).

(** [submit_guess]. *)
Definition submit_guess (socketUser : option nat) (guess : string) (db : Db)
  : Db * GuessResult :=
  match room db with
  | None => (db, GuessRejected "room_not_found")
  | Some r =>
      match guessGate socketUser r (parts db) with
      | inl message => (db, GuessRejected message)
      | inr participant =>
          match currentWord r with
          | None => (db, GuessRejected "no_active_word")
          | Some w =>
              if String.eqb (normalize guess) (normalize w)
              then correctGuess r participant db
              else (db, GuessIncorrect)
          end
      end
  end.

(** [skip_turn]. *)
Definition skip_turn (o : Oracle) (db : Db) : Db :=
  match room db with
  | None => db
  | Some r =>
      let db1 := set_parts (updateWhere (fun _ => true) (set_isDrawer false) (parts db)) db in
      if (List.length (activeParticipants (parts db1)) <? 2)%nat then db1
      else
        let r1 := set_currentWordOptions Js.Null
                    (set_currentWord None (set_currentDrawerId None r)) in
        fst (selectDrawerAndStartWordChoice o (set_room (Some r1) db1))
  end.

(** [checkAndCloseEmptyRoom]. *)
Definition checkAndCloseEmptyRoom (db : Db) : Db * bool :=
  match room db with
  | None => (db, false)
  | Some r =>
      if countWhere isActive (parts db) =? 1
      then (set_room (Some (set_status inactive r)) db, true)
      else (db, false)
  end.

(** The row update shared by [leave_room] and [disconnect]. *)
Definition deactivate (u : nat) (ps : list RoomParticipant) : list RoomParticipant :=
  updateWhere (fun p => Nat.eqb (userId p) u)
    (fun p => set_socketId None (set_isActive false p)) ps.

(** [leave_room]. *)
Definition leave_room (socketUser : option nat) (db : Db) : Db :=
  match room db, socketUser with
  | Some r, Some u =>
      let db1 := set_parts (deactivate u (parts db)) db in
      let db2 :=
        if Nat.eqb (ownerId r) u then fst (handleOwnerLeave r u db1)
        else if Status_eqb (status r) playing then fst (handleDrawerLeave r u db1)
        else db1 in
      fst (checkAndCloseEmptyRoom db2)
  | _, _ => db
  end.

(** [disconnect], for a socket that had joined the room. *)
Definition disconnect (socketUser : option nat) (db : Db) : Db :=
  match room db, socketUser with
  | Some r, Some u => fst (checkAndCloseEmptyRoom (set_parts (deactivate u (parts db)) db))
  | _, _ => db
  end.

End Socket.

(* ===================================================================== *)
(** ** sockets/socket.js: the [update_settings] handler *)
(* ===================================================================== *)

Module Settings.

(** The [settings] object of the event, for the columns the room row of
    this development carries ([None] is an absent property).  For
    [voiceEnabled], [None] also stands for any value that is not a boolean:
    the handler only compares it with [undefined], [true] and [false].
    [category] holds the outcome of [Theme.findOne({ where: { title } })],
    the id of the theme found. *)
Record Settings := mkSettings {
  voiceEnabled : option bool;
  newGameMode : option string;
  category : option (option nat);
  newEntryPoints : option Z;
  newTargetPoints : option Z;
  newIsPublic : option bool;
  newMaxPlayers : option Z
}.

Definition VOICE_CHAT_COST : Z := 50.

(** [insufficientFundsUsers.length > 0]. *)
Definition insufficientFunds (us : list User) (ps : list RoomParticipant) : bool :=
  existsb (fun p => match findUser (userId p) us with
                    | Some u => coins u <? VOICE_CHAT_COST
                    | None => false
                    end) (activeParticipants ps).

(** [usersToCharge.map(user => { user.coins -= VOICE_CHAT_COST; user.save() })]:
    the user of every active participant is saved with the balance it was
    loaded with, less the fee. *)
Definition chargeVoice (ps : list RoomParticipant) (us : list User) : list User :=
  map (fun u => if existsb (fun p => Nat.eqb (userId p) (uid u)) (activeParticipants ps)
                then set_coins (coins u - VOICE_CHAT_COST) u else u) us.

Definition set_gameMode (v : string) (r : Room) : Room :=
  mkRoom (ownerId r) v (isPublic r) (entryPoints r) (targetPoints r)
    (maxPointsPerRound r) (maxPlayers r) (status r) (currentWord r)
    (currentWordOptions r) (currentDrawerId r) (currentRound r) (roundPhase r)
    (roundRemainingTime r) (drawerPointerIndex r) (themeId r) (drawnUserIds r).

Definition set_isPublic (v : bool) (r : Room) : Room :=
  mkRoom (ownerId r) (gameMode r) v (entryPoints r) (targetPoints r)
    (maxPointsPerRound r) (maxPlayers r) (status r) (currentWord r)
    (currentWordOptions r) (currentDrawerId r) (currentRound r) (roundPhase r)
    (roundRemainingTime r) (drawerPointerIndex r) (themeId r) (drawnUserIds r).

Definition set_entryPoints (v : Z) (r : Room) : Room :=
  mkRoom (ownerId r) (gameMode r) (isPublic r) v (targetPoints r)
    (maxPointsPerRound r) (maxPlayers r) (status r) (currentWord r)
    (currentWordOptions r) (currentDrawerId r) (currentRound r) (roundPhase r)
    (roundRemainingTime r) (drawerPointerIndex r) (themeId r) (drawnUserIds r).

Definition set_targetPoints (v : Z) (r : Room) : Room :=
  mkRoom (ownerId r) (gameMode r) (isPublic r) (entryPoints r) v
    (maxPointsPerRound r) (maxPlayers r) (status r) (currentWord r)
    (currentWordOptions r) (currentDrawerId r) (currentRound r) (roundPhase r)
    (roundRemainingTime r) (drawerPointerIndex r) (themeId r) (drawnUserIds r).

Definition set_maxPlayers (v : Z) (r : Room) : Room :=
  mkRoom (ownerId r) (gameMode r) (isPublic r) (entryPoints r) (targetPoints r)
    (maxPointsPerRound r) v (status r) (currentWord r)
    (currentWordOptions r) (currentDrawerId r) (currentRound r) (roundPhase r)
    (roundRemainingTime r) (drawerPointerIndex r) (themeId r) (drawnUserIds r).

Definition set_themeId (v : option nat) (r : Room) : Room :=
  mkRoom (ownerId r) (gameMode r) (isPublic r) (entryPoints r) (targetPoints r)
    (maxPointsPerRound r) (maxPlayers r) (status r) (currentWord r)
    (currentWordOptions r) (currentDrawerId r) (currentRound r) (roundPhase r)
    (roundRemainingTime r) (drawerPointerIndex r) v (drawnUserIds r).

(** [if (settings.field !== undefined) room.field = ...]. *)
Definition assign {A} (v : option A) (set : A -> Room -> Room) (r : Room) : Room :=
  match v with
  | Some a => set a r
  | None => r
  end.

(** The assignments that follow the voice block, up to [room.save()]. *)
Definition applySettings (s : Settings) (r : Room) : Room :=
  let r := assign (newGameMode s) set_gameMode r in
  let r := assign (category s) set_themeId r in
  let r := assign (newEntryPoints s)
             (fun e => set_entryPoints
                         (if match voiceEnabled s with Some true => true | _ => false end
                          then e + VOICE_CHAT_COST else e)) r in
  let r := assign (newTargetPoints s) set_targetPoints r in
  let r := assign (newIsPublic s)
             (fun b r0 =>
                let r1 := set_isPublic b r0 in
                let r2 := if b && Status_eqb (status r1) lobby
                          then set_status waiting r1 else r1 in
                if negb b && Status_eqb (status r2) waiting
                then set_status lobby r2 else r2) r in
  assign (newMaxPlayers s) set_maxPlayers r.

(** [update_settings].  [roomVoice] is the room's [voiceEnabled] column
    ([None] for SQL NULL); the result holds the store, that column and the
    error message emitted, if any. *)
Definition update_settings (socketUser : option nat) (s : Settings)
  (roomVoice : option bool) (db : Db) : Db * option bool * option string :=
  match room db with
  | None => (db, roomVoice, Some "room_not_found")
  | Some r =>
      if negb (opt_nat_eqb (Some (ownerId r)) socketUser)
      then (db, roomVoice, Some "only_owner_can_update")
      else if negb (Status_eqb (status r) lobby) && negb (Status_eqb (status r) waiting)
      then (db, roomVoice, Some "cannot_update_after_game_started")
      else
        match voiceEnabled s, roomVoice with
        | Some true, Some false =>
            if insufficientFunds (users db) (parts db)
            then (db, roomVoice, Some "insufficient_coins")
            else
              (mkDb (Some (applySettings s r)) (parts db)
                 (chargeVoice (parts db) (users db)) (ledger db),
               Some true, None)
        | Some false, _ =>
            (set_room (Some (applySettings s r)) db, Some false, None)
        | _, _ =>
            (set_room (Some (applySettings s r)) db, roomVoice, None)
        end
  end.

End Settings.

(* ===================================================================== *)
(** ** routes/rooms: joining and leaving over HTTP *)
(* ===================================================================== *)

Module Rest.

Inductive JoinOutcome :=
| JoinFailed (error : string)
| Joined (participant : RoomParticipant).

(** [assignTeamRandomly]. *)
Definition assignTeamRandomly (existingParticipants : list RoomParticipant) : string :=
  let teamACount := List.length (filter (team_is "A") existingParticipants) in
  let teamBCount := List.length (filter (team_is "B") existingParticipants) in
  if (teamACount <=? teamBCount)%nat then "A" else "B".

(** The team given to a new participant by [POST /join]. *)
Definition assignedTeam (r : Room) (team : option string) (ps : list RoomParticipant)
  : option string :=
  if String.eqb (gameMode r) "team" || String.eqb (gameMode r) "team_vs_team"
  then
    match team with
    | Some t =>
        if String.eqb t "orange" || String.eqb t "blue" then Some t
        else Some (assignTeamRandomly (activeParticipants ps))
    | None => Some (assignTeamRandomly (activeParticipants ps))
    end
  else None.

(** [POST /join] for the authenticated user [user], with the [team] of the
    request body. *)
Definition join (user : nat) (team : option string) (db : Db) : Db * JoinOutcome :=
  match room db with
  | None => (db, JoinFailed "room_not_found")
  | Some r =>
      let participantCount := countWhere isActive (parts db) in
      if maxPlayers r <=? participantCount then (db, JoinFailed "room_full")
      else
        match findUser user (users db) with
        | None => (db, JoinFailed "insufficient_coins")
        | Some u =>
            if coins u <? entryPoints r then (db, JoinFailed "insufficient_coins")
            else
              match findByUser user (parts db) with
              | Some participant =>
                  let saved := set_hasPaidEntry true (set_isActive true participant) in
                  (set_parts (updateWhere (fun q => Nat.eqb (id q) (id participant))
                                (fun q => set_hasPaidEntry true (set_isActive true q))
                                (parts db)) db,
                   Joined saved)
              | None =>
                  let created :=
                    mkParticipant (Socket.nextId (parts db)) user
                      (assignedTeam r team (parts db)) false 0 false false true true None in
                  (mkDb (room db) (parts db ++ [created])
                     (creditUser (uid u) (- entryPoints r) (users db)) (ledger db),
                   Joined created)
              end
        end
  end.

(** [POST /:roomId/leave]; the boolean tells whether the user had a row. *)
Definition leave (user : nat) (db : Db) : Db * bool :=
  match findByUser user (parts db) with
  | None => (db, false)
  | Some participant =>
      let ps := updateWhere (fun q => Nat.eqb (id q) (id participant))
                  (set_isActive false) (parts db) in
      if countWhere isActive ps =? 0
      then (mkDb (option_map (set_status closed) (room db)) ps (users db) (ledger db), true)
      else (set_parts ps db, true)
  end.

End Rest.

(* ===================================================================== *)
(** ** routes/report: reporting a participant *)
(* ===================================================================== *)

Module Reports.

(** Row of table [reports] for the room: [reportedBy] holds ids of
    reporting users (in the table, their decimal strings). *)
Record Report := mkReport {
  userToBlockId : nat;
  reportedBy : list nat;
  reportCount : nat
}.

Inductive ReportResult :=
| ReportError (error : string)
| Reported (count : nat) (banned : bool).

(** [RoomParticipant.findOne({ where: { roomId, userId, isActive: true } })]. *)
Definition activeRow (u : nat) (ps : list RoomParticipant) : option RoomParticipant :=
  find (fun p => Nat.eqb (userId p) u && isActive p) ps.

(** [Report.findOne({ where: { roomId, userToBlockId } })]. *)
Definition findReport (target : nat) (rs : list Report) : option Report :=
  find (fun r => Nat.eqb (userToBlockId r) target) rs.

(** [report.update(values)] on the row that [findReport] returned. *)
Fixpoint saveReport (target : nat) (f : Report -> Report) (rs : list Report)
  : list Report :=
  match rs with
  | [] => []
  | r :: rest =>
      if Nat.eqb (userToBlockId r) target then f r :: rest
      else r :: saveReport target f rest
  end.

(** [POST /report] by the authenticated user [userRequestingToBlockId]
    against [userToBlock] (0 stands for a missing id).

    The reporter's id is pushed onto the array read from the row, and that
    array is handed to [report.update] together with the new counter
    (part_001:61-66).  The array is the row's own value, changed in place,
    so the update finds [reportedBy] equal to what the row holds and writes
    the counter alone: the stored list stays as it was, for a row that was
    just created as for one that was found. *)
Definition report (userRequestingToBlockId userToBlock : nat) (db : Db)
  (reports : list Report) : Db * list Report * ReportResult :=
  if Nat.eqb userToBlock 0
  then (db, reports, ReportError "roomId and userToBlockId are required")
  else
    match activeRow userRequestingToBlockId (parts db) with
    | None => (db, reports, ReportError "You are not in this room")
    | Some _ =>
        match activeRow userToBlock (parts db) with
        | None => (db, reports, ReportError "User to report is not in this room")
        | Some _ =>
            if Nat.eqb userRequestingToBlockId userToBlock
            then (db, reports, ReportError "You cannot report yourself")
            else
              let found := findReport userToBlock reports in
              let reports1 :=
                match found with
                | Some _ => reports
                | None => reports ++ [mkReport userToBlock [] 0]
                end in
              let reportedByArray :=
                match found with
                | Some r => reportedBy r
                | None => []
                end in
              if existsb (Nat.eqb userRequestingToBlockId) reportedByArray
              then (db, reports1, ReportError "You have already reported this user")
              else
                let pushed := reportedByArray ++ [userRequestingToBlockId] in
                let newReportCount := List.length pushed in
                let reports2 :=
                  saveReport userToBlock
                    (fun r => mkReport (userToBlockId r) (reportedBy r) newReportCount)
                    reports1 in
                if (3 <=? newReportCount)%nat
                then
                  match room db with
                  | None => (db, reports2, ReportError "Room not found")
                  | Some _ =>
                      (set_parts (Socket.deactivate userToBlock (parts db)) db, reports2,
                       Reported newReportCount true)
                  end
                else (db, reports2, Reported newReportCount false)
        end
    end.

End Reports.

(* ===================================================================== *)
(** ** utils/wordSelector.js: the translation lookup of [getWordsForTheme] *)
(* ===================================================================== *)

Module WordLookup.

(** Rows of [languages] and [translations], and a keyword with the
    translations that the query includes. *)
Record Language := mkLanguage {
  langId : nat;
  languageCode : string
}.

Record Translation := mkTranslation {
  languageId : nat;
  scriptType : string;
  translatedText : string
}.

Record Keyword := mkKeyword {
  keyName : string;
  translations : list Translation
}.

(** The two queries of one call: [Theme.findByPk(themeId, { include })],
    giving the keywords of the theme ([None] when there is no such theme),
    and [Language.findOne({ where: { languageCode } })]. *)
Record Tables := mkTables {
  themeKeywords : nat -> option (list Keyword);
  findLanguage : string -> option Language
}.

Definition langCodeMap : list (string * string) :=
  [("EN", "en"); ("TE", "te"); ("HI", "hi"); ("English", "en"); ("english", "en");
   ("Hindi", "hi"); ("hindi", "hi"); ("Telugu", "te"); ("telugu", "te");
   ("Kannada", "kn"); ("kannada", "kn"); ("Marathi", "mr"); ("marathi", "mr")].

(** The property names every object literal inherits from
    [Object.prototype]: [langCodeMap[name]] is a function or an object for
    them, not a string. *)
Definition inheritedKeys : list string :=
  ["constructor"; "__defineGetter__"; "__defineSetter__"; "hasOwnProperty";
   "__lookupGetter__"; "__lookupSetter__"; "isPrototypeOf"; "propertyIsEnumerable";
   "toString"; "valueOf"; "__proto__"; "toLocaleString"].

Inductive Looked :=
| Own (code : string)
| Inherited
| Absent.

(** [langCodeMap[key]]. *)
Definition lookupLang (key : string) : Looked :=
  match find (fun kv => String.eqb (fst kv) key) langCodeMap with
  | Some kv => Own (snd kv)
  | None => if existsb (String.eqb key) inheritedKeys then Inherited else Absent
  end.

(** [langCodeMap[l] || langCodeMap[l?.toLowerCase()] || l?.toLowerCase() || "en"];
    [None] when the value is not a string. *)
Definition normalizedLangCode (roomLanguage : option string) : option string :=
  match roomLanguage with
  | None => Some "en"
  | Some l =>
      match lookupLang l with
      | Own code => Some code
      | Inherited => None
      | Absent =>
          match lookupLang (Js.toLowerCase l) with
          | Own code => Some code
          | Inherited => None
          | Absent =>
              if String.eqb (Js.toLowerCase l) "" then Some "en"
              else Some (Js.toLowerCase l)
          end
      end
  end.

(** [(roomScript || "default").toLowerCase()], then the folding of
    ["roman"], ["native"] and ["all"]. *)
Definition normalizedScript (roomScript : option string) : string :=
  let s :=
    Js.toLowerCase
      match roomScript with
      | Some x => if String.eqb x "" then "default" else x
      | None => "default"
      end in
  if String.eqb s "roman" || String.eqb s "native" || String.eqb s "all"
  then if String.eqb s "roman" || String.eqb s "english" then "english" else "default"
  else s.

(** Target determination: [(targetLanguageCode, targetScriptType)]. *)
Definition target (normalizedLang : option string) (script : string)
  : option string * string :=
  if opt_string_eqb normalizedLang (Some "en") then (Some "en", "roman")
  else if String.eqb script "english" then (Some "en", "roman")
  else if String.eqb script "default" then (normalizedLang, "roman")
  else (normalizedLang, "roman").

(** [keyword.translations.find(t => t.languageId === language.id
                                   && t.scriptType === script)]. *)
Definition findTranslation (language : Language) (script : string) (keyword : Keyword)
  : option Translation :=
  find (fun t => Nat.eqb (languageId t) (langId language)
                 && String.eqb (scriptType t) script) (translations keyword).

(** One turn of the loop over the keywords: the text pushed on [words], if
    any. *)
Definition wordFor (targetLanguage englishLanguage : Language)
  (targetScriptType : string) (keyword : Keyword) : option string :=
  match findTranslation targetLanguage targetScriptType keyword with
  | Some t => Some (translatedText t)
  | None =>
      let fallbackScript :=
        if String.eqb targetScriptType "roman" then "native" else "roman" in
      match (if negb (String.eqb (languageCode targetLanguage) "en")
             then findTranslation targetLanguage fallbackScript keyword
             else None) with
      | Some t => Some (translatedText t)
      | None =>
          match findTranslation englishLanguage "roman" keyword with
          | Some t => Some (translatedText t)
          | None => None
          end
      end
  end.

(** [getWordsForTheme(themeId, roomLanguage, roomScript, limit)] with its
    lookups; [sh] is the outcome of the random [sort].  The result is [None]
    when a value that is not a string would be passed to the language query
    (a room language named like an inherited property): that case is left
    out of the model. *)
Definition getWordsForTheme (tb : Tables) (sh : list string -> list string)
  (themeId : nat) (roomLanguage roomScript : option string) (limit : nat)
  : option (list string) :=
  let '(targetLanguageCode, targetScriptType) :=
    target (normalizedLangCode roomLanguage) (normalizedScript roomScript) in
  match themeKeywords tb themeId with
  | None => Some []
  | Some [] => Some []
  | Some keywords =>
      match targetLanguageCode with
      | None => None
      | Some code =>
          match findLanguage tb "en" with
          | None => Some []
          | Some englishLanguage =>
              let targetLanguage :=
                match findLanguage tb code with
                | Some l => l
                | None => englishLanguage
                end in
              let words :=
                flat_map (fun k => Rotation.opt_list
                                     (wordFor targetLanguage englishLanguage
                                        targetScriptType k)) keywords in
              Some (WordSelector.getWordsForTheme (mkOracle words sh) limit)
          end
      end
  end.

End WordLookup.

(* ===================================================================== *)
(** ** Concrete rooms used by the examples *)
(* ===================================================================== *)

Module Examples.

Definition player (u : nat) (t : option string) : RoomParticipant :=
  mkParticipant u u t false 0 false false true true (Some "s").

Definition baseRoom (mode : string) : Room :=
  mkRoom 1 mode false 250 100 10 15 lobby None Js.Null None 0 None 80 0 None [].

Definition someUsers : list User :=
  [mkUser 1 1000; mkUser 2 1000; mkUser 3 1000; mkUser 4 1000; mkUser 5 1000].

Definition idOracle : Oracle := mkOracle [] (fun l => l).

(** A drawing phase of a free-for-all game: user 1 draws "cat", 70 seconds
    are left. *)
Definition drawingRoom (mode : string) : Room :=
  set_roundRemainingTime 70
    (set_roundPhase (Some drawing)
      (set_currentWord (Some "cat")
        (set_currentDrawerId (Some 1%nat)
          (set_currentRound 1 (set_status playing (baseRoom mode)))))).

Definition drawerOf (p : RoomParticipant) : RoomParticipant :=
  set_hasDrawn true (set_isDrawer true p).

(** Free-for-all drawing phase: user 1 draws, users 2 and 3 guess. *)
Definition ffaDrawing : Db :=
  mkDb (Some (drawingRoom "1v1"))
    [drawerOf (player 1 None); player 2 None; player 3 None] someUsers [].

(** Team drawing phase: the drawer 1 and users 3 and 5 are blue, users 2
    and 4 are orange. *)
Definition teamDrawing : Db :=
  mkDb (Some (drawingRoom "team_vs_team"))
    [drawerOf (player 1 (Some "blue")); player 2 (Some "orange");
     player 3 (Some "blue"); player 4 (Some "orange"); player 5 (Some "blue")]
    someUsers [].

(** Free-for-all drawing phase with three guessers. *)
Definition ffaFour : Db :=
  mkDb (Some (drawingRoom "1v1"))
    [drawerOf (player 1 None); player 2 None; player 3 None; player 4 None]
    someUsers [].

(** The same phase after user 2 guessed the word and then left the room;
    users 3 and 4 are still guessing. *)
Definition guesserLeft : Db :=
  Socket.leave_room (Some 2%nat) (fst (Socket.submit_guess (Some 2%nat) "cat" ffaFour)).

(** End of a game: four active participants with scores 40, 120, 75, 90 and
    the default entry price of 250. *)
Definition finalScores : list RoomParticipant :=
  [set_score 40 (player 1 None); set_score 120 (player 2 None);
   set_score 75 (player 3 None); set_score 90 (player 4 None)].

Definition finalDb : Db :=
  mkDb (Some (set_status playing (baseRoom "1v1"))) finalScores someUsers [].

(** A ["1v1"] room for two players that is full: the owner 1 and user 2,
    who has just been added by the REST join, are both active. *)
Definition fullRoom : Db :=
  mkDb (Some (mkRoom 1 "1v1" false 250 100 10 2 lobby None Js.Null None 0 None 80 0
                None []))
    [player 1 None; player 2 None] someUsers [].

(** The same room after user 2 left and user 3 took the free seat. *)
Definition fullRoomAfterLeave : Db :=
  mkDb (room fullRoom)
    [player 1 None; set_socketId None (set_isActive false (player 2 None));
     player 3 None] someUsers [].

(** A themed room: three words of the theme resolve. *)
Definition animals : Oracle := mkOracle ["elephant"; "tiger"; "zebra"] (fun l => l).

Definition themedRoom : Db :=
  mkDb (Some (mkRoom 1 "1v1" false 250 100 10 15 playing None Js.Null None 1 None 80 0
                (Some 7%nat) []))
    [player 1 None; player 2 None] someUsers [].

(** A team game of four: users 1 and 3 are blue, users 2 and 4 orange. *)
Definition teamGame : Db :=
  mkDb (Some (set_currentRound 1 (set_status playing (baseRoom "team_vs_team"))))
    [player 1 (Some "blue"); player 2 (Some "orange");
     player 3 (Some "blue"); player 4 (Some "orange")] someUsers [].

(** A lobby of three in a ["1v1"] room owned by user 1; the rotation
    pointer stands at 1, so that the first drawer is user 2. *)
Definition lobbyOfThree : Db :=
  mkDb (Some (set_drawerPointerIndex 1 (baseRoom "1v1")))
    [player 1 None; player 2 None; player 3 None] someUsers [].

(** A drawing phase in which user 2 draws "cat"; the owner 1 and user 3
    guess. *)
Definition guestDraws : Db :=
  mkDb (Some (set_currentDrawerId (Some 2%nat) (drawingRoom "1v1")))
    [player 1 None; drawerOf (player 2 None); player 3 None] someUsers [].

(** The word choice of a free-for-all round: the drawer, user 1, is offered
    three words. *)
Definition choosingRoom : Room :=
  set_currentWordOptions (Js.Arr ["apple"; "banana"; "cat"])
    (set_roundPhase (Some choosing_word) (set_currentWord None (drawingRoom "1v1"))).

Definition ffaChoosing : Db :=
  mkDb (Some choosingRoom)
    [drawerOf (player 1 None); player 2 None; player 3 None] someUsers [].

(** Translation tables: the languages English (1) and Hindi (2), and theme
    7 with three keywords, of which "cat" has a Hindi translation in both
    scripts, "dog" only a native Hindi one, and "sun" none. *)
Definition english : WordLookup.Language := WordLookup.mkLanguage 1 "en".

Definition hindi : WordLookup.Language := WordLookup.mkLanguage 2 "hi".

Definition animalKeywords : list WordLookup.Keyword :=
  [WordLookup.mkKeyword "cat"
     [WordLookup.mkTranslation 1 "roman" "cat";
      WordLookup.mkTranslation 2 "native" "billi-native";
      WordLookup.mkTranslation 2 "roman" "billi"];
   WordLookup.mkKeyword "dog"
     [WordLookup.mkTranslation 1 "roman" "dog";
      WordLookup.mkTranslation 2 "native" "kutta-native"];
   WordLookup.mkKeyword "sun" [WordLookup.mkTranslation 1 "roman" "sun"]].

Definition wordTables : WordLookup.Tables :=
  WordLookup.mkTables
    (fun themeId => if Nat.eqb themeId 7 then Some animalKeywords else None)
    (fun code => if String.eqb code "en" then Some english
                 else if String.eqb code "hi" then Some hindi else None).

End Examples.

(* ===================================================================== *)
(** ** Vocabulary of the statements *)
(* ===================================================================== *)

(** Ranking order: a participant comes no later than one of lower score. *)
Definition byScoreDesc (a b : RoomParticipant) : Prop := score b <= score a.

(** Coins of a user, 0 when the row is missing. *)
Definition coinsOf (u : nat) (us : list User) : Z :=
  match findUser u us with
  | Some x => coins x
  | None => 0
  end.

(** The coin prize of the participant ranked at index [i] (from 0), read
    from the [rewards] table of [endGame]: nothing beyond the table. *)
Definition prizeAt (entryCost : Z) (i : nat) : Z :=
  match nth_error GameHelpers.rewards i with
  | Some (_, multiplier) => entryCost * multiplier
  | None => 0
  end.

(** The effects of [endGame] on one rewarded participant [x] (its row and
    its line [(place, multiplier)] of the [rewards] table): the credit, the
    ledger entry and the ranking line. *)
Definition creditOf (entryCost : Z) (us : list User) (x : RoomParticipant * (nat * Z))
  : list User :=
  creditUser (userId (fst x)) (entryCost * snd (snd x)) us.

Definition txOf (entryCost : Z) (x : RoomParticipant * (nat * Z)) : CoinTransaction :=
  mkTx (userId (fst x)) (entryCost * snd (snd x))
    (GameHelpers.rewardReason (fst (snd x))).

Definition rankingOf (entryCost : Z) (x : RoomParticipant * (nat * Z))
  : GameHelpers.Ranking :=
  GameHelpers.mkRanking (fst (snd x)) (userId (fst x)) (score (fst x))
    (entryCost * snd (snd x)).

(** User id of the drawer a selection returned. *)
Definition selectedUser (sel : RoundPhases.Selection) : option nat :=
  match sel with
  | RoundPhases.Selected nextDrawer _ => Some (userId nextDrawer)
  | RoundPhases.NotSelected => None
  end.

(** Consecutive drawer selections by [select], one per oracle of [os], with
    nothing else happening in between: the store afterwards and the drawers
    selected, in order. *)
Fixpoint runSelections (select : Oracle -> Db -> Db * RoundPhases.Selection)
  (os : list Oracle) (db : Db) : Db * list (option nat) :=
  match os with
  | [] => (db, [])
  | o :: rest =>
      let step := select o db in
      let next := runSelections select rest (fst step) in
      (fst next, selectedUser (snd step) :: snd next)
  end.

(** User ids of the active participants in rotation order. *)
Definition rotationOrder (db : Db) : list nat :=
  map userId (Rotation.sortByUserId (activeParticipants (parts db))).

(** Rotation order: ascending user id. *)
Definition byUserIdAsc (a b : RoomParticipant) : Prop := (userId a <= userId b)%nat.

(** [n] firings of a timer callback. *)
Fixpoint iterate (n : nat) (f : Db -> Db) (db : Db) : Db :=
  match n with
  | O => db
  | S m => iterate m f (f db)
  end.

(** A write by the REST routes (room creation, settings, team choice, join
    and leave over HTTP): they may change the room row, the users and the
    ledger, rewrite participant rows without touching [id] or [isDrawer],
    and insert new rows, which are created with [isDrawer: false]. *)
Definition restWrite (db db' : Db) : Prop :=
  exists g news,
    parts db' = map g (parts db) ++ news
    /\ (forall p, id (g p) = id p /\ isDrawer (g p) = isDrawer p)
    /\ Forall (fun p => isDrawer p = false) news
    /\ NoDup (map id news)
    /\ (forall p, In p news -> ~ In (id p) (map id (parts db))).

(** One event of a room's session: a socket command, the firing of one of
    the engine's timers (with whatever values its closure captured), or a
    write by the REST routes. *)
Inductive step : Db -> Db -> Prop :=
| step_join_room u sock db : step db (fst (Socket.join_room u sock db))
| step_select_team u t db : step db (Socket.select_team u t db)
| step_start_game o u db : step db (Socket.start_game o u db)
| step_choose_word u w db : step db (Socket.choose_word u w db)
| step_submit_guess u g db : step db (fst (Socket.submit_guess u g db))
| step_skip_turn o db : step db (Socket.skip_turn o db)
| step_leave_room u db : step db (Socket.leave_room u db)
| step_disconnect u db : step db (Socket.disconnect u db)
| step_selecting_tick nd w db :
    step db (fst (RoundPhases.phaseTimerTick selecting_drawer
                    (fun r d => fst (RoundPhases.startWordChoicePhase r nd w d)) db))
| step_choosing_tick o nd db :
    step db (fst (RoundPhases.phaseTimerTick choosing_word
                    (fun r d => fst (RoundPhases.chooseWordTimeout o nd r d)) db))
| step_drawing_tick db : step db (fst (RoundPhases.drawingTick db))
| step_reveal_timeout db : step db (RoundPhases.startIntervalPhase db)
| step_interval_tick o db :
    step db (fst (RoundPhases.phaseTimerTick interval
                    (fun r d => fst (RoundPhases.intervalTimeout o r d)) db))
| step_leave_interval_tick o db :
    step db (fst (RoundPhases.phaseTimerTick interval
                    (fun _ d => fst (RoundPhases.drawerLeaveIntervalTimeout o d)) db))
| step_lobby_timeout db : step db (GameHelpers.endGameLobbyTimeout db)
| step_rest db db' : restWrite db db' -> step db db'.

(** The states a session can be in: a room as created (distinct row ids, no
    drawer flagged), then any sequence of events. *)
Inductive reachable : Db -> Prop :=
| reach_created db :
    Forall (fun p => isDrawer p = false) (parts db) ->
    NoDup (map id (parts db)) ->
    reachable db
| reach_step db db' : reachable db -> step db db' -> reachable db'.

(** The invariant on the participant rows. *)
Definition rowsOk (ps : list RoomParticipant) : Prop :=
  NoDup (map id ps) /\ (drawerCount ps <= 1)%nat.

(** The candidate met at step [i] of a walk over [alt] that starts at
    [pointer] ([d] is only the default of [nth]). *)
Definition candidateAt (alt : list RoomParticipant) (d : RoomParticipant)
  (pointer i : nat) : RoomParticipant :=
  nth ((pointer + i) mod List.length alt) alt d.

(** All coins held by the users, all amounts written to the ledger, and the
    coins the ledger does not account for. *)
Definition totalCoins (us : list User) : Z :=
  fold_right (fun u acc => coins u + acc) 0 us.

Definition ledgerTotal (lg : list CoinTransaction) : Z :=
  fold_right (fun t acc => amount t + acc) 0 lg.

Definition unaccounted (db : Db) : Z :=
  totalCoins (users db) - ledgerTotal (ledger db).

(** The random [sort] only reorders its argument. *)
Definition permuting (sh : list string -> list string) : Prop :=
  forall l, Permutation l (sh l).

(** A translation of one of the keywords. *)
Definition translationOf (keywords : list WordLookup.Keyword)
  (t : WordLookup.Translation) : Prop :=
  exists k, In k keywords /\ In t (WordLookup.translations k).

(* ===================================================================== *)
(** ** Properties *)
(* ===================================================================== *)

(* ===================================================================== *)
(** ** Arithmetic of the scoring helpers *)
(* ===================================================================== *)

Section Arithmetic.

Lemma ceil_div_bounds (a b : Z) :
  0 < b -> b * (Js.ceil_div a b - 1) < a <= b * Js.ceil_div a b.
Proof.
  intros Hb. unfold Js.ceil_div.
  pose proof (Z.div_mod (- a) b ltac:(lia)) as Hdm.
  pose proof (Z.mod_pos_bound (- a) b Hb) as Hm.
  nia.
Qed.

Lemma floor_div_bounds (a b : Z) :
  0 < b -> b * Js.floor_div a b <= a < b * (Js.floor_div a b + 1).
Proof.
  intros Hb. unfold Js.floor_div.
  pose proof (Z.div_mod a b ltac:(lia)) as Hdm.
  pose proof (Z.mod_pos_bound a b Hb) as Hm.
  nia.
Qed.

End Arithmetic.

(* ===================================================================== *)
(** ** Facts about the handlers *)
(* ===================================================================== *)

Import GameHelpers RoundPhases Socket.

Section EndOfRound.

Lemma endGame_room r participants db :
  room (fst (endGame r participants db)) = Some (set_status finished r).
Proof.
  unfold endGame.
  destruct (payTop _ _ _ _ _ _) as [[us lg] top]. reflexivity.
Qed.

Lemma endGame_parts r participants db :
  parts (fst (endGame r participants db)) = parts db.
Proof.
  unfold endGame.
  destruct (payTop _ _ _ _ _ _) as [[us lg] top]. reflexivity.
Qed.

Lemma checkGameEnd_parts r db : parts (fst (checkGameEnd r db)) = parts db.
Proof.
  unfold checkGameEnd.
  destruct (find _ _); simpl; [apply endGame_parts | reflexivity].
Qed.

(** After [checkGameEnd r] on a store whose room row is [r], the room row is
    [r] up to its status. *)
Lemma checkGameEnd_room r db :
  room db = Some r ->
  exists r', room (fst (checkGameEnd r db)) = Some r'
             /\ roundPhase r' = roundPhase r
             /\ roundRemainingTime r' = roundRemainingTime r.
Proof.
  intros Hr. unfold checkGameEnd.
  destruct (find _ _); simpl.
  - rewrite endGame_room. eexists; split; [reflexivity | split; reflexivity].
  - exists r. auto.
Qed.

Lemma endDrawingPhase_room r db :
  exists r', room (fst (endDrawingPhase r db)) = Some r'
             /\ roundPhase r' = Some reveal
             /\ roundRemainingTime r' = roundRemainingTime r.
Proof.
  unfold endDrawingPhase.
  match goal with
  | |- context [checkGameEnd ?r1 ?d] =>
      destruct (checkGameEnd_room r1 d eq_refl) as (r' & H1 & H2 & H3)
  end.
  exists r'. repeat split; assumption.
Qed.

Lemma map_isDrawer_updateWhere cond f ps :
  (forall p, isDrawer (f p) = isDrawer p) ->
  map isDrawer (updateWhere cond f ps) = map isDrawer ps.
Proof.
  intros Hf. unfold updateWhere. rewrite map_map.
  apply map_ext. intros p. destruct (cond p); auto.
Qed.

Lemma endDrawingPhase_isDrawer r db :
  map isDrawer (parts (fst (endDrawingPhase r db))) = map isDrawer (parts db).
Proof.
  unfold endDrawingPhase. rewrite checkGameEnd_parts. simpl.
  destruct (findByUserOpt _ _); [| reflexivity].
  destruct (0 <? _); [| reflexivity].
  apply map_isDrawer_updateWhere. reflexivity.
Qed.

End EndOfRound.

Section SubmitGuess.

Lemma guessGate_accepts u r ps p :
  guessGate u r ps = inr p ->
  phase_is (roundPhase r) drawing = true
  /\ (exists n, u = Some n /\ findByUser n ps = Some p)
  /\ isDrawer p = false
  /\ hasGuessedThisRound p = false
  /\ (String.eqb (gameMode r) "team_vs_team" = true ->
      exists drawer, findByUserOpt (currentDrawerId r) ps = Some drawer
                     /\ opt_string_eqb (team p) (team drawer) = true).
Proof.
  unfold guessGate. intros H.
  destruct (phase_is (roundPhase r) drawing) eqn:Hph; simpl in H; [| discriminate].
  destruct (currentWord r) as [w |]; [| discriminate].
  destruct (String.eqb w ""); [discriminate |].
  destruct u as [n |]; [| discriminate].
  destruct (findByUser n ps) as [q |] eqn:Hq; [| discriminate].
  destruct (isDrawer q) eqn:Hd; [discriminate |].
  destruct (hasGuessedThisRound q) eqn:Hg; [discriminate |].
  destruct (String.eqb (gameMode r) "team_vs_team") eqn:Hm; simpl in H.
  - destruct (findByUserOpt (currentDrawerId r) ps) as [d |] eqn:Hdr; [| discriminate].
    destruct (opt_string_eqb (team q) (team d)) eqn:Ht; simpl in H; [| discriminate].
    inversion H; subst q.
    repeat split; auto. + exists n; auto. + intros _. exists d; auto.
  - inversion H; subst q.
    repeat split; auto. + exists n; auto. + discriminate.
Qed.

Lemma submit_guess_correct u guess db db' pts ended :
  submit_guess u guess db = (db', GuessCorrect pts ended) ->
  exists r p, room db = Some r
              /\ guessGate u r (parts db) = inr p
              /\ correctGuess r p db = (db', GuessCorrect pts ended).
Proof.
  unfold submit_guess. intros H.
  destruct (room db) as [r |]; [| discriminate].
  destruct (guessGate u r (parts db)) as [m | p] eqn:Hg; [discriminate |].
  destruct (currentWord r) as [w |]; [| discriminate].
  destruct (String.eqb _ _); [| discriminate].
  exists r, p. auto.
Qed.

Lemma correctGuess_spec r p db :
  let ps := afterGuess r p db in
  let ended := eligibleCount r p ps <=? guessedCount ps in
  snd (correctGuess r p db)
    = GuessCorrect (calculateGuessReward (roundRemainingTime r) (maxPointsPerRound r)) ended
  /\ exists r', room (fst (correctGuess r p db)) = Some r'
                /\ roundRemainingTime r' = compressedTime r ps
                /\ roundPhase r' = if ended then Some reveal else roundPhase r.
Proof.
  unfold correctGuess.
  set (ps := afterGuess r p db).
  set (r1 := set_roundRemainingTime (compressedTime r ps) r).
  assert (Hel : eligibleCount r1 p ps = eligibleCount r p ps) by reflexivity.
  cbv zeta. rewrite Hel.
  destruct (eligibleCount r p ps <=? guessedCount ps) eqn:He; simpl.
  - split; [reflexivity |].
    match goal with
    | |- context [endDrawingPhase ?a ?b] =>
        destruct (endDrawingPhase_room a b) as (r' & H1 & H2 & H3)
    end.
    exists r'. rewrite H1, H3. auto.
  - split; [reflexivity |].
    exists r1. auto.
Qed.

End SubmitGuess.

Section Counting.

Lemma countWhere_updateWhere (c cond : RoomParticipant -> bool) f ps :
  (forall p, c (f p) = c p) ->
  countWhere c (updateWhere cond f ps) = countWhere c ps.
Proof.
  intros Hf. unfold countWhere, updateWhere. f_equal.
  induction ps as [| p ps IH]; simpl; [reflexivity |].
  assert (Hc : c (if cond p then f p else p) = c p) by (destruct (cond p); auto).
  rewrite Hc. destruct (c p); simpl; congruence.
Qed.

Lemma afterGuess_activeNonDrawer r p db :
  countWhere activeNonDrawer (afterGuess r p db) = countWhere activeNonDrawer (parts db).
Proof.
  unfold afterGuess.
  rewrite countWhere_updateWhere by reflexivity.
  destruct (String.eqb _ _); apply countWhere_updateWhere; reflexivity.
Qed.

Lemma opt_string_eqb_eq a b : opt_string_eqb a b = true <-> a = b.
Proof.
  destruct a as [x |], b as [y |]; simpl; split; intros H;
    try discriminate; try reflexivity.
  - apply String.eqb_eq in H. congruence.
  - inversion H. apply String.eqb_refl.
Qed.

End Counting.

Section GuessScores.

Lemma findByUser_updateWhere u cond f ps :
  (forall p, userId (f p) = userId p) ->
  findByUser u (updateWhere cond f ps)
  = option_map (fun p => if cond p then f p else p) (findByUser u ps).
Proof.
  intros Hf. unfold findByUser, updateWhere.
  induction ps as [| q ps IH]; [reflexivity |].
  cbn [map find].
  replace (userId (if cond q then f q else q)) with (userId q)
    by (destruct (cond q); [rewrite Hf |]; reflexivity).
  destruct (Nat.eqb (userId q) u); [reflexivity | exact IH].
Qed.

Lemma findByUserOpt_map o h ps :
  (forall p, userId (h p) = userId p) ->
  findByUserOpt o (map h ps) = option_map h (findByUserOpt o ps).
Proof.
  intros Hh. destruct o as [n |]; [| reflexivity]. unfold findByUserOpt, findByUser.
  induction ps as [| q ps IH]; [reflexivity |].
  cbn [map find]. rewrite Hh.
  destruct (Nat.eqb (userId q) n); [reflexivity | exact IH].
Qed.

Lemma countWhere_map c h ps :
  countWhere c (map h ps) = countWhere (fun q => c (h q)) ps.
Proof.
  unfold countWhere. f_equal.
  induction ps as [| q ps IH]; [reflexivity |].
  cbn [map filter]. destruct (c (h q)); cbn [List.length]; congruence.
Qed.

Lemma countWhere_ext c c' ps :
  (forall q, c q = c' q) -> countWhere c ps = countWhere c' ps.
Proof.
  intros H. unfold countWhere. f_equal. f_equal. apply filter_ext. exact H.
Qed.

Lemma countWhere_pos c p ps : In p ps -> c p = true -> 1 <= countWhere c ps.
Proof.
  intros Hin Hc. unfold countWhere.
  assert (Hf : In p (filter c ps)) by (apply filter_In; split; assumption).
  destruct (filter c ps); [destruct Hf | cbn [List.length]; lia].
Qed.

(** The rows after a correct guess, row by row. *)
Lemma afterGuess_map r p db :
  afterGuess r p db
  = map (fun q =>
           let q1 :=
             if (if String.eqb (gameMode r) "team_vs_team"
                 then opt_string_eqb (team q) (team p) && isActive q
                 else Nat.eqb (id q) (id p))
             then set_score (score q + calculateGuessReward (roundRemainingTime r)
                                         (maxPointsPerRound r)) q
             else q in
           if Nat.eqb (id q) (id p) then set_hasGuessedThisRound true q1 else q1)
      (parts db).
Proof.
  unfold afterGuess, updateWhere.
  destruct (String.eqb (gameMode r) "team_vs_team"); rewrite map_map;
    apply map_ext; intros q; cbv zeta;
    match goal with
    | |- context [if ?c then set_score _ _ else _] => destruct c eqn:E
    end;
    cbn [id set_score]; rewrite ?E; reflexivity.
Qed.

(** The scores, flags and ids after [endDrawingPhase]: the drawer's row
    gains the drawer's reward, nothing else changes. *)
Lemma endDrawingPhase_rows r db :
  let guessed := countWhere hasGuessedThisRound (parts db) in
  map score (parts (fst (endDrawingPhase r db)))
  = map (fun q =>
           score q
           + (if match findByUserOpt (currentDrawerId r) (parts db) with
                 | Some d => Nat.eqb (id q) (id d)
                 | None => false
                 end
              then (if 0 <? guessed then Z.min (guessed * 2) (maxPointsPerRound r) else 0)
              else 0))
      (parts db)
  /\ map hasGuessedThisRound (parts (fst (endDrawingPhase r db)))
     = map hasGuessedThisRound (parts db)
  /\ map id (parts (fst (endDrawingPhase r db))) = map id (parts db).
Proof.
  cbv zeta. unfold endDrawingPhase. rewrite checkGameEnd_parts.
  cbn [parts set_room set_parts].
  destruct (findByUserOpt (currentDrawerId r) (parts db)) as [d |].
  - destruct (0 <? countWhere hasGuessedThisRound (parts db)).
    + unfold updateWhere. rewrite !map_map.
      split; [| split]; apply map_ext; intros q;
        destruct (Nat.eqb (id q) (id d)); cbn; try reflexivity; lia.
    + split; [| split; reflexivity].
      apply map_ext. intros q. destruct (Nat.eqb (id q) (id d)); lia.
  - split; [| split; reflexivity].
    rewrite <- (map_id (parts db)) at 1. rewrite map_map.
    apply map_ext. intros q. lia.
Qed.

End GuessScores.

(* ===================================================================== *)
(** ** C7: the guess reward *)
(* ===================================================================== *)

(** C7.  A correct guess is worth [min(ceil(remaining / 8), maxPointsPerRound)]
    points, computed from the room's remaining time when the guess arrives:
    the helper returns [min c maxPoints] for the ceiling [c] of
    [remaining / 8]; it gives 8 for (64, 10) and 1 for (5, 10); every correct
    guess reports exactly that number of points for the room's
    [roundRemainingTime] and [maxPointsPerRound] read at the start of the
    handler; and unless the round ends on this guess, the rows afterwards are
    the old rows with those points added (to the guesser, or to the active
    rows of the guesser's team in [team_vs_team]) and the guesser flagged.

    Whether or not the round ends on this guess, the rows keep their order
    and ids, the guesser's row is flagged, and the score of every row
    afterwards is its score before, plus the points if the row is credited
    (the guesser's row, or in [team_vs_team] every active row of the
    guesser's team), plus, when the round ends on this guess, the drawer's
    reward on the row of the room's current drawer: two points for every
    row then flagged, the guesser's included, capped by
    [maxPointsPerRound]. *)
Theorem C7_guess_reward :
  (forall remaining maxPoints,
      exists c, 8 * (c - 1) < remaining <= 8 * c
                /\ calculateGuessReward remaining maxPoints = Z.min c maxPoints)
  /\ calculateGuessReward 64 10 = 8
  /\ calculateGuessReward 5 10 = 1
  /\ (forall u guess db db' pts ended,
        submit_guess u guess db = (db', GuessCorrect pts ended) ->
        exists r p,
          room db = Some r
          /\ guessGate u r (parts db) = inr p
          /\ pts = calculateGuessReward (roundRemainingTime r) (maxPointsPerRound r)
          /\ (ended = false ->
              parts db' =
              updateWhere (fun q => Nat.eqb (id q) (id p)) (set_hasGuessedThisRound true)
                (updateWhere
                   (fun q => if String.eqb (gameMode r) "team_vs_team"
                             then opt_string_eqb (team q) (team p) && isActive q
                             else Nat.eqb (id q) (id p))
                   (fun q => set_score (score q + pts) q) (parts db)))
          /\ (let credited q :=
                if String.eqb (gameMode r) "team_vs_team"
                then opt_string_eqb (team q) (team p) && isActive q
                else Nat.eqb (id q) (id p) in
              let guessed :=
                countWhere (fun q => hasGuessedThisRound q || Nat.eqb (id q) (id p))
                  (parts db) in
              let drawerRow q :=
                match findByUserOpt (currentDrawerId r) (parts db) with
                | Some d => Nat.eqb (id q) (id d)
                | None => false
                end in
              In p (parts db)
              /\ 1 <= guessed
              /\ map score (parts db')
                 = map (fun q =>
                          score q
                          + (if credited q then pts else 0)
                          + (if ended && drawerRow q
                             then Z.min (guessed * 2) (maxPointsPerRound r)
                             else 0))
                     (parts db)
              /\ map hasGuessedThisRound (parts db')
                 = map (fun q => hasGuessedThisRound q || Nat.eqb (id q) (id p)) (parts db)
              /\ map id (parts db') = map id (parts db))).
Proof.
  split; [| split; [reflexivity | split; [reflexivity |]]].
  - intros remaining maxPoints. exists (Js.ceil_div remaining 8).
    split; [apply ceil_div_bounds; lia | reflexivity].
  - intros u guess db db' pts ended H.
    destruct (submit_guess_correct _ _ _ _ _ _ H) as (r & p & Hr & Hg & Hc).
    exists r, p. split; [assumption | split; [assumption |]].
    destruct (guessGate_accepts _ _ _ _ Hg) as (_ & (n & _ & Hf) & _).
    assert (Hin : In p (parts db)).
    { unfold findByUser in Hf. apply find_some in Hf. apply Hf. }
    assert (Hpos : 1 <= countWhere (fun q => hasGuessedThisRound q || Nat.eqb (id q) (id p))
                          (parts db)).
    { apply (countWhere_pos _ p); [exact Hin |].
      rewrite Nat.eqb_refl. apply orb_true_r. }
    assert (Hflag : forall q,
               hasGuessedThisRound
                 (if Nat.eqb (id q) (id p)
                  then set_hasGuessedThisRound true
                         (if (if String.eqb (gameMode r) "team_vs_team"
                              then opt_string_eqb (team q) (team p) && isActive q
                              else Nat.eqb (id q) (id p))
                          then set_score (score q + calculateGuessReward (roundRemainingTime r)
                                                      (maxPointsPerRound r)) q
                          else q)
                  else (if (if String.eqb (gameMode r) "team_vs_team"
                            then opt_string_eqb (team q) (team p) && isActive q
                            else Nat.eqb (id q) (id p))
                        then set_score (score q + calculateGuessReward (roundRemainingTime r)
                                                    (maxPointsPerRound r)) q
                        else q))
               = hasGuessedThisRound q || Nat.eqb (id q) (id p)).
    { intros q. destruct (Nat.eqb (id q) (id p)).
      - rewrite orb_true_r. reflexivity.
      - rewrite orb_false_r.
        destruct (if String.eqb _ _ then _ else _); reflexivity. }
    unfold correctGuess in Hc.
    destruct (eligibleCount _ _ _ <=? guessedCount _); inversion Hc; subst; clear Hc.
    + split; [reflexivity |]. split; [discriminate |].
      cbv zeta. split; [exact Hin |]. split; [exact Hpos |].
      match goal with
      | |- context [endDrawingPhase ?r1 ?d1] =>
          destruct (endDrawingPhase_rows r1 d1) as (Hs & Hfl & Hid)
      end.
      rewrite Hs, Hfl, Hid. clear Hs Hfl Hid.
      cbn [parts set_room set_parts]. rewrite afterGuess_map.
      rewrite countWhere_map, !map_map.
      rewrite findByUserOpt_map
        by (intros q; cbv zeta;
            destruct (Nat.eqb (id q) (id p));
            destruct (if String.eqb _ _ then _ else _); reflexivity).
      cbv zeta.
      rewrite (countWhere_ext _ _ _ Hflag).
      replace (0 <? countWhere (fun q => hasGuessedThisRound q || Nat.eqb (id q) (id p))
                      (parts db)) with true
        by (symmetry; apply Z.ltb_lt; lia).
      cbn [currentDrawerId maxPointsPerRound set_roundRemainingTime].
      split; [| split].
      * apply map_ext. intros q. cbn [andb].
        destruct (findByUserOpt (currentDrawerId r) (parts db)) as [d |];
          cbn [option_map].
        -- replace (id (if Nat.eqb (id d) (id p) then _ else _)) with (id d)
             by (destruct (Nat.eqb (id d) (id p));
                 destruct (if String.eqb _ _ then _ else _); reflexivity).
           replace (id (if Nat.eqb (id q) (id p) then _ else _)) with (id q)
             by (destruct (Nat.eqb (id q) (id p));
                 destruct (if String.eqb _ _ then _ else _); reflexivity).
           f_equal.
           destruct (Nat.eqb (id q) (id p));
             destruct (if String.eqb _ _ then _ else _); cbn; lia.
        -- destruct (Nat.eqb (id q) (id p));
             destruct (if String.eqb _ _ then _ else _); cbn; lia.
      * apply map_ext. exact Hflag.
      * apply map_ext. intros q.
        destruct (Nat.eqb (id q) (id p));
          destruct (if String.eqb _ _ then _ else _); reflexivity.
    + split; [reflexivity |].
      split.
      { intros _. simpl. unfold afterGuess.
        destruct (String.eqb (gameMode r) "team_vs_team"); reflexivity. }
      cbv zeta. split; [exact Hin |]. split; [exact Hpos |].
      cbn [parts set_room set_parts]. rewrite afterGuess_map, !map_map.
      split; [| split].
      * apply map_ext. intros q. cbv zeta. cbn [andb].
        destruct (Nat.eqb (id q) (id p));
          destruct (if String.eqb _ _ then _ else _); cbn; lia.
      * apply map_ext. exact Hflag.
      * apply map_ext. intros q. cbv zeta.
        destruct (Nat.eqb (id q) (id p));
          destruct (if String.eqb _ _ then _ else _); reflexivity.
Qed.

Lemma C7_guess_reward_witness :
  (exists r p,
      room Examples.ffaDrawing = Some r
      /\ guessGate (Some 2%nat) r (parts Examples.ffaDrawing) = inr p
      /\ 9 = calculateGuessReward (roundRemainingTime r) (maxPointsPerRound r)
      /\ parts (fst (submit_guess (Some 2%nat) " Cat " Examples.ffaDrawing)) =
         updateWhere (fun q => Nat.eqb (id q) (id p)) (set_hasGuessedThisRound true)
           (updateWhere
              (fun q => if String.eqb (gameMode r) "team_vs_team"
                        then opt_string_eqb (team q) (team p) && isActive q
                        else Nat.eqb (id q) (id p))
              (fun q => set_score (score q + 9) q) (parts Examples.ffaDrawing)))
  /\ map score (parts Examples.ffaDrawing) = [0; 0; 0]
  /\ map score (parts (fst (submit_guess (Some 2%nat) " Cat " Examples.ffaDrawing)))
     = [0; 9; 0]
  /\ snd (submit_guess (Some 3%nat) "cat"
            (fst (submit_guess (Some 2%nat) " Cat " Examples.ffaDrawing)))
     = GuessCorrect 5 true
  /\ map score
       (parts (fst (submit_guess (Some 3%nat) "cat"
                      (fst (submit_guess (Some 2%nat) " Cat " Examples.ffaDrawing)))))
     = [4; 9; 5].
Proof.
  pose proof (proj2 (proj2 (proj2 C7_guess_reward))) as T.
  destruct (T (Some 2%nat) " Cat " Examples.ffaDrawing
              (fst (submit_guess (Some 2%nat) " Cat " Examples.ffaDrawing)) 9 false
              ltac:(vm_compute; reflexivity))
    as (r & p & Hr & Hg & Hpts & Hparts & _ & _ & Hscore & _).
  split.
  { exists r, p.
    split; [exact Hr |].
    split; [exact Hg |].
    split; [exact Hpts |].
    exact (Hparts eq_refl). }
  split; [reflexivity |].
  split.
  { rewrite Hscore. injection Hr as <-. vm_compute in Hg. injection Hg as <-.
    vm_compute. reflexivity. }
  split; [vm_compute; reflexivity |].
  destruct (T (Some 3%nat) "cat"
              (fst (submit_guess (Some 2%nat) " Cat " Examples.ffaDrawing))
              (fst (submit_guess (Some 3%nat) "cat"
                      (fst (submit_guess (Some 2%nat) " Cat " Examples.ffaDrawing))))
              5 true ltac:(vm_compute; reflexivity))
    as (r2 & p2 & Hr2 & Hg2 & _ & _ & _ & _ & Hscore2 & _).
  rewrite Hscore2. vm_compute in Hr2. injection Hr2 as <-.
  vm_compute in Hg2. injection Hg2 as <-.
  vm_compute. reflexivity.
Defined.

(* ===================================================================== *)
(** ** C6: time compression on a correct guess *)
(* ===================================================================== *)

(** C6, as stated, fails in team mode: the divisor is not the team-scoped
    count of eligible guessers.  With 70 seconds left, a blue drawer, two
    other blue players and two orange players, the blue player 3 guesses the
    word: two guessers are eligible, yet 53 seconds remain, not 35. *)
Lemma C6_counterexample_team_divisor :
  exists r p db' pts ended r',
    room Examples.teamDrawing = Some r
    /\ guessGate (Some 3%nat) r (parts Examples.teamDrawing) = inr p
    /\ submit_guess (Some 3%nat) "cat" Examples.teamDrawing = (db', GuessCorrect pts ended)
    /\ room db' = Some r'
    /\ roundRemainingTime r = 70
    /\ eligibleCount r p (parts Examples.teamDrawing) = 2
    /\ roundRemainingTime r' = 53
    /\ roundRemainingTime r' <>
       Z.max 0 (roundRemainingTime r
                - Js.floor_div (roundRemainingTime r)
                    (eligibleCount r p (parts Examples.teamDrawing))).
Proof.
  do 6 eexists.
  split; [reflexivity |].
  split; [vm_compute; reflexivity |].
  split; [vm_compute; reflexivity |].
  split; [reflexivity |].
  repeat split; vm_compute; congruence.
Qed.

(** C6, amended.  On every correct guess the room's remaining time becomes
    [max(0, remaining - floor(remaining / activePlayers))] (the quotient is
    rounded down), where [remaining]
    is the remaining time read at the start of the handler and
    [activePlayers] is the number of active participants of the room that
    are not the drawer, in both game modes (it is not restricted to the
    drawer's team); nothing changes when that number is zero.  With 70
    seconds and 2 such players, 35 seconds remain. *)
Theorem C6_time_compression :
  (forall a b, 0 < b -> b * Js.floor_div a b <= a < b * (Js.floor_div a b + 1))
  /\ (forall u guess db db' pts ended,
      submit_guess u guess db = (db', GuessCorrect pts ended) ->
      exists r r',
        room db = Some r /\ room db' = Some r'
        /\ roundRemainingTime r' =
           let activePlayers := countWhere activeNonDrawer (parts db) in
           if 0 <? activePlayers
           then Z.max 0 (roundRemainingTime r
                         - Js.floor_div (roundRemainingTime r) activePlayers)
           else roundRemainingTime r)
  /\ Z.max 0 (70 - calculateTimeReduction 70 2) = 35.
Proof.
  split; [exact floor_div_bounds |].
  split; [| reflexivity].
  intros u guess db db' pts ended H.
  destruct (submit_guess_correct _ _ _ _ _ _ H) as (r & p & Hr & Hg & Hc).
  destruct (correctGuess_spec r p db) as (_ & r' & Hr' & Hrem & _).
  rewrite Hc in Hr'. simpl in Hr'.
  exists r, r'. split; [assumption | split; [assumption |]].
  rewrite Hrem. unfold compressedTime.
  rewrite afterGuess_activeNonDrawer. reflexivity.
Qed.

Lemma C6_time_compression_witness :
  (2 * Js.floor_div 71 2 <= 71 < 2 * (Js.floor_div 71 2 + 1))
  /\ exists r r',
       room Examples.ffaDrawing = Some r
       /\ room (fst (submit_guess (Some 2%nat) "cat" Examples.ffaDrawing)) = Some r'
       /\ roundRemainingTime r' =
          let activePlayers := countWhere activeNonDrawer (parts Examples.ffaDrawing) in
          if 0 <? activePlayers
          then Z.max 0 (roundRemainingTime r
                        - Js.floor_div (roundRemainingTime r) activePlayers)
          else roundRemainingTime r.
Proof.
  split.
  - exact (proj1 C6_time_compression 71 2 eq_refl).
  - exact (proj1 (proj2 C6_time_compression) (Some 2%nat) "cat" Examples.ffaDrawing
             (fst (submit_guess (Some 2%nat) "cat" Examples.ffaDrawing)) 9 false
             ltac:(vm_compute; reflexivity)).
Defined.

(* ===================================================================== *)
(** ** C5: early end of the drawing phase and the team gate *)
(* ===================================================================== *)

(** C5, as stated, fails: the count that is compared with [eligibleCount]
    is not the number of participants with [hasGuessedThisRound = true].
    Of the three guessers, user 2 guessed the word and then left; when user 3
    guesses, two participants have guessed and two are eligible, but the
    drawing phase goes on. *)
Lemma C5_counterexample_inactive_guesser :
  exists r p db' pts r',
    room Examples.guesserLeft = Some r
    /\ guessGate (Some 3%nat) r (parts Examples.guesserLeft) = inr p
    /\ submit_guess (Some 3%nat) "cat" Examples.guesserLeft
       = (db', GuessCorrect pts false)
    /\ room db' = Some r'
    /\ roundPhase r' = Some drawing
    /\ eligibleCount r p (parts db') = 2
    /\ countWhere hasGuessedThisRound (parts db') = 2.
Proof.
  do 5 eexists.
  split; [vm_compute; reflexivity |].
  split; [vm_compute; reflexivity |].
  split; [vm_compute; reflexivity |].
  split; [reflexivity |].
  split; [reflexivity |].
  split; vm_compute; reflexivity.
Qed.

(** C5, amended.  A correct guess ends the drawing phase (the room goes to
    [reveal]) exactly when, after the guesser was flagged, the number of
    ACTIVE participants with [hasGuessedThisRound = true] is at least
    [eligibleCount]; [eligibleCount] counts the active participants that are
    not the drawer and, in [team_vs_team], only those of the guesser's team,
    which is the drawer's team.  In [team_vs_team] a guess from a participant
    whose team differs from the drawer's (or when the drawer's row is
    missing) is answered [wrong_team]; every rejected guess, and every
    incorrect one, leaves the store unchanged, so such a guess sets no flag
    and earns no reward. *)
Theorem C5_early_end_and_team_gate :
  (forall u guess db db' pts ended,
      submit_guess u guess db = (db', GuessCorrect pts ended) ->
      exists r p r',
        room db = Some r
        /\ guessGate u r (parts db) = inr p
        /\ ended = (eligibleCount r p (afterGuess r p db)
                    <=? countWhere (fun q => isActive q && hasGuessedThisRound q)
                          (afterGuess r p db))
        /\ room db' = Some r'
        /\ roundPhase r' = (if ended then Some reveal else Some drawing)
        /\ (gameMode r = "team_vs_team" ->
            exists drawer,
              findByUserOpt (currentDrawerId r) (parts db) = Some drawer
              /\ team p = team drawer
              /\ eligibleCount r p (afterGuess r p db) =
                 countWhere (fun q => isActive q && negb (isDrawer q)
                                      && opt_string_eqb (team q) (team drawer))
                   (afterGuess r p db))
        /\ (gameMode r <> "team_vs_team" ->
            eligibleCount r p (afterGuess r p db) =
            countWhere (fun q => isActive q && negb (isDrawer q)) (afterGuess r p db)))
  /\ (forall n guess db r w p,
        room db = Some r ->
        gameMode r = "team_vs_team" ->
        roundPhase r = Some drawing ->
        currentWord r = Some w -> w <> "" ->
        findByUser n (parts db) = Some p ->
        isDrawer p = false ->
        hasGuessedThisRound p = false ->
        (forall drawer, findByUserOpt (currentDrawerId r) (parts db) = Some drawer ->
                        team p <> team drawer) ->
        submit_guess (Some n) guess db = (db, GuessRejected "wrong_team"))
  /\ (forall u guess db db' message,
        submit_guess u guess db = (db', GuessRejected message) -> db' = db)
  /\ (forall u guess db db',
        submit_guess u guess db = (db', GuessIncorrect) -> db' = db).
Proof.
  split; [| split; [| split]].
  - intros u guess db db' pts ended H.
    destruct (submit_guess_correct _ _ _ _ _ _ H) as (r & p & Hr & Hg & Hc).
    destruct (correctGuess_spec r p db) as (Hres & r' & Hr' & _ & Hph).
    rewrite Hc in Hres, Hr'. simpl in Hres, Hr'.
    destruct (guessGate_accepts _ _ _ _ Hg) as (Hdraw & _ & _ & _ & Hteam).
    assert (Hphase : roundPhase r = Some drawing).
    { unfold phase_is in Hdraw. destruct (roundPhase r) as [[]|]; simpl in Hdraw;
        try discriminate; reflexivity. }
    inversion Hres as [[Hpts Hended]].
    exists r, p, r'. split; [assumption | split; [assumption |]].
    split; [reflexivity |].
    split; [assumption |].
    split.
    { rewrite Hph. fold (guessedCount (afterGuess r p db)).
      destruct (_ <=? _); [reflexivity | assumption]. }
    split.
    + intros Hm. rewrite Hm in Hteam.
      destruct (Hteam eq_refl) as (d & Hd & Ht).
      apply opt_string_eqb_eq in Ht.
      exists d. split; [assumption | split; [assumption |]].
      unfold eligibleCount. rewrite Hm. simpl. rewrite Ht. reflexivity.
    + intros Hm. unfold eligibleCount.
      destruct (String.eqb (gameMode r) "team_vs_team") eqn:He; [| reflexivity].
      apply String.eqb_eq in He. contradiction.
  - intros n guess db r w p Hr Hm Hph Hw Hne Hp Hd Hg Hteam.
    unfold submit_guess. rewrite Hr.
    assert (Hgate : guessGate (Some n) r (parts db) = inl "wrong_team").
    { unfold guessGate. rewrite Hph. simpl. rewrite Hw.
      destruct (String.eqb w "") eqn:Hwe; [apply String.eqb_eq in Hwe; contradiction |].
      rewrite Hp, Hd, Hg, Hm. simpl.
      destruct (findByUserOpt (currentDrawerId r) (parts db)) as [d |] eqn:Hdr;
        [| reflexivity].
      destruct (opt_string_eqb (team p) (team d)) eqn:Ht; [| reflexivity].
      apply opt_string_eqb_eq in Ht. exfalso. exact (Hteam d eq_refl Ht). }
    rewrite Hgate. reflexivity.
  - intros u guess db db' message H. unfold submit_guess in H.
    destruct (room db) as [r |]; [| inversion H; reflexivity].
    destruct (guessGate u r (parts db)) as [m | p]; [inversion H; reflexivity |].
    destruct (currentWord r) as [w |]; [| inversion H; reflexivity].
    destruct (String.eqb _ _); [| discriminate].
    unfold correctGuess in H. destruct (_ <=? _); discriminate.
  - intros u guess db db' H. unfold submit_guess in H.
    destruct (room db) as [r |]; [| discriminate].
    destruct (guessGate u r (parts db)) as [m | p]; [discriminate |].
    destruct (currentWord r) as [w |]; [| discriminate].
    destruct (String.eqb _ _); [| inversion H; reflexivity].
    unfold correctGuess in H. destruct (_ <=? _); discriminate.
Qed.

Lemma C5_early_end_and_team_gate_witness :
  (exists r p r' drawer,
      room Examples.teamDrawing = Some r
      /\ guessGate (Some 3%nat) r (parts Examples.teamDrawing) = inr p
      /\ false = (eligibleCount r p (afterGuess r p Examples.teamDrawing)
                  <=? countWhere (fun q => isActive q && hasGuessedThisRound q)
                        (afterGuess r p Examples.teamDrawing))
      /\ room (fst (submit_guess (Some 3%nat) "cat" Examples.teamDrawing)) = Some r'
      /\ roundPhase r' = Some drawing
      /\ findByUserOpt (currentDrawerId r) (parts Examples.teamDrawing) = Some drawer
      /\ team p = team drawer
      /\ eligibleCount r p (afterGuess r p Examples.teamDrawing) =
         countWhere (fun q => isActive q && negb (isDrawer q)
                              && opt_string_eqb (team q) (team drawer))
           (afterGuess r p Examples.teamDrawing))
  /\ submit_guess (Some 2%nat) "cat" Examples.teamDrawing
     = (Examples.teamDrawing, GuessRejected "wrong_team")
  /\ fst (submit_guess (Some 2%nat) "cat" Examples.teamDrawing) = Examples.teamDrawing
  /\ fst (submit_guess (Some 3%nat) "dog" Examples.teamDrawing) = Examples.teamDrawing.
Proof.
  split; [| split; [| split]].
  - destruct (proj1 C5_early_end_and_team_gate (Some 3%nat) "cat" Examples.teamDrawing
                (fst (submit_guess (Some 3%nat) "cat" Examples.teamDrawing)) 9 false
                ltac:(vm_compute; reflexivity))
      as (r & p & r' & Hr & Hg & Hended & Hr' & Hph & Hteam & _).
    assert (Hmode : gameMode r = "team_vs_team").
    { vm_compute in Hr. inversion Hr. reflexivity. }
    destruct (Hteam Hmode) as (drawer & Hd & Ht & He).
    exists r, p, r', drawer.
    repeat (split; [assumption |]). assumption.
  - refine (proj1 (proj2 C5_early_end_and_team_gate) 2%nat "cat" Examples.teamDrawing
              (Examples.drawingRoom "team_vs_team") "cat"
              (Examples.player 2 (Some "orange"))
              eq_refl eq_refl eq_refl eq_refl _ eq_refl eq_refl eq_refl _).
    + discriminate.
    + intros drawer Hd. vm_compute in Hd. inversion Hd; subst drawer.
      vm_compute. discriminate.
  - exact (proj1 (proj2 (proj2 C5_early_end_and_team_gate)) (Some 2%nat) "cat"
             Examples.teamDrawing
             (fst (submit_guess (Some 2%nat) "cat" Examples.teamDrawing)) "wrong_team"
             ltac:(vm_compute; reflexivity)).
  - exact (proj2 (proj2 (proj2 C5_early_end_and_team_gate)) (Some 3%nat) "dog"
             Examples.teamDrawing
             (fst (submit_guess (Some 3%nat) "dog" Examples.teamDrawing))
             ltac:(vm_compute; reflexivity)).
Defined.

(* ===================================================================== *)
(** ** C9: ranking and payout at game end *)
(* ===================================================================== *)

Section Payout.

Lemma insertByScore_perm p l : Permutation (insertByScore p l) (p :: l).
Proof.
  induction l as [| q l IH]; simpl; [apply Permutation_refl |].
  destruct (score p <? score q).
  - eapply Permutation_trans; [apply perm_skip, IH | apply perm_swap].
  - apply Permutation_refl.
Qed.

Lemma sortByScoreDesc_perm l : Permutation (sortByScoreDesc l) l.
Proof.
  induction l as [| p l IH]; simpl; [constructor |].
  eapply Permutation_trans; [apply insertByScore_perm | apply perm_skip, IH].
Qed.

Lemma insertByScore_sorted p l :
  StronglySorted byScoreDesc l -> StronglySorted byScoreDesc (insertByScore p l).
Proof.
  induction 1 as [| q l Hs IH Hq]; simpl.
  - constructor; constructor.
  - destruct (score p <? score q) eqn:Hlt.
    + apply Z.ltb_lt in Hlt. constructor; [exact IH |].
      eapply Permutation_Forall; [apply Permutation_sym, insertByScore_perm |].
      constructor; [unfold byScoreDesc; lia | exact Hq].
    + apply Z.ltb_ge in Hlt. constructor; [constructor; assumption |].
      constructor; [exact Hlt |].
      eapply Forall_impl; [| exact Hq]. unfold byScoreDesc. intros a Ha. lia.
Qed.

Lemma sortByScoreDesc_sorted l : StronglySorted byScoreDesc (sortByScoreDesc l).
Proof.
  induction l as [| p l IH]; simpl; [constructor | apply insertByScore_sorted, IH].
Qed.

Lemma findUser_creditUser u v d us :
  findUser u (creditUser v d us) =
  match findUser u us with
  | Some x => Some (if Nat.eqb (uid x) v then set_coins (coins x + d) x else x)
  | None => None
  end.
Proof.
  unfold findUser, creditUser.
  induction us as [| x us IH]; simpl; [reflexivity |].
  assert (Huid : uid (if Nat.eqb (uid x) v then set_coins (coins x + d) x else x) = uid x)
    by (destruct (Nat.eqb (uid x) v); reflexivity).
  rewrite Huid. destruct (Nat.eqb (uid x) u); [reflexivity | exact IH].
Qed.

Lemma findUser_uid u us x : findUser u us = Some x -> uid x = u.
Proof.
  unfold findUser. intros H. apply find_some in H. destruct H as [_ H].
  apply Nat.eqb_eq in H. exact H.
Qed.

Lemma coinsOf_credit_same u d us :
  findUser u us <> None -> coinsOf u (creditUser u d us) = coinsOf u us + d.
Proof.
  unfold coinsOf. rewrite findUser_creditUser.
  destruct (findUser u us) as [x |] eqn:Hx; [| congruence].
  intros _. rewrite (findUser_uid _ _ _ Hx), Nat.eqb_refl. reflexivity.
Qed.

Lemma coinsOf_credit_other u v d us :
  u <> v -> coinsOf u (creditUser v d us) = coinsOf u us.
Proof.
  unfold coinsOf. rewrite findUser_creditUser. intros Hne.
  destruct (findUser u us) as [x |] eqn:Hx; [| reflexivity].
  rewrite (findUser_uid _ _ _ Hx).
  destruct (Nat.eqb u v) eqn:He; [apply Nat.eqb_eq in He; contradiction | reflexivity].
Qed.

Lemma findUser_credit_some u v d us :
  findUser u us <> None -> findUser u (creditUser v d us) <> None.
Proof.
  rewrite findUser_creditUser. destruct (findUser u us); congruence.
Qed.

End Payout.

Section PayTop.

Variable entryCost : Z.

Lemma payTop_all_users rs : forall ps us lg acc,
  (forall p, In p ps -> findUser (userId p) us <> None) ->
  payTop entryCost rs ps us lg acc =
  (fold_left (creditOf entryCost) (combine ps rs) us,
   lg ++ map (txOf entryCost) (combine ps rs),
   acc ++ map (rankingOf entryCost) (combine ps rs)).
Proof.
  induction rs as [| [pl mult] rs IH]; intros ps us lg acc Hex.
  - destruct ps; simpl; rewrite !app_nil_r; reflexivity.
  - destruct ps as [| p ps]; simpl; [rewrite !app_nil_r; reflexivity |].
    destruct (findUser (userId p) us) as [x |] eqn:Hx.
    + rewrite IH.
      * rewrite <- !app_assoc. reflexivity.
      * intros q Hq. apply findUser_credit_some. apply Hex. right. exact Hq.
    + exfalso. apply (Hex p); [left; reflexivity | exact Hx].
Qed.

Lemma coinsOf_fold_other u l : forall us,
  ~ In u (map (fun x => userId (fst x)) l) ->
  coinsOf u (fold_left (creditOf entryCost) l us) = coinsOf u us.
Proof.
  induction l as [| x l IH]; intros us Hn; simpl; [reflexivity |].
  rewrite IH.
  - unfold creditOf. apply coinsOf_credit_other. intros He. apply Hn. left. auto.
  - intros Hin. apply Hn. right. exact Hin.
Qed.

Lemma in_combine_userId (u : nat) ps : forall (rs : list (nat * Z)),
  In u (map (fun x => userId (fst x)) (combine ps rs)) -> In u (map userId ps).
Proof.
  induction ps as [| a ps IH]; intros rs Hin; [destruct Hin |].
  destruct rs as [| b rs]; [destruct Hin |].
  simpl in Hin. destruct Hin as [Ha | Hin]; [left; exact Ha | right; eauto].
Qed.

Lemma coinsOf_fold_at ps : forall rs us i p,
  NoDup (map userId ps) ->
  (forall q, In q ps -> findUser (userId q) us <> None) ->
  nth_error ps i = Some p ->
  coinsOf (userId p) (fold_left (creditOf entryCost) (combine ps rs) us) =
  coinsOf (userId p) us
  + match nth_error rs i with
    | Some (_, multiplier) => entryCost * multiplier
    | None => 0
    end.
Proof.
  induction ps as [| q ps IH]; intros rs us i p Hnd Hex Hi.
  - destruct i; discriminate.
  - inversion Hnd as [| ? ? Hq Hnd']; subst.
    destruct rs as [| [pl mult] rs].
    + simpl. destruct i; simpl; lia.
    + simpl. destruct i as [| i]; simpl in Hi.
      * inversion Hi; subst q. simpl.
        rewrite coinsOf_fold_other.
        -- unfold creditOf. simpl. apply coinsOf_credit_same. apply Hex. left. reflexivity.
        -- intros Hin. apply Hq. eapply in_combine_userId; exact Hin.
      * simpl. rewrite (IH rs _ i p Hnd').
        -- f_equal. unfold creditOf. simpl. apply coinsOf_credit_other.
           intros He. apply Hq. rewrite <- He. apply in_map.
           eapply nth_error_In; exact Hi.
        -- intros a Ha. apply findUser_credit_some. apply Hex. right. exact Ha.
        -- exact Hi.
Qed.

Lemma restRankings_coins l : forall k,
  map coinsAwarded (restRankings k l) = map (fun _ => 0) l.
Proof. induction l; intros k; simpl; [reflexivity | f_equal; auto]. Qed.

Lemma restRankings_places l : forall k,
  map place (restRankings k l) = seq (k + 1) (List.length l).
Proof.
  induction l as [| p l IH]; intros k; simpl; [reflexivity |].
  f_equal. rewrite IH. reflexivity.
Qed.

Lemma restRankings_users l : forall k,
  map rankUser (restRankings k l) = map userId l.
Proof. induction l; intros k; simpl; [reflexivity | f_equal; auto]. Qed.

End PayTop.

Section Prizes.

Lemma prizeAt_beyond e i : (3 <= i)%nat -> prizeAt e i = 0.
Proof.
  intros Hi. unfold prizeAt.
  destruct (nth_error rewards i) as [[pl m] |] eqn:Hn; [| reflexivity].
  assert (i < List.length rewards)%nat by (apply nth_error_Some; congruence).
  simpl in H. lia.
Qed.

Lemma map_const_repeat {A} (c : Z) (l : list A) :
  map (fun _ => c) l = repeat c (List.length l).
Proof. induction l; simpl; [reflexivity | f_equal; assumption]. Qed.

Lemma prizes_beyond e m : forall k, (3 <= k)%nat ->
  map (prizeAt e) (seq k m) = repeat 0 m.
Proof.
  induction m as [| m IH]; intros k Hk; simpl; [reflexivity |].
  rewrite prizeAt_beyond by assumption. f_equal. apply IH. lia.
Qed.

Lemma endGame_unfold r participants db :
  (forall p, In p participants -> findUser (userId p) (users db) <> None) ->
  let ranked := sortByScoreDesc participants in
  endGame r participants db =
  (mkDb (Some (set_status finished r)) (parts db)
     (fold_left (creditOf (entryPoints r)) (combine ranked rewards) (users db))
     (ledger db ++ map (txOf (entryPoints r)) (combine ranked rewards)),
   map (rankingOf (entryPoints r)) (combine ranked rewards)
   ++ restRankings 3 (skipn 3 ranked)).
Proof.
  intros Hex ranked. unfold endGame. fold ranked.
  assert (Hex' : forall p, In p ranked -> findUser (userId p) (users db) <> None).
  { intros p Hp. apply Hex.
    eapply Permutation_in; [apply sortByScoreDesc_perm | exact Hp]. }
  change (entryPoints (set_status finished r)) with (entryPoints r).
  unfold calculateEntryCost.
  rewrite (payTop_all_users (entryPoints r) rewards ranked (users db) (ledger db) [] Hex').
  reflexivity.
Qed.

End Prizes.

(** C9.  At game end the participants handed to [endGame] are ranked by
    descending score; the participant at rank 1, 2, 3 is paid the entry cost
    times 3, 2, 1 and every other one nothing, the entry cost being the
    room's [entryPoints]; each payment is added to the user's coins and
    recorded in the ledger under the reason [game_reward_place_<rank>]; and
    the room row is saved with status [finished].  With [entryPoints = 250]
    and four participants the prizes are 750, 500, 250 and 0.  (Every
    participant is assumed to have a user row; user ids are distinct where
    the coins of a single user are followed.)

    The status read from the saved row is [finished], and the ledger grows
    by one entry for each of the first three ranks, in rank order: the
    ranked user, the entry cost times 3, 2, 1, and the reason
    ["game_reward_place_1"], ["game_reward_place_2"],
    ["game_reward_place_3"].  In the example the three entries are
    (user 2, 750), (user 4, 500) and (user 3, 250) under these reasons. *)
Theorem C9_endGame_payout :
  forall r participants db,
    (forall p, In p participants -> findUser (userId p) (users db) <> None) ->
    let ranked := sortByScoreDesc participants in
    let e := entryPoints r in
    let db' := fst (endGame r participants db) in
    let rankings := snd (endGame r participants db) in
    Permutation ranked participants
    /\ StronglySorted byScoreDesc ranked
    /\ (forall voice, calculateEntryCost e voice = e)
    /\ (prizeAt e 0 = e * 3 /\ prizeAt e 1 = e * 2 /\ prizeAt e 2 = e * 1
        /\ forall i, (3 <= i)%nat -> prizeAt e i = 0)
    /\ room db' = Some (set_status finished r)
    /\ map rankUser rankings = map userId ranked
    /\ map place rankings = seq 1 (List.length participants)
    /\ map coinsAwarded rankings = map (prizeAt e) (seq 0 (List.length participants))
    /\ ledger db' =
       ledger db ++
       map (fun x => mkTx (userId (fst x)) (e * snd (snd x)) (rewardReason (fst (snd x))))
         (combine ranked [(1%nat, 3); (2%nat, 2); (3%nat, 1)])
    /\ option_map status (room db') = Some finished
    /\ ledger db' =
       ledger db ++
       map (fun x => mkTx (userId (fst x)) (e * fst (snd x)) (snd (snd x)))
         (combine ranked [(3, "game_reward_place_1"); (2, "game_reward_place_2");
                          (1, "game_reward_place_3")])
    /\ map (fun t => (txUser t, amount t, reason t))
         (skipn (List.length (ledger db)) (ledger db'))
       = map (fun x => (userId (fst x), e * fst (snd x), snd (snd x)))
           (combine ranked [(3, "game_reward_place_1"); (2, "game_reward_place_2");
                            (1, "game_reward_place_3")])
    /\ (NoDup (map userId participants) ->
        forall i p, nth_error ranked i = Some p ->
                    coinsOf (userId p) (users db')
                    = coinsOf (userId p) (users db) + prizeAt e i)
    /\ map coinsAwarded (snd (endGame (set_status playing (Examples.baseRoom "1v1"))
                                Examples.finalScores Examples.finalDb))
       = [750; 500; 250; 0]
    /\ option_map status
         (room (fst (endGame (set_status playing (Examples.baseRoom "1v1"))
                       Examples.finalScores Examples.finalDb)))
       = Some finished
    /\ map (fun t => (txUser t, amount t, reason t))
         (ledger (fst (endGame (set_status playing (Examples.baseRoom "1v1"))
                         Examples.finalScores Examples.finalDb)))
       = [(2%nat, 750, "game_reward_place_1"); (4%nat, 500, "game_reward_place_2");
          (3%nat, 250, "game_reward_place_3")].
Proof.
  intros r participants db Hex ranked e db' rankings.
  pose proof (endGame_unfold r participants db Hex) as Hun. cbv zeta in Hun.
  fold ranked in Hun. fold e in Hun.
  assert (Hperm : Permutation ranked participants) by apply sortByScoreDesc_perm.
  assert (Hlen : List.length ranked = List.length participants)
    by (apply Permutation_length; exact Hperm).
  subst db' rankings. rewrite Hun. simpl fst. simpl snd.
  split; [exact Hperm |].
  split; [apply sortByScoreDesc_sorted |].
  split; [reflexivity |].
  split; [repeat split; try reflexivity; apply prizeAt_beyond |].
  split; [reflexivity |].
  split.
  { rewrite map_app, restRankings_users.
    rewrite <- (firstn_skipn 3 ranked) at 3. rewrite map_app. f_equal.
    destruct ranked as [| p1 [| p2 [| p3 [| p4 rest]]]]; reflexivity. }
  split.
  { rewrite map_app, restRankings_places. rewrite <- Hlen.
    destruct ranked as [| p1 [| p2 [| p3 [| p4 rest]]]]; reflexivity. }
  split.
  { rewrite map_app, restRankings_coins, map_const_repeat. rewrite <- Hlen.
    destruct ranked as [| p1 [| p2 [| p3 [| p4 rest]]]]; try reflexivity.
    simpl. rewrite prizes_beyond by lia.
    unfold prizeAt. simpl. reflexivity. }
  split; [reflexivity |].
  split; [reflexivity |].
  assert (Hledger :
            map (txOf e) (combine ranked rewards)
            = map (fun x => mkTx (userId (fst x)) (e * fst (snd x)) (snd (snd x)))
                (combine ranked [(3, "game_reward_place_1"); (2, "game_reward_place_2");
                                 (1, "game_reward_place_3")])).
  { destruct ranked as [| p1 [| p2 [| p3 [| p4 rest]]]]; reflexivity. }
  split; [cbn [ledger]; fold e; rewrite Hledger; reflexivity |].
  split.
  { cbn [ledger]. fold e. rewrite Hledger.
    rewrite skipn_app, skipn_all, Nat.sub_diag. cbn [skipn app].
    rewrite map_map. reflexivity. }
  split; [| split; [vm_compute; reflexivity | split; vm_compute; reflexivity]].
  intros Hnd i p Hi. simpl users.
  unfold prizeAt. apply coinsOf_fold_at.
  - eapply Permutation_NoDup; [| exact Hnd].
    apply Permutation_map, Permutation_sym, Hperm.
  - intros q Hq. apply Hex. eapply Permutation_in; [exact Hperm | exact Hq].
  - exact Hi.
Qed.

Lemma C9_endGame_payout_witness :
  (forall p, In p Examples.finalScores ->
             findUser (userId p) (users Examples.finalDb) <> None)
  /\ room (fst (endGame (set_status playing (Examples.baseRoom "1v1"))
                  Examples.finalScores Examples.finalDb))
     = Some (set_status finished (set_status playing (Examples.baseRoom "1v1")))
  /\ coinsOf 2 (users (fst (endGame (set_status playing (Examples.baseRoom "1v1"))
                              Examples.finalScores Examples.finalDb)))
     = coinsOf 2 (users Examples.finalDb) + prizeAt 250 0
  /\ option_map status
       (room (fst (endGame (set_status playing (Examples.baseRoom "1v1"))
                     Examples.finalScores Examples.finalDb)))
     = Some finished
  /\ ledger (fst (endGame (set_status playing (Examples.baseRoom "1v1"))
                    Examples.finalScores Examples.finalDb))
     = [mkTx 2 750 "game_reward_place_1"; mkTx 4 500 "game_reward_place_2";
        mkTx 3 250 "game_reward_place_3"]
  /\ map reason
       (ledger (fst (endGame (set_status playing (Examples.baseRoom "1v1"))
                       Examples.finalScores Examples.finalDb)))
     = ["game_reward_place_1"; "game_reward_place_2"; "game_reward_place_3"].
Proof.
  assert (H : forall p, In p Examples.finalScores ->
                        findUser (userId p) (users Examples.finalDb) <> None).
  { intros p Hp. simpl in Hp.
    repeat (destruct Hp as [Hp | Hp]; [subst p; discriminate |]). destruct Hp. }
  assert (Hnd : NoDup (map userId Examples.finalScores)).
  { repeat (apply NoDup_cons; [simpl; intuition discriminate |]). apply NoDup_nil. }
  pose proof (C9_endGame_payout (set_status playing (Examples.baseRoom "1v1"))
                Examples.finalScores Examples.finalDb H) as T.
  cbv zeta in T.
  destruct T as (_ & _ & _ & _ & Hroom & _ & _ & _ & _ & Hstatus & Hledger & _ & Hcoins & _).
  split; [exact H |].
  split; [exact Hroom |].
  split; [exact (Hcoins Hnd 0%nat (set_score 120 (Examples.player 2 None)) eq_refl) |].
  split; [exact Hstatus |].
  split; [rewrite Hledger; vm_compute; reflexivity |].
  rewrite Hledger. vm_compute. reflexivity.
Defined.

(* ===================================================================== *)
(** ** C4: flat rotation *)
(* ===================================================================== *)

Section SortByUserId.

Import Rotation.

Lemma insertByUserId_perm p l : Permutation (insertByUserId p l) (p :: l).
Proof.
  induction l as [| q l IH]; simpl; [apply Permutation_refl |].
  destruct (userId q <? userId p)%nat.
  - eapply Permutation_trans; [apply perm_skip, IH | apply perm_swap].
  - apply Permutation_refl.
Qed.

Lemma sortByUserId_perm l : Permutation (sortByUserId l) l.
Proof.
  induction l as [| p l IH]; simpl; [constructor |].
  eapply Permutation_trans; [apply insertByUserId_perm | apply perm_skip, IH].
Qed.

Lemma insertByUserId_sorted p l :
  StronglySorted byUserIdAsc l -> StronglySorted byUserIdAsc (insertByUserId p l).
Proof.
  induction 1 as [| q l Hs IH Hq]; simpl.
  - constructor; constructor.
  - destruct (userId q <? userId p)%nat eqn:Hlt.
    + apply Nat.ltb_lt in Hlt. constructor; [exact IH |].
      eapply Permutation_Forall; [apply Permutation_sym, insertByUserId_perm |].
      constructor; [unfold byUserIdAsc; lia | exact Hq].
    + apply Nat.ltb_ge in Hlt. constructor; [constructor; assumption |].
      constructor; [exact Hlt |].
      eapply Forall_impl; [| exact Hq]. unfold byUserIdAsc. intros a Ha. lia.
Qed.

Lemma sortByUserId_sorted l : StronglySorted byUserIdAsc (sortByUserId l).
Proof.
  induction l as [| p l IH]; simpl; [constructor | apply insertByUserId_sorted, IH].
Qed.

Variable g : RoomParticipant -> RoomParticipant.
Hypothesis g_userId : forall p, userId (g p) = userId p.
Hypothesis g_isActive : forall p, isActive (g p) = isActive p.

Lemma insertByUserId_map p l :
  insertByUserId (g p) (map g l) = map g (insertByUserId p l).
Proof.
  induction l as [| q l IH]; simpl; [reflexivity |].
  rewrite !g_userId. destruct (userId q <? userId p)%nat; simpl; [rewrite IH |]; reflexivity.
Qed.

Lemma sortByUserId_map l : sortByUserId (map g l) = map g (sortByUserId l).
Proof.
  induction l as [| p l IH]; simpl; [reflexivity |].
  rewrite IH. apply insertByUserId_map.
Qed.

Lemma activeParticipants_map l :
  activeParticipants (map g l) = map g (activeParticipants l).
Proof.
  unfold activeParticipants.
  induction l as [| p l IH]; simpl; [reflexivity |].
  rewrite g_isActive. destruct (isActive p); simpl; rewrite IH; reflexivity.
Qed.

End SortByUserId.

Section Rotating.

Lemma nth_prefix (l : list nat) : forall m, (m <= List.length l)%nat ->
  map (fun j => nth j l 0%nat) (seq 0 m) = firstn m l.
Proof.
  induction l as [| x l IH]; intros m Hm.
  - simpl in Hm. assert (m = 0%nat) by lia. subst. reflexivity.
  - destruct m as [| m]; [reflexivity |].
    simpl in Hm. cbn [seq map firstn nth]. f_equal.
    rewrite <- seq_shift, map_map. simpl. apply IH. lia.
Qed.

Lemma nth_suffix a : forall (l : list nat),
  map (fun k => nth (a + k) l 0%nat) (seq 0 (List.length l - a)) = skipn a l.
Proof.
  induction a as [| a IH]; intros l.
  - rewrite Nat.sub_0_r. simpl. rewrite nth_prefix by lia. apply firstn_all.
  - destruct l as [| x l]; [reflexivity |]. simpl. apply IH.
Qed.

Lemma map_seq_offset {A} (f : nat -> A) m : forall a,
  map f (seq a m) = map (fun j => f (a + j)%nat) (seq 0 m).
Proof.
  induction m as [| m IH]; intros a; [reflexivity |].
  cbn [seq map]. rewrite Nat.add_0_r. f_equal.
  rewrite IH. rewrite <- (seq_shift m 0), map_map.
  apply map_ext. intros j. f_equal. lia.
Qed.

Lemma rotation_is_rotation (U : list nat) (p : nat) :
  U <> [] ->
  let n := List.length U in
  map (fun k => nth ((p + k) mod n) U 0%nat) (seq 0 n)
  = skipn (p mod n) U ++ firstn (p mod n) U.
Proof.
  intros HU n.
  assert (Hn : n <> 0%nat) by (subst n; destruct U; simpl; congruence).
  set (q := (p mod n)%nat).
  assert (Hq : (q < n)%nat) by (apply Nat.mod_upper_bound; exact Hn).
  assert (Hsplit : seq 0 n = seq 0 (n - q) ++ seq (0 + (n - q)) q)
    by (rewrite <- seq_app; f_equal; lia).
  rewrite Hsplit, map_app. f_equal.
  - rewrite <- (nth_suffix q U). apply map_ext_in. intros k Hk.
    apply in_seq in Hk. f_equal.
    rewrite <- Nat.Div0.add_mod_idemp_l. fold q. apply Nat.mod_small. fold n in Hk. lia.
  - rewrite <- (nth_prefix U q) by (fold n; lia).
    rewrite map_seq_offset. apply map_ext_in. intros j Hj.
    apply in_seq in Hj. f_equal.
    pose proof (Nat.div_mod_eq p n) as Hdm. fold q in Hdm.
    replace (p + (0 + (n - q) + j))%nat with (j + (p / n + 1) * n)%nat by nia.
    rewrite Nat.Div0.mod_add. apply Nat.mod_small. lia.
Qed.

Lemma rotation_perm (U : list nat) (p : nat) :
  U <> [] ->
  Permutation (map (fun k => nth ((p + k) mod List.length U) U 0%nat)
                 (seq 0 (List.length U))) U.
Proof.
  intros HU. rewrite (rotation_is_rotation U p HU).
  eapply Permutation_trans; [apply Permutation_app_comm |].
  rewrite firstn_skipn. apply Permutation_refl.
Qed.

End Rotating.

Section Order.

Import Rotation.

Lemma order_updateWhere cond f ps :
  (forall p, userId (f p) = userId p) ->
  (forall p, isActive (f p) = isActive p) ->
  map userId (sortByUserId (activeParticipants (updateWhere cond f ps)))
  = map userId (sortByUserId (activeParticipants ps)).
Proof.
  intros Hu Ha. unfold updateWhere.
  set (g := fun p => if cond p then f p else p).
  assert (Hgu : forall p, userId (g p) = userId p)
    by (intros p; unfold g; destruct (cond p); auto).
  assert (Hga : forall p, isActive (g p) = isActive p)
    by (intros p; unfold g; destruct (cond p); auto).
  rewrite (activeParticipants_map g Hga), (sortByUserId_map g Hgu), map_map.
  apply map_ext. exact Hgu.
Qed.

Lemma rotationOrder_length db :
  List.length (rotationOrder db)
  = List.length (sortByUserId (activeParticipants (parts db))).
Proof. unfold rotationOrder. apply length_map. Qed.

Lemma rotationOrder_active db :
  Permutation (rotationOrder db) (map userId (activeParticipants (parts db))).
Proof. unfold rotationOrder. apply Permutation_map, sortByUserId_perm. Qed.

End Order.

Section FlatCycle.

Variable select : Oracle -> Db -> Db * Selection.
Variable flat : Room -> Prop.

Hypothesis select_step : forall o db r,
  room db = Some r -> flat r -> rotationOrder db <> [] ->
  let n := List.length (rotationOrder db) in
  let q := (drawerPointerIndex r mod n)%nat in
  exists r',
    selectedUser (snd (select o db)) = nth_error (rotationOrder db) q
    /\ room (fst (select o db)) = Some r'
    /\ flat r'
    /\ drawerPointerIndex r' = ((q + 1) mod n)%nat
    /\ rotationOrder (fst (select o db)) = rotationOrder db.

Lemma run_flat os : forall db r,
  room db = Some r -> flat r -> rotationOrder db <> [] ->
  let U := rotationOrder db in
  snd (runSelections select os db)
  = map (fun k => Some (nth ((drawerPointerIndex r + k) mod List.length U) U 0%nat))
      (seq 0 (List.length os)).
Proof.
  induction os as [| o os IH]; intros db r Hr Hf HU U; [reflexivity |].
  destruct (select_step o db r Hr Hf HU) as (r' & Hsel & Hr' & Hf' & Hp' & HU').
  cbn [runSelections snd List.length seq map]. f_equal.
  - rewrite Hsel. rewrite Nat.add_0_r. fold U.
    apply nth_error_nth'. apply Nat.mod_upper_bound.
    subst U. destruct (rotationOrder db); simpl; congruence.
  - rewrite (IH (fst (select o db)) r' Hr' Hf') by (rewrite HU'; exact HU).
    rewrite HU'. fold U. rewrite <- seq_shift, map_map.
    apply map_ext. intros k. do 2 f_equal.
    rewrite Hp'. fold U.
    rewrite Nat.Div0.add_mod_idemp_l, <- Nat.add_assoc, Nat.Div0.add_mod_idemp_l.
    f_equal.
Qed.

Lemma cycle_flat os db r :
  room db = Some r -> flat r -> rotationOrder db <> [] ->
  List.length os = List.length (rotationOrder db) ->
  exists drawers,
    snd (runSelections select os db) = map Some drawers
    /\ Permutation drawers (map userId (activeParticipants (parts db))).
Proof.
  intros Hr Hf HU Hlen.
  exists (map (fun k => nth ((drawerPointerIndex r + k) mod List.length (rotationOrder db))
                          (rotationOrder db) 0%nat)
              (seq 0 (List.length (rotationOrder db)))).
  split.
  - rewrite (run_flat os db r Hr Hf HU). cbv zeta. rewrite Hlen, map_map. reflexivity.
  - eapply Permutation_trans; [apply rotation_perm; exact HU |].
    apply rotationOrder_active.
Qed.

End FlatCycle.

Section FlatSteps.

Import Rotation.

Lemma sorted_nonempty db :
  rotationOrder db <> [] ->
  exists p rest, sortByUserId (activeParticipants (parts db)) = p :: rest.
Proof.
  unfold rotationOrder. intros H.
  destruct (sortByUserId (activeParticipants (parts db))) as [| p rest];
    [contradiction | eauto].
Qed.

Lemma pointer_in_range db (k : nat) :
  rotationOrder db <> [] ->
  exists nd,
    nth_error (sortByUserId (activeParticipants (parts db)))
      (k mod List.length (sortByUserId (activeParticipants (parts db)))) = Some nd.
Proof.
  intros H. destruct (sorted_nonempty db H) as (p & rest & Hs).
  destruct (nth_error _ _) as [nd |] eqn:Hn; [eauto |].
  apply nth_error_None in Hn.
  assert ((k mod List.length (sortByUserId (activeParticipants (parts db)))
           < List.length (sortByUserId (activeParticipants (parts db))))%nat)
    by (apply Nat.mod_upper_bound; rewrite Hs; simpl; congruence).
  lia.
Qed.

(** One selection of the current engine in a ["1v1"] room. *)
Lemma select_flat_step o db r :
  room db = Some r -> gameMode r = "1v1" -> rotationOrder db <> [] ->
  let sorted := sortByUserId (activeParticipants (parts db)) in
  let n := List.length sorted in
  let q := (drawerPointerIndex r mod n)%nat in
  exists nd w r',
    RoundPhases.selectDrawerAndStartWordChoice o db = (fst (RoundPhases.selectDrawerAndStartWordChoice o db), Selected nd w)
    /\ nth_error sorted q = Some nd
    /\ room (fst (RoundPhases.selectDrawerAndStartWordChoice o db)) = Some r'
    /\ gameMode r' = "1v1"
    /\ drawerPointerIndex r' = ((q + 1) mod n)%nat
    /\ currentDrawerId r' = Some (userId nd)
    /\ rotationOrder (fst (RoundPhases.selectDrawerAndStartWordChoice o db))
       = rotationOrder db.
Proof.
  intros Hr Hm HU sorted n q.
  destruct (pointer_in_range db (drawerPointerIndex r) HU) as (nd & Hnd).
  destruct (sorted_nonempty db HU) as (p0 & rest & Hs).
  unfold RoundPhases.selectDrawerAndStartWordChoice. rewrite Hr, Hs.
  unfold pickDrawer, flatPick. rewrite Hm. cbn [String.eqb Ascii.eqb Bool.eqb andb].
  rewrite <- Hs. fold sorted. fold sorted in Hnd. fold n. fold n in Hnd. fold q. fold q in Hnd.
  rewrite Hnd.
  eexists nd, _, _. cbn [fst snd].
  split; [reflexivity |].
  split; [reflexivity |].
  split; [reflexivity |].
  split; [exact Hm |].
  split; [reflexivity |].
  split; [reflexivity |].
  unfold rotationOrder. cbn [parts startPhaseTimerAndBroadcast set_room set_parts].
  rewrite !order_updateWhere; reflexivity.
Qed.

(** One selection of the earlier engine. *)
Lemma selectV1_flat_step o db r :
  room db = Some r -> rotationOrder db <> [] ->
  let sorted := sortByUserId (activeParticipants (parts db)) in
  let n := List.length sorted in
  let q := (drawerPointerIndex r mod n)%nat in
  exists nd w r',
    RoundPhasesV1.selectDrawerAndStartWordChoice o db = (fst (RoundPhasesV1.selectDrawerAndStartWordChoice o db), Selected nd w)
    /\ nth_error sorted q = Some nd
    /\ room (fst (RoundPhasesV1.selectDrawerAndStartWordChoice o db)) = Some r'
    /\ drawerPointerIndex r' = ((q + 1) mod n)%nat
    /\ currentDrawerId r' = Some (userId nd)
    /\ rotationOrder (fst (RoundPhasesV1.selectDrawerAndStartWordChoice o db))
       = rotationOrder db.
Proof.
  intros Hr HU sorted n q.
  destruct (pointer_in_range db (drawerPointerIndex r) HU) as (nd & Hnd).
  destruct (sorted_nonempty db HU) as (p0 & rest & Hs).
  unfold RoundPhasesV1.selectDrawerAndStartWordChoice. rewrite Hr, Hs.
  rewrite <- Hs. fold sorted. fold sorted in Hnd. fold n. fold n in Hnd. fold q. fold q in Hnd.
  rewrite Hnd.
  eexists nd, _, _. cbn [fst snd].
  split; [reflexivity |].
  split; [reflexivity |].
  split; [reflexivity |].
  split; [reflexivity |].
  split; [reflexivity |].
  unfold rotationOrder. cbn [parts set_room set_parts].
  rewrite !order_updateWhere; reflexivity.
Qed.

End FlatSteps.

Section FlatAdapters.

Import Rotation.

Lemma select_flat_cycle_step : forall o db r,
  room db = Some r -> gameMode r = "1v1" -> rotationOrder db <> [] ->
  let n := List.length (rotationOrder db) in
  let q := (drawerPointerIndex r mod n)%nat in
  exists r',
    selectedUser (snd (RoundPhases.selectDrawerAndStartWordChoice o db))
    = nth_error (rotationOrder db) q
    /\ room (fst (RoundPhases.selectDrawerAndStartWordChoice o db)) = Some r'
    /\ gameMode r' = "1v1"
    /\ drawerPointerIndex r' = ((q + 1) mod n)%nat
    /\ rotationOrder (fst (RoundPhases.selectDrawerAndStartWordChoice o db))
       = rotationOrder db.
Proof.
  intros o db r Hr Hm HU n q.
  destruct (select_flat_step o db r Hr Hm HU)
    as (nd & w & r' & Hsel & Hnth & Hr' & Hm' & Hp & _ & HU').
  exists r'. subst n q. rewrite rotationOrder_length.
  rewrite Hsel at 1. cbn [snd selectedUser].
  split; [| auto].
  unfold rotationOrder. symmetry. apply map_nth_error. exact Hnth.
Qed.

Lemma selectV1_flat_cycle_step : forall o db r,
  room db = Some r -> True -> rotationOrder db <> [] ->
  let n := List.length (rotationOrder db) in
  let q := (drawerPointerIndex r mod n)%nat in
  exists r',
    selectedUser (snd (RoundPhasesV1.selectDrawerAndStartWordChoice o db))
    = nth_error (rotationOrder db) q
    /\ room (fst (RoundPhasesV1.selectDrawerAndStartWordChoice o db)) = Some r'
    /\ True
    /\ drawerPointerIndex r' = ((q + 1) mod n)%nat
    /\ rotationOrder (fst (RoundPhasesV1.selectDrawerAndStartWordChoice o db))
       = rotationOrder db.
Proof.
  intros o db r Hr _ HU n q.
  destruct (selectV1_flat_step o db r Hr HU)
    as (nd & w & r' & Hsel & Hnth & Hr' & Hp & _ & HU').
  exists r'. subst n q. rewrite rotationOrder_length.
  rewrite Hsel at 1. cbn [snd selectedUser].
  split; [| auto].
  unfold rotationOrder. symmetry. apply map_nth_error. exact Hnth.
Qed.

Lemma succ_mod p n : (((p mod n) + 1) mod n = (p + 1) mod n)%nat.
Proof. apply Nat.Div0.add_mod_idemp_l. Qed.

End FlatAdapters.

(** C4.  In flat mode the active participants are sorted ascending by user
    id; with [n] their number, a selection picks [sorted[pointer % n]] and
    stores [(pointer + 1) % n] as the new pointer; and [n] consecutive
    selections with nothing else happening in between select every active
    participant exactly once: the drawers form a permutation of the active
    user ids, without repetition when user ids are distinct.  This holds for
    the current engine in a ["1v1"] room and for the earlier, flat-only
    engine in every room. *)
Theorem C4_flat_rotation :
  forall db r,
    room db = Some r ->
    rotationOrder db <> [] ->
    let active := activeParticipants (parts db) in
    let sorted := Rotation.sortByUserId active in
    let n := List.length sorted in
    let pointer := drawerPointerIndex r in
    StronglySorted byUserIdAsc sorted
    /\ Permutation sorted active
    /\ (gameMode r = "1v1" ->
        (forall o, exists nd w r',
            snd (RoundPhases.selectDrawerAndStartWordChoice o db) = Selected nd w
            /\ nth_error sorted (pointer mod n) = Some nd
            /\ room (fst (RoundPhases.selectDrawerAndStartWordChoice o db)) = Some r'
            /\ currentDrawerId r' = Some (userId nd)
            /\ drawerPointerIndex r' = ((pointer + 1) mod n)%nat)
        /\ (forall os, List.length os = n ->
            exists drawers,
              snd (runSelections RoundPhases.selectDrawerAndStartWordChoice os db)
              = map Some drawers
              /\ Permutation drawers (map userId active)
              /\ (NoDup (map userId active) -> NoDup drawers)))
    /\ (forall o, exists nd w r',
           snd (RoundPhasesV1.selectDrawerAndStartWordChoice o db) = Selected nd w
           /\ nth_error sorted (pointer mod n) = Some nd
           /\ room (fst (RoundPhasesV1.selectDrawerAndStartWordChoice o db)) = Some r'
           /\ currentDrawerId r' = Some (userId nd)
           /\ drawerPointerIndex r' = ((pointer + 1) mod n)%nat)
    /\ (forall os, List.length os = n ->
           exists drawers,
             snd (runSelections RoundPhasesV1.selectDrawerAndStartWordChoice os db)
             = map Some drawers
             /\ Permutation drawers (map userId active)
             /\ (NoDup (map userId active) -> NoDup drawers)).
Proof.
  intros db r Hr HU active sorted n pointer.
  split; [apply sortByUserId_sorted |].
  split; [apply sortByUserId_perm |].
  split; [intros Hm; split | split].
  - intros o.
    destruct (select_flat_step o db r Hr Hm HU)
      as (nd & w & r' & Hsel & Hnth & Hr' & _ & Hp & Hd & _).
    exists nd, w, r'. rewrite Hsel at 1. cbn [snd].
    repeat split; try assumption.
    rewrite Hp. apply succ_mod.
  - intros os Hlen.
    destruct (cycle_flat RoundPhases.selectDrawerAndStartWordChoice
                (fun r => gameMode r = "1v1") select_flat_cycle_step os db r Hr Hm HU)
      as (drawers & Hrun & Hperm).
    { rewrite rotationOrder_length. exact Hlen. }
    exists drawers. repeat split; try assumption.
    intros Hnd. eapply Permutation_NoDup; [apply Permutation_sym; exact Hperm | exact Hnd].
  - intros o.
    destruct (selectV1_flat_step o db r Hr HU)
      as (nd & w & r' & Hsel & Hnth & Hr' & Hp & Hd & _).
    exists nd, w, r'. rewrite Hsel at 1. cbn [snd].
    repeat split; try assumption.
    rewrite Hp. apply succ_mod.
  - intros os Hlen.
    destruct (cycle_flat RoundPhasesV1.selectDrawerAndStartWordChoice
                (fun _ => True) selectV1_flat_cycle_step os db r Hr I HU)
      as (drawers & Hrun & Hperm).
    { rewrite rotationOrder_length. exact Hlen. }
    exists drawers. repeat split; try assumption.
    intros Hnd. eapply Permutation_NoDup; [apply Permutation_sym; exact Hperm | exact Hnd].
Qed.

Lemma C4_flat_rotation_witness :
  exists drawers,
    snd (runSelections RoundPhases.selectDrawerAndStartWordChoice
           [Examples.idOracle; Examples.idOracle; Examples.idOracle] Examples.ffaDrawing)
    = map Some drawers
    /\ Permutation drawers (map userId (activeParticipants (parts Examples.ffaDrawing)))
    /\ NoDup drawers.
Proof.
  destruct (proj2 (proj1 (proj2 (proj2
              (C4_flat_rotation Examples.ffaDrawing (Examples.drawingRoom "1v1") eq_refl
                 ltac:(vm_compute; discriminate)))) eq_refl)
              [Examples.idOracle; Examples.idOracle; Examples.idOracle] eq_refl)
    as (drawers & Hrun & Hperm & Hnd).
  exists drawers.
  split; [exact Hrun |].
  split; [exact Hperm |].
  apply Hnd. simpl.
  repeat (apply NoDup_cons; [simpl; intuition discriminate |]). apply NoDup_nil.
Defined.

Example ffa_four_selections :
  snd (runSelections RoundPhases.selectDrawerAndStartWordChoice
           [Examples.idOracle; Examples.idOracle; Examples.idOracle; Examples.idOracle] Examples.ffaDrawing) = [Some 1; Some 2; Some 3; Some 1]%nat.
Proof. vm_compute. reflexivity. Qed.

(* ===================================================================== *)
(** ** C10: joining a full room *)
(* ===================================================================== *)

Section JoinRoom.

(** A participant whose row is inactive always gets back in, whatever the
    number of active participants. *)
Lemma join_room_rejoining db r u p sock :
  room db = Some r ->
  findByUser u (parts db) = Some p ->
  isActive p = false ->
  snd (join_room (Some u) sock db) = RoomJoined true
  /\ parts (fst (join_room (Some u) sock db))
     = updateWhere (fun q => Nat.eqb (userId q) u)
         (fun q => set_isActive true (set_socketId (Some sock) q)) (parts db).
Proof.
  intros Hr Hp Ha. unfold join_room. rewrite Hr, Hp, Ha. simpl. auto.
Qed.

(** The [room_full] test is skipped only for an inactive row: a user whose
    row is active is treated like a user without a row. *)
Lemma join_room_full_when_not_rejoining db r u sock :
  room db = Some r ->
  match findByUser u (parts db) with
  | Some p => isActive p = true
  | None => True
  end ->
  maxPlayers r <= countWhere isActive (parts db) ->
  join_room (Some u) sock db = (db, JoinError "room_full").
Proof.
  intros Hr Hp Hfull. unfold join_room. rewrite Hr.
  apply Z.leb_le in Hfull.
  destruct (findByUser u (parts db)) as [p |]; [rewrite Hp |]; simpl; rewrite Hfull;
    reflexivity.
Qed.

End JoinRoom.

(** C10, at the failing input.  The room admits two players; the owner and
    user 2 are its two active participants (user 2's row was created by the
    REST join a moment ago).  User 2 now sends [join_room]: the handler
    answers [room_full] although user 2 has a participant record in the
    room, and the store is unchanged.  A user whose record is inactive
    is let in under the same load. *)
Theorem C10_member_with_active_record_gets_room_full :
  findByUser 2 (parts Examples.fullRoom) = Some (Examples.player 2 None)
  /\ isActive (Examples.player 2 None) = true
  /\ join_room (Some 2%nat) "s2" Examples.fullRoom
     = (Examples.fullRoom, JoinError "room_full")
  /\ countWhere isActive (parts Examples.fullRoomAfterLeave) = 2
  /\ snd (join_room (Some 2%nat) "s2" Examples.fullRoomAfterLeave) = RoomJoined true.
Proof. repeat split. Qed.

(* ===================================================================== *)
(** ** C8: the words offered to the drawer *)
(* ===================================================================== *)

Section WordOptions.

(** The earlier engine always stores three words. *)
Lemma wordOptionsV1_three theme o :
  (forall l, List.length (shuffle o l) = List.length l) ->
  List.length (RoundPhasesV1.wordOptions theme o) = 3%nat.
Proof.
  intros Hsh. unfold RoundPhasesV1.wordOptions.
  set (words := match theme with Some t => _ | None => _ end).
  destruct (List.length words <? 3)%nat eqn:Hlt.
  - rewrite length_firstn, Hsh. reflexivity.
  - apply Nat.ltb_ge in Hlt.
    assert (Hle : (List.length words <= 3)%nat).
    { subst words. destruct theme as [t |]; [| simpl; lia].
      destruct (Nat.eqb t 0); [simpl; lia |].
      unfold WordSelector.getWordsForTheme. cbn [Nat.eqb]. apply firstn_le_length. }
    lia.
Qed.

(** The current engine stores either three generic words or the single
    themed word, a string of at least three UTF-16 code units. *)
Lemma wordOptions_cases theme o :
  (forall l, List.length (shuffle o l) = List.length l) ->
  Js.three_words (wordOptions theme o) = true
  \/ exists w, wordOptions theme o = Js.Str w
               /\ (3 <= Js.utf16_length w)%nat
               /\ In w (shuffle o (resolved o)).
Proof.
  intros Hsh. unfold wordOptions.
  set (words := match theme with Some t => _ | None => _ end).
  destruct (negb (Js.truthy words) || (Js.length words <? 3)%nat) eqn:Hc.
  - left. cbn [Js.three_words]. rewrite length_firstn, Hsh. reflexivity.
  - apply orb_false_iff in Hc. destruct Hc as [_ Hlen]. apply Nat.ltb_ge in Hlen.
    subst words. destruct theme as [t |]; [| simpl in Hlen; lia].
    destruct (Nat.eqb t 0); [simpl in Hlen; lia |].
    unfold WordSelector.getRandomWordForTheme, WordSelector.getWordsForTheme in *.
    cbn [Nat.eqb] in *.
    destruct (firstn 3 (shuffle o (resolved o))) as [| w rest] eqn:Hf;
      [simpl in Hlen; lia |].
    right. exists w. split; [reflexivity | split; [exact Hlen |]].
    rewrite <- (firstn_skipn 3 (shuffle o (resolved o))). apply in_or_app. left.
    rewrite Hf. left. reflexivity.
Qed.

End WordOptions.

(** C8, at the failing input.  The room has a theme of which three words
    resolve.  The selection takes the single word returned by
    [getRandomWordForTheme], finds that this string has at least three
    characters and keeps it: the drawer is offered the one string
    ["elephant"], stored in [currentWordOptions] and sent as [word_options],
    not a list of three words.  The earlier engine, which asks
    [getWordsForTheme] for three words, offers three. *)
Theorem C8_themed_room_offers_one_string :
  exists nd r',
    RoundPhases.selectDrawerAndStartWordChoice Examples.animals Examples.themedRoom
    = (fst (RoundPhases.selectDrawerAndStartWordChoice Examples.animals
              Examples.themedRoom),
       Selected nd (Js.Str "elephant"))
    /\ room (fst (RoundPhases.selectDrawerAndStartWordChoice Examples.animals
                    Examples.themedRoom)) = Some r'
    /\ currentWordOptions r' = Js.Str "elephant"
    /\ snd (startWordChoicePhase r' nd (Js.Str "elephant")
              (fst (RoundPhases.selectDrawerAndStartWordChoice Examples.animals
                      Examples.themedRoom))) = Js.Str "elephant"
    /\ Js.three_words (Js.Str "elephant") = false
    /\ RoundPhasesV1.wordOptions (Some 7%nat) Examples.animals
       = ["elephant"; "tiger"; "zebra"].
Proof.
  do 2 eexists.
  split; [vm_compute; reflexivity |].
  split; [vm_compute; reflexivity |].
  split; [vm_compute; reflexivity |].
  split; [vm_compute; reflexivity |].
  split; vm_compute; reflexivity.
Qed.

(* ===================================================================== *)
(** ** C1: the phase guard of the timer callbacks *)
(* ===================================================================== *)

Section TimerGuards.

(** The tickers started by [startPhaseTimerAndBroadcast] do nothing to the
    store when the room is gone or in another phase. *)
Lemma phaseTimerTick_stale key cb db :
  (forall r, room db = Some r -> phase_is (roundPhase r) key = false) ->
  phaseTimerTick key cb db = (db, Stopped).
Proof.
  intros H. unfold phaseTimerTick.
  destruct (room db) as [r |]; [| reflexivity].
  rewrite (H r eq_refl). reflexivity.
Qed.

(** So does the drawing ticker. *)
Lemma drawingTick_stale db :
  (forall r, room db = Some r -> phase_is (roundPhase r) drawing = false) ->
  drawingTick db = (db, Stopped).
Proof.
  intros H. unfold drawingTick.
  destruct (room db) as [r |]; [| reflexivity].
  rewrite (H r eq_refl). reflexivity.
Qed.

(** The reveal timer's body enters [interval] whatever the phase it finds. *)
Lemma startIntervalPhase_any_phase db r :
  room db = Some r ->
  room (startIntervalPhase db)
  = Some (set_roundRemainingTime 4 (set_roundPhase (Some interval) r)).
Proof. intros H. unfold startIntervalPhase. rewrite H. reflexivity. Qed.

End TimerGuards.

(** C1, at the failing input.  Users 2 and 3 both guess the word, which ends
    the drawing phase and schedules the reveal timer; a [skip_turn] then
    moves the room to [selecting_drawer] with a new drawer.  A reveal timer
    that fires in this state (its body is [startIntervalPhase]) reloads the
    room and, without comparing the phase with [reveal], overwrites it with
    [interval] and the remaining time with 4.  Likewise a second reveal
    timer that fires two seconds into the interval puts the remaining time
    back to 4.  The tickers of the other phases leave the stale state
    untouched. *)
Theorem C1_reveal_timer_acts_on_stale_phase :
  let reveal_state :=
    fst (submit_guess (Some 3%nat) "cat"
           (fst (submit_guess (Some 2%nat) "cat" Examples.ffaDrawing))) in
  let stale := skip_turn Examples.idOracle reveal_state in
  let in_interval :=
    iterate 2 (fun d => fst (phaseTimerTick interval
                               (fun r d' => fst (intervalTimeout Examples.idOracle r d')) d))
      (startIntervalPhase reveal_state) in
  option_map roundPhase (room reveal_state) = Some (Some reveal)
  /\ option_map roundPhase (room stale) = Some (Some selecting_drawer)
  /\ option_map roundPhase (room (startIntervalPhase stale)) = Some (Some interval)
  /\ option_map roundRemainingTime (room stale) = Some 5
  /\ option_map roundRemainingTime (room (startIntervalPhase stale)) = Some 4
  /\ startIntervalPhase stale <> stale
  /\ option_map roundPhase (room in_interval) = Some (Some interval)
  /\ option_map roundRemainingTime (room in_interval) = Some 2
  /\ option_map roundRemainingTime (room (startIntervalPhase in_interval)) = Some 4
  /\ (forall cb, phaseTimerTick choosing_word cb stale = (stale, Stopped))
  /\ (forall cb, phaseTimerTick interval cb stale = (stale, Stopped))
  /\ drawingTick stale = (stale, Stopped).
Proof.
  cbv zeta.
  split; [vm_compute; reflexivity |].
  split; [vm_compute; reflexivity |].
  split; [vm_compute; reflexivity |].
  split; [vm_compute; reflexivity |].
  split; [vm_compute; reflexivity |].
  split.
  { intros H. apply (f_equal (fun d => option_map roundPhase (room d))) in H.
    vm_compute in H. discriminate. }
  split; [vm_compute; reflexivity |].
  split; [vm_compute; reflexivity |].
  split; [vm_compute; reflexivity |].
  split; [intros cb; apply phaseTimerTick_stale; intros r Hr; vm_compute in Hr;
          inversion Hr; reflexivity |].
  split; [intros cb; apply phaseTimerTick_stale; intros r Hr; vm_compute in Hr;
          inversion Hr; reflexivity |].
  apply drawingTick_stale. intros r Hr. vm_compute in Hr. inversion Hr. reflexivity.
Qed.

(* ===================================================================== *)
(** ** C2: the drawer flag *)
(* ===================================================================== *)

Section Rows.

Lemma drawerCount_map_le g ps :
  (forall p, isDrawer (g p) = true -> isDrawer p = true) ->
  (drawerCount (map g ps) <= drawerCount ps)%nat.
Proof.
  intros Hg. unfold drawerCount.
  induction ps as [| p ps IH]; simpl; [lia |].
  destruct (isDrawer (g p)) eqn:Hgp.
  - rewrite (Hg p Hgp). simpl. lia.
  - destruct (isDrawer p); simpl; lia.
Qed.

Lemma map_id_map g ps :
  (forall p, id (g p) = id p) -> map id (map g ps) = map id ps.
Proof. intros Hg. rewrite map_map. apply map_ext. exact Hg. Qed.

Lemma rowsOk_map g ps :
  (forall p, id (g p) = id p) ->
  (forall p, isDrawer (g p) = true -> isDrawer p = true) ->
  rowsOk ps -> rowsOk (map g ps).
Proof.
  intros Hid Hd [Hn Hc]. split.
  - rewrite map_id_map by assumption. exact Hn.
  - pose proof (drawerCount_map_le g ps Hd). lia.
Qed.

Lemma rowsOk_updateWhere cond f ps :
  (forall p, id (f p) = id p) ->
  (forall p, isDrawer (f p) = true -> isDrawer p = true) ->
  rowsOk ps -> rowsOk (updateWhere cond f ps).
Proof.
  intros Hid Hd. unfold updateWhere. apply rowsOk_map.
  - intros p. destruct (cond p); auto.
  - intros p. destruct (cond p); auto.
Qed.

Lemma map_id_updateWhere cond f ps :
  (forall p, id (f p) = id p) -> map id (updateWhere cond f ps) = map id ps.
Proof.
  intros Hid. unfold updateWhere. apply map_id_map.
  intros p. destruct (cond p); auto.
Qed.

Lemma drawerCount_cleared ps :
  drawerCount (updateWhere isDrawer (set_isDrawer false) ps) = 0%nat.
Proof.
  unfold drawerCount, updateWhere.
  induction ps as [| p ps IH]; simpl; [reflexivity |].
  destruct (isDrawer p) eqn:Hp; simpl; [| rewrite Hp]; exact IH.
Qed.

Lemma updateWhere_absent n f ps :
  ~ In n (map id ps) -> updateWhere (fun p => Nat.eqb (id p) n) f ps = ps.
Proof.
  unfold updateWhere. induction ps as [| p ps IH]; simpl; intros Hn; [reflexivity |].
  destruct (Nat.eqb (id p) n) eqn:He.
  - apply Nat.eqb_eq in He. exfalso. apply Hn. left. exact He.
  - f_equal. apply IH. intros Hin. apply Hn. right. exact Hin.
Qed.

(** Flagging the row of a given id among unflagged rows with distinct ids
    flags exactly that row. *)
Lemma drawerCount_mark n f ps :
  (forall p, isDrawer (f p) = true) ->
  NoDup (map id ps) ->
  drawerCount ps = 0%nat ->
  drawerCount (updateWhere (fun p => Nat.eqb (id p) n) f ps)
  = if existsb (fun p => Nat.eqb (id p) n) ps then 1%nat else 0%nat.
Proof.
  intros Hf. unfold drawerCount.
  induction ps as [| p ps IH]; simpl; intros Hnd Hc; [reflexivity |].
  inversion Hnd as [| ? ? Hp Hnd']; subst.
  destruct (isDrawer p) eqn:Hdp; [simpl in Hc; discriminate |].
  destruct (Nat.eqb (id p) n) eqn:He; simpl.
  - rewrite Hf. simpl. apply Nat.eqb_eq in He. subst n.
    rewrite (updateWhere_absent (id p) f ps Hp). rewrite Hc. reflexivity.
  - rewrite Hdp. apply IH; assumption.
Qed.

Lemma existsb_id_In n ps :
  In n (map id ps) -> existsb (fun p => Nat.eqb (id p) n) ps = true.
Proof.
  intros H. apply in_map_iff in H. destruct H as (p & Hp & Hin).
  apply existsb_exists. exists p. split; [exact Hin | apply Nat.eqb_eq; exact Hp].
Qed.

Lemma drawerCount_app ps qs :
  drawerCount (ps ++ qs) = (drawerCount ps + drawerCount qs)%nat.
Proof. unfold drawerCount. rewrite filter_app, length_app. reflexivity. Qed.

Lemma drawerCount_none ps :
  Forall (fun p => isDrawer p = false) ps -> drawerCount ps = 0%nat.
Proof.
  unfold drawerCount. induction 1 as [| p ps Hp _ IH]; simpl; [reflexivity |].
  rewrite Hp. exact IH.
Qed.

Lemma rowsOk_insert ps news :
  rowsOk ps ->
  Forall (fun p => isDrawer p = false) news ->
  NoDup (map id news) ->
  (forall p, In p news -> ~ In (id p) (map id ps)) ->
  rowsOk (ps ++ news).
Proof.
  intros [Hn Hc] Hnew Hnd Hfresh. split.
  - rewrite map_app. apply NoDup_app; try assumption.
    intros x Hx Hy. apply in_map_iff in Hy. destruct Hy as (p & Hp & Hin).
    subst x. exact (Hfresh p Hin Hx).
  - rewrite drawerCount_app, (drawerCount_none news Hnew). lia.
Qed.

Lemma nextId_fresh ps : ~ In (nextId ps) (map id ps).
Proof.
  unfold nextId.
  assert (H : forall l x, In x l -> (x <= fold_right Nat.max 0 l)%nat).
  { induction l as [| y l IH]; simpl; intros x Hx; [destruct Hx |].
    destruct Hx as [-> | Hx]; [lia | specialize (IH x Hx); lia]. }
  intros Hin. specialize (H _ _ Hin). lia.
Qed.

Lemma rowsOk_nil : rowsOk [].
Proof. split; [apply NoDup_nil | unfold drawerCount; simpl; lia]. Qed.

End Rows.

Section EngineKeepsRows.

Import Rotation.

Lemma select_rowsOk o db :
  rowsOk (parts db) -> rowsOk (parts (fst (RoundPhases.selectDrawerAndStartWordChoice o db))).
Proof.
  intros Hok. unfold RoundPhases.selectDrawerAndStartWordChoice.
  destruct (room db) as [r |]; [| exact Hok].
  destruct (sortByUserId (activeParticipants (parts db))) as [| p0 rest]; [exact Hok |].
  destruct (pickDrawer _ _ _ _) as [nextDrawer pointer drawn |]; [| exact Hok].
  destruct nextDrawer as [nd |]; cbn [fst parts set_parts set_room startPhaseTimerAndBroadcast].
  - destruct Hok as [Hn Hc]. split.
    + rewrite !map_id_updateWhere by (intros []; reflexivity). exact Hn.
    + rewrite drawerCount_mark.
      * destruct (existsb _ _); lia.
      * intros []; reflexivity.
      * rewrite map_id_updateWhere by (intros []; reflexivity). exact Hn.
      * apply drawerCount_cleared.
  - destruct Hok as [Hn Hc]. split.
    + rewrite map_id_updateWhere by (intros []; reflexivity). exact Hn.
    + rewrite drawerCount_cleared. lia.
Qed.

Lemma startNewRound_rowsOk o db :
  rowsOk (parts db) -> rowsOk (parts (fst (startNewRound o db))).
Proof.
  intros Hok. unfold startNewRound.
  destruct (_ <? _)%nat; [exact Hok |].
  apply select_rowsOk. cbn [parts set_parts].
  apply rowsOk_updateWhere; [intros []; reflexivity | intros []; simpl; discriminate | exact Hok].
Qed.

Lemma chooseWordTimeout_rowsOk o nd r db :
  rowsOk (parts db) -> rowsOk (parts (fst (chooseWordTimeout o nd r db))).
Proof.
  intros Hok. unfold chooseWordTimeout.
  apply select_rowsOk. cbn [parts set_parts set_room].
  apply rowsOk_updateWhere; [intros []; reflexivity | intros []; simpl; discriminate | exact Hok].
Qed.

Lemma checkGameEnd_rowsOk r db :
  rowsOk (parts db) -> rowsOk (parts (fst (checkGameEnd r db))).
Proof. rewrite checkGameEnd_parts. auto. Qed.

Lemma endDrawingPhase_rowsOk r db :
  rowsOk (parts db) -> rowsOk (parts (fst (endDrawingPhase r db))).
Proof.
  intros Hok. unfold endDrawingPhase. rewrite checkGameEnd_parts. cbn [parts set_parts set_room].
  destruct (findByUserOpt _ _); [| exact Hok].
  destruct (0 <? _); [| exact Hok].
  apply rowsOk_updateWhere; [intros []; reflexivity | intros []; simpl; auto | exact Hok].
Qed.

Lemma phaseTimerTick_rowsOk key cb db :
  (forall r d, rowsOk (parts d) -> rowsOk (parts (cb r d))) ->
  rowsOk (parts db) -> rowsOk (parts (fst (phaseTimerTick key cb db))).
Proof.
  intros Hcb Hok. unfold phaseTimerTick.
  destruct (room db) as [r |]; [| exact Hok].
  destruct (_ || _); [destruct (phase_is _ _) |]; cbn [fst]; auto.
Qed.

Lemma drawingTick_rowsOk db :
  rowsOk (parts db) -> rowsOk (parts (fst (drawingTick db))).
Proof.
  intros Hok. unfold drawingTick.
  destruct (room db) as [r |]; [| exact Hok].
  destruct (_ || _); [destruct (phase_is _ _) |]; cbn [fst]; auto.
  apply endDrawingPhase_rowsOk. exact Hok.
Qed.

Lemma startIntervalPhase_parts db : parts (startIntervalPhase db) = parts db.
Proof. unfold startIntervalPhase. destruct (room db); reflexivity. Qed.

Lemma checkAndMaybeDeleteRoom_parts db :
  parts (checkAndMaybeDeleteRoom db) = parts db \/ parts (checkAndMaybeDeleteRoom db) = [].
Proof.
  unfold checkAndMaybeDeleteRoom.
  destruct (room db); [| left; reflexivity].
  destruct (Nat.eqb _ _); [right; reflexivity |].
  destruct (existsb _ _); [left | right]; reflexivity.
Qed.

Lemma handleDrawerLeave_parts r u db :
  parts (fst (handleDrawerLeave r u db)) = parts db
  \/ parts (fst (handleDrawerLeave r u db)) = [].
Proof.
  unfold handleDrawerLeave.
  destruct (_ || _); [left; reflexivity |].
  cbn [fst].
  match goal with
  | |- context [checkAndMaybeDeleteRoom ?d] =>
      destruct (checkAndMaybeDeleteRoom_parts d) as [H | H]; rewrite H
  end; [left | right]; reflexivity.
Qed.

Lemma handleOwnerLeave_parts r u db :
  parts (fst (handleOwnerLeave r u db)) = parts db
  \/ parts (fst (handleOwnerLeave r u db)) = [].
Proof.
  unfold handleOwnerLeave. destruct (negb _); [left | right]; reflexivity.
Qed.

Lemma checkAndCloseEmptyRoom_parts db :
  parts (fst (checkAndCloseEmptyRoom db)) = parts db.
Proof.
  unfold checkAndCloseEmptyRoom.
  destruct (room db); [| reflexivity]. destruct (_ =? _); reflexivity.
Qed.

Lemma rowsOk_either ps qs :
  rowsOk ps -> qs = ps \/ qs = [] -> rowsOk qs.
Proof. intros Hok [-> | ->]; [exact Hok | apply rowsOk_nil]. Qed.

End EngineKeepsRows.

Section HandlersKeepRows.

Lemma join_room_rowsOk u sock db :
  rowsOk (parts db) -> rowsOk (parts (fst (join_room u sock db))).
Proof.
  intros Hok. unfold join_room.
  destruct (room db) as [r |]; [| exact Hok].
  destruct (_ && _); [exact Hok |].
  cbn [fst parts set_parts set_room].
  destruct u as [u |]; [| exact Hok].
  destruct (findByUser u (parts db)).
  - apply rowsOk_updateWhere; [intros []; reflexivity | intros []; simpl; auto | exact Hok].
  - apply rowsOk_insert; try assumption.
    + constructor; [reflexivity | constructor].
    + simpl. constructor; [intros [] | constructor].
    + intros p [<- | []]. simpl. apply nextId_fresh.
Qed.

Lemma select_team_rowsOk u t db :
  rowsOk (parts db) -> rowsOk (parts (select_team u t db)).
Proof.
  intros Hok. unfold select_team.
  destruct (_ && _); [exact Hok |].
  destruct (room db) as [r |]; [| exact Hok].
  destruct u as [u |]; [| exact Hok].
  destruct (_ && _); [exact Hok |].
  destruct (_ && _); [exact Hok |].
  destruct (findByUser u (parts db)); [| exact Hok].
  cbn [parts set_parts].
  apply rowsOk_updateWhere; [intros []; reflexivity | intros []; simpl; auto | exact Hok].
Qed.

Lemma chargeEntry_rowsOk entryCost todo : forall db,
  rowsOk (parts db) -> rowsOk (parts (fst (chargeEntry entryCost todo db))).
Proof.
  induction todo as [| p todo IH]; intros db Hok; simpl; [exact Hok |].
  destruct (findUser _ _); [| auto].
  destruct (hasPaidEntry p); [auto |].
  destruct (_ <? _); [exact Hok |].
  apply IH. cbn [parts].
  apply rowsOk_updateWhere; [intros []; reflexivity | intros []; simpl; auto | exact Hok].
Qed.

Lemma start_game_rowsOk o u db :
  rowsOk (parts db) -> rowsOk (parts (start_game o u db)).
Proof.
  intros Hok. unfold start_game.
  destruct (room db) as [r |]; [| exact Hok].
  destruct u as [u |]; [| exact Hok].
  destruct (negb _); [exact Hok |].
  destruct (_ && _); [exact Hok |].
  destruct (_ <? _)%nat; [exact Hok |].
  destruct (_ && _); [exact Hok |].
  pose proof (chargeEntry_rowsOk (calculateEntryCost (entryPoints r) false)
                (activeParticipants (parts db)) db Hok) as Hc.
  destruct (chargeEntry _ _ _) as [db1 []]; cbn [fst] in Hc; [| exact Hc].
  apply startNewRound_rowsOk. exact Hc.
Qed.

Lemma choose_word_parts u w db : parts (choose_word u w db) = parts db.
Proof.
  unfold choose_word.
  destruct (room db); [| reflexivity].
  destruct (negb _); [reflexivity |].
  destruct (negb _); [reflexivity |].
  destruct (_ || _); reflexivity.
Qed.

Lemma afterGuess_rowsOk r p db :
  rowsOk (parts db) -> rowsOk (afterGuess r p db).
Proof.
  intros Hok. unfold afterGuess.
  apply rowsOk_updateWhere; [intros []; reflexivity | intros []; simpl; auto |].
  destruct (String.eqb _ _);
    (apply rowsOk_updateWhere; [intros []; reflexivity | intros []; simpl; auto | exact Hok]).
Qed.

Lemma submit_guess_rowsOk u g db :
  rowsOk (parts db) -> rowsOk (parts (fst (submit_guess u g db))).
Proof.
  intros Hok. unfold submit_guess.
  destruct (room db) as [r |]; [| exact Hok].
  destruct (guessGate u r (parts db)) as [m | p]; [exact Hok |].
  destruct (currentWord r); [| exact Hok].
  destruct (String.eqb _ _); [| exact Hok].
  unfold correctGuess.
  destruct (_ <=? _); cbn [fst].
  - apply endDrawingPhase_rowsOk. cbn [parts set_parts set_room].
    apply afterGuess_rowsOk. exact Hok.
  - cbn [parts set_parts set_room]. apply afterGuess_rowsOk. exact Hok.
Qed.

Lemma skip_turn_rowsOk o db :
  rowsOk (parts db) -> rowsOk (parts (skip_turn o db)).
Proof.
  intros Hok. unfold skip_turn.
  destruct (room db) as [r |]; [| exact Hok].
  assert (Hc : rowsOk (updateWhere (fun _ => true) (set_isDrawer false) (parts db)))
    by (apply rowsOk_updateWhere;
        [intros []; reflexivity | intros []; simpl; discriminate | exact Hok]).
  destruct (_ <? _)%nat; [exact Hc |].
  apply select_rowsOk. exact Hc.
Qed.

Lemma deactivate_rowsOk u ps : rowsOk ps -> rowsOk (deactivate u ps).
Proof.
  intros Hok. unfold deactivate.
  apply rowsOk_updateWhere; [intros []; reflexivity | intros []; simpl; auto | exact Hok].
Qed.

Lemma leave_room_rowsOk u db :
  rowsOk (parts db) -> rowsOk (parts (leave_room u db)).
Proof.
  intros Hok. unfold leave_room.
  destruct (room db) as [r |]; [| exact Hok].
  destruct u as [u |]; [| exact Hok].
  rewrite checkAndCloseEmptyRoom_parts.
  pose proof (deactivate_rowsOk u (parts db) Hok) as Hd.
  destruct (Nat.eqb _ _).
  - eapply rowsOk_either; [exact Hd | apply handleOwnerLeave_parts].
  - destruct (Status_eqb _ _); [| exact Hd].
    eapply rowsOk_either; [exact Hd | apply handleDrawerLeave_parts].
Qed.

Lemma disconnect_rowsOk u db :
  rowsOk (parts db) -> rowsOk (parts (disconnect u db)).
Proof.
  intros Hok. unfold disconnect.
  destruct (room db) as [r |]; [| exact Hok].
  destruct u as [u |]; [| exact Hok].
  rewrite checkAndCloseEmptyRoom_parts. apply deactivate_rowsOk. exact Hok.
Qed.

Lemma restWrite_rowsOk db db' :
  restWrite db db' -> rowsOk (parts db) -> rowsOk (parts db').
Proof.
  intros (g & news & Hp & Hg & Hnew & Hnd & Hfresh) Hok. rewrite Hp.
  apply rowsOk_insert; try assumption.
  - apply rowsOk_map; [apply Hg | | exact Hok].
    intros p Hp'. rewrite (proj2 (Hg p)) in Hp'. exact Hp'.
  - intros p Hin. rewrite map_id_map by apply Hg. apply Hfresh. exact Hin.
Qed.

Lemma step_rowsOk db db' :
  step db db' -> rowsOk (parts db) -> rowsOk (parts db').
Proof.
  intros Hs Hok. destruct Hs.
  - apply join_room_rowsOk; assumption.
  - apply select_team_rowsOk; assumption.
  - apply start_game_rowsOk; assumption.
  - rewrite choose_word_parts. assumption.
  - apply submit_guess_rowsOk; assumption.
  - apply skip_turn_rowsOk; assumption.
  - apply leave_room_rowsOk; assumption.
  - apply disconnect_rowsOk; assumption.
  - apply phaseTimerTick_rowsOk; [| assumption]. intros r d Hd. exact Hd.
  - apply phaseTimerTick_rowsOk; [| assumption]. intros r d Hd.
    apply chooseWordTimeout_rowsOk. exact Hd.
  - apply drawingTick_rowsOk; assumption.
  - rewrite startIntervalPhase_parts. assumption.
  - apply phaseTimerTick_rowsOk; [| assumption]. intros r d Hd.
    unfold intervalTimeout. apply startNewRound_rowsOk. exact Hd.
  - apply phaseTimerTick_rowsOk; [| assumption]. intros r d Hd.
    unfold drawerLeaveIntervalTimeout. apply startNewRound_rowsOk. exact Hd.
  - unfold endGameLobbyTimeout. destruct (room db); assumption.
  - eapply restWrite_rowsOk; eassumption.
Qed.

Lemma reachable_rowsOk db : reachable db -> rowsOk (parts db).
Proof.
  induction 1 as [db Hnone Hnd | db db' _ IH Hs].
  - split; [exact Hnd | rewrite (drawerCount_none _ Hnone); lia].
  - eapply step_rowsOk; eassumption.
Qed.

End HandlersKeepRows.

Section SelectionFlagsOne.

Import Rotation.

Lemma walk_chosen_in alt drawn pointer idxs c p' :
  walk alt drawn pointer idxs = Chosen c p' -> In c alt.
Proof.
  induction idxs as [| i idxs IH]; simpl; [discriminate |].
  destruct (nth_error alt _) as [cand |] eqn:Hn; [| discriminate].
  destruct (includes drawn (userId cand)); [exact IH |].
  intros H. inversion H; subst. eapply nth_error_In; exact Hn.
Qed.

Lemma alternatingList_incl x blueTeam orangeTeam :
  In x (alternatingList blueTeam orangeTeam) -> In x blueTeam \/ In x orangeTeam.
Proof.
  unfold alternatingList. intros H. apply in_flat_map in H.
  destruct H as (i & _ & Hi). apply in_app_or in Hi.
  destruct Hi as [Hi | Hi]; [left | right];
    destruct (nth_error _ i) eqn:Hn; simpl in Hi; try contradiction;
    destruct Hi as [<- | []]; eapply nth_error_In; exact Hn.
Qed.

Lemma sorted_filter_in x f l : In x (sortByUserId (filter f l)) -> In x l.
Proof.
  intros H. eapply Permutation_in in H; [| apply sortByUserId_perm].
  apply filter_In in H. tauto.
Qed.

Lemma pickDrawer_member mode participants pointer drawn nd p' d' f :
  pickDrawer mode participants pointer drawn = Pick (Some nd) p' d' f ->
  In nd participants.
Proof.
  unfold pickDrawer, teamPick, flatPick. intros H.
  destruct (String.eqb mode "1v1").
  - inversion H as [[Hn Hp Hd Hf]]. eapply nth_error_In; exact Hn.
  - destruct (_ || _).
    + inversion H as [[Hn Hp Hd Hf]]. eapply nth_error_In; exact Hn.
    + assert (Halt : In nd (alternatingList
                              (sortByUserId (filter (team_is "blue") participants))
                              (sortByUserId (filter (team_is "orange") participants)))).
      { destruct (walk _ _ _ _) as [c p |  |] eqn:Hw.
        - inversion H; subst. eapply walk_chosen_in; exact Hw.
        - inversion H as [[Hn Hp Hd Hf]]. eapply nth_error_In; exact Hn.
        - discriminate. }
      apply alternatingList_incl in Halt.
      destruct Halt as [Hb | Ho]; eapply sorted_filter_in; eassumption.
Qed.

(** A successful selection leaves exactly one row flagged, in phase
    [selecting_drawer]. *)
Lemma select_exactly_one o db db' nd w :
  NoDup (map id (parts db)) ->
  RoundPhases.selectDrawerAndStartWordChoice o db = (db', Selected nd w) ->
  drawerCount (parts db') = 1%nat
  /\ exists r', room db' = Some r'
                /\ roundPhase r' = Some selecting_drawer
                /\ currentDrawerId r' = Some (userId nd)
                /\ currentWordOptions r' = w.
Proof.
  intros Hnd. unfold RoundPhases.selectDrawerAndStartWordChoice.
  destruct (room db) as [r |]; [| discriminate].
  destruct (sortByUserId (activeParticipants (parts db))) as [| p0 rest] eqn:Hs;
    [discriminate |].
  destruct (pickDrawer _ _ _ _) as [nextDrawer pointer drawn |] eqn:Hpick;
    [| discriminate].
  destruct nextDrawer as [nd' |]; [| discriminate].
  intros H. inversion H; subst. clear H.
  cbn [fst parts set_parts set_room startPhaseTimerAndBroadcast].
  split.
  - rewrite drawerCount_mark.
    + rewrite existsb_id_In; [reflexivity |].
      rewrite map_id_updateWhere by (intros []; reflexivity).
      apply in_map. apply pickDrawer_member in Hpick. rewrite <- Hs in Hpick.
      eapply sorted_filter_in. exact Hpick.
    + intros []; reflexivity.
    + rewrite map_id_updateWhere by (intros []; reflexivity). exact Hnd.
    + apply drawerCount_cleared.
  - eexists. split; [reflexivity |]. repeat split.
Qed.

End SelectionFlagsOne.

Section ReachableExamples.

Lemma lobbyOfThree_reachable : reachable Examples.lobbyOfThree.
Proof.
  apply reach_created.
  - repeat constructor.
  - simpl. repeat (apply NoDup_cons; [simpl; intuition discriminate |]). apply NoDup_nil.
Qed.

End ReachableExamples.

(** C2, as stated, fails: the drawer's flag is not confined to
    [choosing_word] and [drawing].  In a lobby of three the owner starts the
    game: user 2 is selected and flagged while the room is in
    [selecting_drawer].  The preview runs out, user 2 chooses ["cat"], the
    room is in [drawing]; then user 2 leaves: the room goes to [interval]
    and user 2's row is still flagged. *)
Lemma C2_counterexample_flag_outside_guessing_phases :
  let o := Examples.idOracle in
  let s1 := start_game o (Some 1%nat) Examples.lobbyOfThree in
  let tick := fun d =>
    fst (phaseTimerTick selecting_drawer
           (fun r d' => fst (startWordChoicePhase r (Examples.player 2 None)
                               (Js.Arr ["apple"; "banana"; "cat"]) d')) d) in
  let s2 := iterate 6 tick s1 in
  let s3 := choose_word (Some 2%nat) "cat" s2 in
  let s4 := leave_room (Some 2%nat) s3 in
  reachable s1 /\ reachable s4
  /\ option_map roundPhase (room s1) = Some (Some selecting_drawer)
  /\ drawerCount (parts s1) = 1%nat
  /\ option_map roundPhase (room s3) = Some (Some drawing)
  /\ drawerCount (parts s3) = 1%nat
  /\ option_map roundPhase (room s4) = Some (Some interval)
  /\ drawerCount (parts s4) = 1%nat
  /\ ~ (forall db r,
          reachable db -> room db = Some r ->
          if phase_is (roundPhase r) choosing_word || phase_is (roundPhase r) drawing
          then drawerCount (parts db) = 1%nat
          else drawerCount (parts db) = 0%nat).
Proof.
  cbv zeta.
  assert (H1 : reachable (start_game Examples.idOracle (Some 1%nat) Examples.lobbyOfThree)).
  { eapply reach_step; [apply lobbyOfThree_reachable | apply step_start_game]. }
  split; [exact H1 |].
  split.
  { eapply reach_step; [| apply step_leave_room].
    eapply reach_step; [| apply step_choose_word].
    cbn [iterate].
    do 6 (eapply reach_step; [| apply step_selecting_tick]).
    exact H1. }
  split; [vm_compute; reflexivity |].
  split; [vm_compute; reflexivity |].
  split; [vm_compute; reflexivity |].
  split; [vm_compute; reflexivity |].
  split; [vm_compute; reflexivity |].
  split; [vm_compute; reflexivity |].
  intros Hclaim.
  specialize (Hclaim _ (set_roundRemainingTime 5
                          (set_roundPhase (Some selecting_drawer)
                             (set_currentWordOptions (Js.Arr ["apple"; "banana"; "cat"])
                                (set_drawnUserIds []
                                   (set_currentWord None
                                      (set_currentDrawerId (Some 2%nat)
                                         (set_drawerPointerIndex 2
                                            (set_drawnUserIds []
                                               (set_currentRound 1
                                                  (set_status playing
                                                     (set_drawerPointerIndex 1
                                                        (Examples.baseRoom "1v1"))))))))))))
                        H1 ltac:(vm_compute; reflexivity)).
  vm_compute in Hclaim. discriminate.
Qed.

(** C2, amended.  In every reachable state at most one participant has
    [isDrawer = true].  A successful drawer selection leaves exactly one
    participant flagged, the selected one, and does so with the room in
    [selecting_drawer]; entering [choosing_word], [drawing], [reveal] and
    [interval] does not write the flag (the reveal only adds the drawer's
    reward to a score), and when the drawer leaves mid-round the rows are
    kept as they are unless the room is deleted.  So the drawer stays
    flagged from [selecting_drawer] through [reveal] and [interval], until a
    new round, a word-choice timeout, a skipped turn or the next selection
    clears the flag. *)
Theorem C2_drawer_flag :
  (forall db, reachable db -> (drawerCount (parts db) <= 1)%nat)
  /\ (forall db o db' nd w,
        reachable db ->
        RoundPhases.selectDrawerAndStartWordChoice o db = (db', Selected nd w) ->
        drawerCount (parts db') = 1%nat
        /\ exists r', room db' = Some r'
                      /\ roundPhase r' = Some selecting_drawer
                      /\ currentDrawerId r' = Some (userId nd))
  /\ (forall r nd w db, parts (fst (startWordChoicePhase r nd w db)) = parts db)
  /\ (forall r db, parts (startDrawingPhase r db) = parts db)
  /\ (forall r db,
        map isDrawer (parts (fst (endDrawingPhase r db))) = map isDrawer (parts db))
  /\ (forall db, parts (startIntervalPhase db) = parts db)
  /\ (forall r u db,
        parts (fst (handleDrawerLeave r u db)) = parts db
        \/ parts (fst (handleDrawerLeave r u db)) = []).
Proof.
  split; [intros db H; apply (reachable_rowsOk db H) |].
  split.
  { intros db o db' nd w Hreach Hsel.
    destruct (select_exactly_one o db db' nd w (proj1 (reachable_rowsOk db Hreach)) Hsel)
      as (Hone & r' & Hr' & Hph & Hd & _).
    split; [exact Hone |]. exists r'. auto. }
  split; [reflexivity |].
  split; [reflexivity |].
  split; [apply endDrawingPhase_isDrawer |].
  split; [apply startIntervalPhase_parts |].
  apply handleDrawerLeave_parts.
Qed.

Lemma C2_drawer_flag_witness :
  (drawerCount (parts Examples.lobbyOfThree) <= 1)%nat
  /\ (drawerCount
        (parts (fst (RoundPhases.selectDrawerAndStartWordChoice Examples.idOracle
                       Examples.lobbyOfThree))) = 1%nat
      /\ exists r',
           room (fst (RoundPhases.selectDrawerAndStartWordChoice Examples.idOracle
                        Examples.lobbyOfThree)) = Some r'
           /\ roundPhase r' = Some selecting_drawer
           /\ currentDrawerId r' = Some (userId (Examples.player 2 None))).
Proof.
  split.
  - exact (proj1 C2_drawer_flag Examples.lobbyOfThree lobbyOfThree_reachable).
  - exact (proj1 (proj2 C2_drawer_flag) Examples.lobbyOfThree Examples.idOracle
             (fst (RoundPhases.selectDrawerAndStartWordChoice Examples.idOracle
                     Examples.lobbyOfThree))
             (Examples.player 2 None) (Js.Arr ["apple"; "banana"; "cat"])
             lobbyOfThree_reachable ltac:(vm_compute; reflexivity)).
Defined.

(* ===================================================================== *)
(** ** C3: team rotation *)
(* ===================================================================== *)

Section TeamRotation.

Import Rotation.

Lemma flat_map_after_map {A B C} (f : B -> list C) (g : A -> B) l :
  flat_map f (map g l) = flat_map (fun x => f (g x)) l.
Proof. induction l; simpl; [reflexivity | f_equal; assumption]. Qed.

Lemma enumerate_list (l : list RoomParticipant) :
  flat_map (fun i => opt_list (nth_error l i)) (seq 0 (List.length l)) = l.
Proof.
  induction l as [| x l IH]; [reflexivity |].
  cbn [List.length seq flat_map nth_error opt_list app]. f_equal.
  rewrite <- seq_shift, flat_map_after_map. exact IH.
Qed.

Lemma alternatingList_nil_l orangeTeam : alternatingList [] orangeTeam = orangeTeam.
Proof.
  unfold alternatingList. cbn [List.length Nat.max].
  rewrite <- (enumerate_list orangeTeam) at 2.
  apply flat_map_ext. intros i. destruct i; reflexivity.
Qed.

Lemma alternatingList_nil_r blueTeam : alternatingList blueTeam [] = blueTeam.
Proof.
  unfold alternatingList. cbn [List.length]. rewrite Nat.max_0_r.
  rewrite <- (enumerate_list blueTeam) at 2.
  apply flat_map_ext. intros i.
  replace (nth_error (@nil RoomParticipant) i) with (@None RoomParticipant)
    by (destruct i; reflexivity).
  apply app_nil_r.
Qed.

Lemma alternatingList_cons b blueTeam o orangeTeam :
  alternatingList (b :: blueTeam) (o :: orangeTeam)
  = b :: o :: alternatingList blueTeam orangeTeam.
Proof.
  unfold alternatingList. cbn [List.length]. rewrite <- Nat.succ_max_distr.
  cbn [seq flat_map nth_error opt_list app]. do 2 f_equal.
  rewrite <- seq_shift, flat_map_after_map. reflexivity.
Qed.

(** The alternating list holds exactly the members of the two teams. *)
Lemma alternatingList_perm blueTeam : forall orangeTeam,
  Permutation (alternatingList blueTeam orangeTeam) (blueTeam ++ orangeTeam).
Proof.
  induction blueTeam as [| b blueTeam IH]; intros orangeTeam.
  - rewrite alternatingList_nil_l. apply Permutation_refl.
  - destruct orangeTeam as [| o orangeTeam].
    + rewrite alternatingList_nil_r, app_nil_r. apply Permutation_refl.
    + rewrite alternatingList_cons. simpl. apply perm_skip.
      eapply Permutation_trans; [apply perm_skip, IH |].
      apply Permutation_middle.
Qed.

Variable alt : list RoomParticipant.
Variable d : RoomParticipant.
Hypothesis alt_nonempty : alt <> [].

Lemma total_pos : List.length alt <> 0%nat.
Proof. destruct alt; simpl; congruence. Qed.

(** The walk returns the first candidate, in walk order, that has not drawn
    yet, and moves the pointer just behind it. *)
Lemma walk_first_eligible drawn pointer idxs :
  walk alt drawn pointer idxs =
  match find (fun i => negb (includes drawn (userId (candidateAt alt d pointer i)))) idxs with
  | Some i => Chosen (candidateAt alt d pointer i) (((pointer + i) mod (List.length alt) + 1) mod (List.length alt))
  | None => NoneEligible
  end.
Proof.
  induction idxs as [| i idxs IH]; [reflexivity |].
  cbn [walk find].
  rewrite (nth_error_nth' alt d)
    by (apply Nat.mod_upper_bound; exact total_pos).
  fold (candidateAt alt d pointer i).
  destruct (includes drawn (userId (candidateAt alt d pointer i))); simpl; [exact IH | reflexivity].
Qed.

(** Every position of the list is met during a full walk. *)
Lemma walk_covers pointer k :
  (k < (List.length alt))%nat ->
  exists i, In i (seq 0 (List.length alt)) /\ ((pointer + i) mod (List.length alt) = k)%nat.
Proof.
  intros Hk. pose proof total_pos as Ht.
  exists ((k + (List.length alt) - pointer mod (List.length alt)) mod (List.length alt))%nat. split.
  - apply in_seq. split; [lia |]. simpl. apply Nat.mod_upper_bound. exact Ht.
  - rewrite Nat.Div0.add_mod_idemp_r, <- Nat.Div0.add_mod_idemp_l.
    assert (Hq : (pointer mod (List.length alt) < (List.length alt))%nat) by (apply Nat.mod_upper_bound; exact Ht).
    replace (pointer mod (List.length alt) + (k + (List.length alt) - pointer mod (List.length alt)))%nat
      with (k + 1 * List.length alt)%nat by lia.
    rewrite Nat.Div0.mod_add. apply Nat.mod_small. exact Hk.
Qed.

(** The full walk finds nobody exactly when every member has drawn. *)
Lemma walk_none_iff drawn pointer :
  walk alt drawn pointer (seq 0 (List.length alt)) = NoneEligible
  <-> forall c, In c alt -> includes drawn (userId c) = true.
Proof.
  rewrite walk_first_eligible. split.
  - intros H c Hc.
    destruct (find _ _) as [i |] eqn:Hf; [discriminate |].
    apply (In_nth alt c d) in Hc. destruct Hc as (k & Hk & Hnth).
    destruct (walk_covers pointer k Hk) as (i & Hi & Hik).
    pose proof (find_none _ _ Hf i Hi) as Hn. simpl in Hn.
    unfold candidateAt in Hn. rewrite Hik, Hnth in Hn.
    destruct (includes drawn (userId c)); [reflexivity | discriminate].
  - intros H.
    destruct (find _ _) as [i |] eqn:Hf; [| reflexivity].
    apply find_some in Hf. destruct Hf as [_ Hf].
    rewrite H in Hf; [discriminate |].
    unfold candidateAt. apply nth_In. apply Nat.mod_upper_bound. exact total_pos.
Qed.

(** A chosen candidate has not drawn in the current cycle. *)
Lemma walk_chosen_fresh drawn pointer idxs c p' :
  walk alt drawn pointer idxs = Chosen c p' -> includes drawn (userId c) = false.
Proof.
  rewrite walk_first_eligible.
  destruct (find _ _) as [i |] eqn:Hf; [| discriminate].
  intros H. inversion H; subst. apply find_some in Hf. destruct Hf as [_ Hf].
  destruct (includes drawn _); [discriminate | reflexivity].
Qed.

End TeamRotation.

Section TeamPick.

Import Rotation.

Variable participants : list RoomParticipant.

Let blueTeam := sortByUserId (filter (team_is "blue") participants).
Let orangeTeam := sortByUserId (filter (team_is "orange") participants).
Let alt := alternatingList blueTeam orangeTeam.

(** With an empty team the rotation is the flat one. *)
Lemma teamPick_degrades pointer drawn :
  blueTeam = [] \/ orangeTeam = [] ->
  teamPick participants pointer drawn = flatPick participants pointer drawn.
Proof.
  unfold teamPick. fold blueTeam orangeTeam.
  intros [H | H]; rewrite H; simpl; [| rewrite orb_true_r]; reflexivity.
Qed.

Lemma alternating_nonempty : blueTeam <> [] -> alt <> [].
Proof.
  intros Hb Ha.
  pose proof (alternatingList_perm blueTeam orangeTeam) as Hp. fold alt in Hp.
  rewrite Ha in Hp. apply Permutation_nil in Hp.
  destruct blueTeam; [contradiction | discriminate].
Qed.

(** With two non-empty teams: while somebody is not in [drawnUserIds], the
    first such candidate met from the pointer is selected and the array read
    from the row is kept; when everybody is in it, a new empty array is
    taken and the candidate is [alternatingList[pointer]], which exists only
    for a pointer within the list. *)
Lemma teamPick_two_teams pointer drawn :
  blueTeam <> [] -> orangeTeam <> [] ->
  ((exists c, In c alt /\ includes drawn (userId c) = false) ->
   exists c p', teamPick participants pointer drawn = Pick (Some c) p' drawn false
                /\ In c alt /\ includes drawn (userId c) = false)
  /\ ((forall c, In c alt -> includes drawn (userId c) = true) ->
      teamPick participants pointer drawn
      = Pick (nth_error alt pointer) ((pointer + 1) mod List.length alt)%nat [] true)
  /\ ((pointer < List.length alt)%nat <-> nth_error alt pointer <> None).
Proof.
  intros Hb Ho.
  assert (Ha : alt <> []) by (apply alternating_nonempty; exact Hb).
  assert (Hguard : Nat.eqb (List.length blueTeam) 0 || Nat.eqb (List.length orangeTeam) 0
                   = false).
  { destruct blueTeam; [contradiction |]. destruct orangeTeam; [contradiction |].
    reflexivity. }
  unfold teamPick. fold blueTeam orangeTeam. rewrite Hguard. fold alt.
  split; [| split].
  - intros (c & Hc & Hfresh).
    destruct (walk alt drawn pointer (seq 0 (List.length alt))) as [c' p' | |] eqn:Hw.
    + exists c', p'. split; [reflexivity |].
      split; [eapply walk_chosen_in; exact Hw |].
      destruct alt as [| a0 rest] eqn:Halt; [contradiction |].
    assert (Hne : a0 :: rest <> []) by discriminate.
      exact (walk_chosen_fresh (a0 :: rest) a0 Hne drawn pointer _ c' p' Hw).
    + destruct alt as [| a0 rest] eqn:Halt; [contradiction |].
      assert (Hne : a0 :: rest <> []) by discriminate.
      pose proof (proj1 (walk_none_iff (a0 :: rest) a0 Hne drawn pointer) Hw) as Hall.
      rewrite (Hall c Hc) in Hfresh. discriminate.
    + destruct alt as [| a0 rest] eqn:Halt; [contradiction |].
      assert (Hne : a0 :: rest <> []) by discriminate.
      rewrite (walk_first_eligible (a0 :: rest) a0 Hne) in Hw.
      destruct (find _ _); discriminate.
  - intros Hall.
    destruct alt as [| a0 rest] eqn:Halt; [contradiction |].
    assert (Hne : a0 :: rest <> []) by discriminate.
    rewrite (proj2 (walk_none_iff (a0 :: rest) a0 Hne drawn pointer) Hall).
    reflexivity.
  - symmetry. apply nth_error_Some.
Qed.

End TeamPick.

Section DrawnListStorage.

Import Rotation.

Lemma includes_In drawn u : includes drawn u = true <-> In u drawn.
Proof.
  unfold includes. rewrite existsb_exists. split.
  - intros (x & Hin & Hx). apply Nat.eqb_eq in Hx. subst. exact Hin.
  - intros Hin. exists u. split; [exact Hin | apply Nat.eqb_refl].
Qed.

(** The rotation takes a new array only in the reset branch of a team game,
    where every member of the two teams, the one picked included, is in the
    list read from the row. *)
Lemma pickDrawer_fresh mode ps pointer drawn nd p' d' :
  pickDrawer mode ps pointer drawn = Pick (Some nd) p' d' true ->
  mode <> "1v1" /\ d' = []
  /\ In (userId nd) drawn
  /\ (forall c, In c ps -> team c = Some "blue" \/ team c = Some "orange" ->
        In (userId c) drawn).
Proof.
  unfold pickDrawer.
  destruct (String.eqb mode "1v1") eqn:Em; [unfold flatPick; discriminate |].
  unfold teamPick.
  set (blueTeam := sortByUserId (filter (team_is "blue") ps)).
  set (orangeTeam := sortByUserId (filter (team_is "orange") ps)).
  destruct (Nat.eqb (List.length blueTeam) 0 || Nat.eqb (List.length orangeTeam) 0)
    eqn:Eg; [unfold flatPick; discriminate |].
  destruct (alternatingList blueTeam orangeTeam) as [| a0 rest] eqn:Halt.
  { cbn. intros [= Hn _ _]. destruct pointer; discriminate. }
  assert (Hne : a0 :: rest <> []) by discriminate.
  destruct (walk _ drawn pointer _) as [c q | |] eqn:W; [discriminate | | discriminate].
  intros [= Hn _ <-].
  pose proof (proj1 (walk_none_iff (a0 :: rest) a0 Hne drawn pointer) W) as Hall.
  split; [intros ->; discriminate |]. split; [reflexivity |].
  split; [apply includes_In, Hall; eapply nth_error_In; exact Hn |].
  intros c Hc Ht. apply includes_In, Hall. rewrite <- Halt.
  apply (Permutation_in _ (Permutation_sym (alternatingList_perm _ _))).
  apply in_or_app.
  destruct Ht as [Ht | Ht]; [left | right];
    apply (Permutation_in _ (Permutation_sym (sortByUserId_perm _)));
    apply filter_In; (split; [exact Hc |]);
    unfold team_is; rewrite Ht; reflexivity.
Qed.

(** What a selection leaves in the stored [drawnUserIds]: the list as it
    was, unless the reset branch ran, which needs every team member of the
    room in the stored list. *)
Lemma select_stored_list o db r :
  room db = Some r ->
  exists r',
    room (fst (RoundPhases.selectDrawerAndStartWordChoice o db)) = Some r'
    /\ (drawnUserIds r' = drawnUserIds r
        \/ exists nd w,
             snd (RoundPhases.selectDrawerAndStartWordChoice o db) = Selected nd w
             /\ drawnUserIds r' = [userId nd]
             /\ gameMode r <> "1v1"
             /\ In (userId nd) (drawnUserIds r)
             /\ forall c, In c (parts db) -> isActive c = true ->
                  team c = Some "blue" \/ team c = Some "orange" ->
                  In (userId c) (drawnUserIds r)).
Proof.
  intros Hr. unfold RoundPhases.selectDrawerAndStartWordChoice. rewrite Hr.
  destruct (sortByUserId (activeParticipants (parts db))) as [| p0 rest] eqn:Es;
    [exists r; split; [exact Hr | left; reflexivity] |].
  destruct (pickDrawer _ _ _ _) as [nextDrawer pointer drawn fresh |] eqn:Ep;
    [| exists r; split; [exact Hr | left; reflexivity]].
  destruct nextDrawer as [nd |];
    [| exists r; split; [exact Hr | left; reflexivity]].
  cbn [fst snd RoundPhases.startPhaseTimerAndBroadcast set_room room].
  eexists. split; [reflexivity |].
  destruct fresh.
  - right. exists nd. eexists. split; [reflexivity |].
    destruct (pickDrawer_fresh _ _ _ _ _ _ _ Ep) as (Hm & -> & Hnd & Hall).
    split; [destruct r; reflexivity |].
    split; [exact Hm |]. split; [exact Hnd |].
    intros c Hc Ha Ht. apply Hall; [| exact Ht].
    rewrite <- Es. apply (Permutation_in _ (Permutation_sym (sortByUserId_perm _))).
    unfold activeParticipants. apply filter_In. split; assumption.
  - left. destruct r; reflexivity.
Qed.

(** A stored list that is empty stays empty: the drawer is not recorded. *)
Lemma select_keeps_empty_list o db r :
  room db = Some r -> drawnUserIds r = [] ->
  option_map drawnUserIds
    (room (fst (RoundPhases.selectDrawerAndStartWordChoice o db))) = Some [].
Proof.
  intros Hr He.
  destruct (select_stored_list o db r Hr) as (r' & -> & [Hs | (nd & w & _ & _ & _ & Hin & _)]).
  - cbn. rewrite Hs, He. reflexivity.
  - rewrite He in Hin. destruct Hin.
Qed.

End DrawnListStorage.

Section EmptyDrawnList.

Import Rotation.

(** With nobody listed the walk stops at its first candidate, the one at the
    pointer. *)
Lemma pickDrawer_nobody_listed mode participants pointer :
  String.eqb mode "1v1" = false ->
  filter (team_is "blue") participants <> [] ->
  filter (team_is "orange") participants <> [] ->
  let alt := alternatingList (sortByUserId (filter (team_is "blue") participants))
               (sortByUserId (filter (team_is "orange") participants)) in
  let n := List.length alt in
  exists c,
    nth_error alt (pointer mod n) = Some c
    /\ pickDrawer mode participants pointer []
       = Pick (Some c) ((pointer mod n + 1) mod n)%nat [] false.
Proof.
  intros Hm Hb Ho alt n.
  assert (Hn : n <> 0%nat).
  { unfold n. intros Hz. apply length_zero_iff_nil in Hz.
    apply (alternating_nonempty participants); [| exact Hz].
    intros Hs. apply Hb. apply (f_equal (@List.length _)) in Hs.
    rewrite (Permutation_length (sortByUserId_perm _)) in Hs.
    apply length_zero_iff_nil. exact Hs. }
  assert (Hg : Nat.eqb (List.length (sortByUserId (filter (team_is "blue") participants))) 0
               || Nat.eqb (List.length (sortByUserId (filter (team_is "orange") participants))) 0
               = false).
  { rewrite !(Permutation_length (sortByUserId_perm _)).
    destruct (filter (team_is "blue") participants); [contradiction |].
    destruct (filter (team_is "orange") participants); [contradiction |].
    reflexivity. }
  unfold pickDrawer, teamPick. rewrite Hm, Hg. fold alt. fold n.
  destruct (nth_error alt (pointer mod n)) as [c |] eqn:Hc.
  - exists c. split; [reflexivity |].
    destruct n as [| k] eqn:En; [contradiction |].
    cbn [seq walk]. rewrite Nat.add_0_r. fold n. rewrite En, Hc. reflexivity.
  - apply nth_error_None in Hc. fold n in Hc.
    pose proof (Nat.mod_upper_bound pointer n Hn). lia.
Qed.

End EmptyDrawnList.

(** C3, at the failing input.  The drawers of a cycle are not recorded: the
    id of the new drawer is pushed onto the array that was read from the
    room row and the same array is assigned back, so [room.save()] writes
    nothing for [drawnUserIds].  A list that is empty, as [start_game]
    stores it, is empty after every selection; the walk then skips nobody
    and takes the candidate at the pointer, and the reset branch is never
    entered.

    Four players, users 1 and 3 blue, users 2 and 4 orange.  Users 1, 2 and
    3 draw, then user 2 leaves.  The alternating list of the three who are
    left is [1; 4; 3] and the pointer, 3, falls on user 1: user 1 is made
    drawer a second time although user 4, active on team orange, has not
    drawn.  Fed the list the three drawers should have left, [1; 2; 3], the
    same rotation skips user 1 and picks user 4. *)
Theorem C3_drawn_list_is_not_recorded :
  let select := RoundPhases.selectDrawerAndStartWordChoice in
  let o := Examples.idOracle in
  let run := runSelections select [o; o; o] Examples.teamGame in
  let left := leave_room (Some 2%nat) (fst run) in
  let next := select o left in
  (forall o' db r,
      room db = Some r -> drawnUserIds r = [] ->
      option_map drawnUserIds (room (fst (select o' db))) = Some [])
  /\ (forall mode participants pointer,
        String.eqb mode "1v1" = false ->
        filter (team_is "blue") participants <> [] ->
        filter (team_is "orange") participants <> [] ->
        let alt := Rotation.alternatingList
                     (Rotation.sortByUserId (filter (team_is "blue") participants))
                     (Rotation.sortByUserId (filter (team_is "orange") participants)) in
        let n := List.length alt in
        exists c,
          nth_error alt (pointer mod n) = Some c
          /\ Rotation.pickDrawer mode participants pointer []
             = Rotation.Pick (Some c) ((pointer mod n + 1) mod n)%nat [] false)
  /\ snd run = [Some 1; Some 2; Some 3]%nat
  /\ option_map drawnUserIds (room (fst run)) = Some []
  /\ option_map drawerPointerIndex (room left) = Some 3%nat
  /\ map (fun p => (userId p, team p, hasDrawn p)) (activeParticipants (parts left))
     = [(1, Some "blue", true); (3, Some "blue", true); (4, Some "orange", false)]%nat
  /\ selectedUser (snd next) = Some 1%nat
  /\ option_map drawnUserIds (room (fst next)) = Some []
  /\ map (fun p => (userId p, hasDrawn p)) (activeParticipants (parts (fst next)))
     = [(1, true); (3, true); (4, false)]%nat
  /\ Rotation.pickDrawer "team_vs_team"
       (Rotation.sortByUserId (activeParticipants (parts left))) 3 [1; 2; 3]%nat
     = Rotation.Pick (Some (Examples.player 4 (Some "orange"))) 2 [1; 2; 3]%nat false.
Proof.
  cbv zeta.
  split; [intros o' db r Hr He; exact (select_keeps_empty_list o' db r Hr He) |].
  split; [intros mode participants pointer Hm Hb Ho;
          exact (pickDrawer_nobody_listed mode participants pointer Hm Hb Ho) |].
  split; [vm_compute; reflexivity |].
  split; [vm_compute; reflexivity |].
  split; [vm_compute; reflexivity |].
  split; [vm_compute; reflexivity |].
  split; [vm_compute; reflexivity |].
  split; [vm_compute; reflexivity |].
  split; vm_compute; reflexivity.
Qed.

(* ===================================================================== *)
(** ** Further properties of the session engine *)
(* ===================================================================== *)

Section GuessOnce.



End GuessOnce.



(** X2.  The win check: the game ends exactly when some active participant
    has reached the room's target score.  When it does not end the store is
    left as it is; when it ends the room is [finished] and the participant
    rows are kept. *)
Theorem game_ends_when_target_reached r db :
  (snd (checkGameEnd r db) = true
   <-> exists p, In p (parts db) /\ isActive p = true /\ targetPoints r <= score p)
  /\ (snd (checkGameEnd r db) = false -> fst (checkGameEnd r db) = db)
  /\ (snd (checkGameEnd r db) = true ->
      room (fst (checkGameEnd r db)) = Some (set_status finished r)
      /\ parts (fst (checkGameEnd r db)) = parts db).
Proof.
  unfold checkGameEnd.
  destruct (find _ _) as [p |] eqn:E; cbn [fst snd].
  - split; [| split].
    + split; [intros _ | reflexivity].
      apply find_some in E as [Hin Hsc].
      apply (Permutation_in _ (sortByScoreDesc_perm _)) in Hin.
      unfold activeParticipants in Hin. apply filter_In in Hin as [Hin Hact].
      exists p. split; [exact Hin | split; [exact Hact |]].
      apply Z.leb_le. exact Hsc.
    + discriminate.
    + intros _. split; [apply endGame_room | apply endGame_parts].
  - split; [| split].
    + split; [discriminate |].
      intros (p & Hin & Hact & Hsc). exfalso.
      assert (Hp : In p (sortByScoreDesc (activeParticipants (parts db)))).
      { apply (Permutation_in _ (Permutation_sym (sortByScoreDesc_perm _))).
        unfold activeParticipants. apply filter_In. split; assumption. }
      apply (find_none _ _ E) in Hp. apply Z.leb_gt in Hp. lia.
    + reflexivity.
    + discriminate.
Qed.

Lemma game_ends_when_target_reached_witness :
  (exists p, In p (parts Examples.finalDb) /\ isActive p = true
             /\ targetPoints (set_status playing (Examples.baseRoom "1v1")) <= score p)
  /\ snd (checkGameEnd (set_status playing (Examples.baseRoom "1v1")) Examples.finalDb)
     = true.
Proof.
  assert (Hwin : exists p, In p (parts Examples.finalDb) /\ isActive p = true
                   /\ targetPoints (set_status playing (Examples.baseRoom "1v1"))
                      <= score p).
  { exists (set_score 120 (Examples.player 2 None)).
    split; [right; left; reflexivity | split; [reflexivity | cbn; lia]]. }
  split; [exact Hwin |].
  exact (proj2 (proj1 (game_ends_when_target_reached
                         (set_status playing (Examples.baseRoom "1v1")) Examples.finalDb))
           Hwin).
Defined.

Section DrawerReward.

Lemma set_score_same p : set_score (score p + 0) p = p.
Proof. destruct p; unfold set_score; cbn. rewrite Z.add_0_r. reflexivity. Qed.

End DrawerReward.

(** X3.  The drawer's reward at the end of the drawing phase: two points
    for every participant row flagged as having guessed (active or not),
    capped by [maxPointsPerRound], and nothing when nobody guessed or when
    the drawer's row is missing.  It is added to the drawer's row; no other
    row changes. *)
Theorem drawer_reward r db :
  let guessed := countWhere hasGuessedThisRound (parts db) in
  let reward := if 0 <? guessed then Z.min (guessed * 2) (maxPointsPerRound r) else 0 in
  (0 <= maxPointsPerRound r -> 0 <= reward <= maxPointsPerRound r)
  /\ (forall d, findByUserOpt (currentDrawerId r) (parts db) = Some d ->
        parts (fst (endDrawingPhase r db))
        = map (fun p => if Nat.eqb (id p) (id d) then set_score (score p + reward) p else p)
            (parts db))
  /\ (findByUserOpt (currentDrawerId r) (parts db) = None ->
        parts (fst (endDrawingPhase r db)) = parts db).
Proof.
  cbv zeta. split; [| split].
  - intros Hmax. destruct (0 <? _) eqn:E; [| lia].
    apply Z.ltb_lt in E. lia.
  - intros d Hd. unfold endDrawingPhase. rewrite checkGameEnd_parts.
    cbn [parts set_room set_parts]. rewrite Hd.
    destruct (0 <? _); [reflexivity |].
    symmetry. erewrite map_ext; [apply map_id |].
    intros p. destruct (Nat.eqb _ _); [apply set_score_same | reflexivity].
  - intros Hd. unfold endDrawingPhase. rewrite checkGameEnd_parts.
    cbn [parts set_room set_parts]. rewrite Hd. reflexivity.
Qed.

Lemma drawer_reward_witness :
  0 <= (if 0 <? countWhere hasGuessedThisRound (parts Examples.guesserLeft)
        then Z.min (countWhere hasGuessedThisRound (parts Examples.guesserLeft) * 2) 10
        else 0) <= 10.
Proof.
  apply (proj1 (drawer_reward (Examples.drawingRoom "1v1") Examples.guesserLeft)).
  vm_compute. discriminate.
Defined.

Section Countdown.

Lemma set_room_same db r : room db = Some r -> set_room (Some r) db = db.
Proof. intros H. destruct db; cbn in *. subst. reflexivity. Qed.

Lemma set_remaining_same r : set_roundRemainingTime (roundRemainingTime r) r = r.
Proof. destruct r; reflexivity. Qed.

Lemma set_room_twice a b db : set_room a (set_room b db) = set_room a db.
Proof. reflexivity. Qed.

Lemma set_remaining_twice a b r :
  set_roundRemainingTime a (set_roundRemainingTime b r) = set_roundRemainingTime a r.
Proof. reflexivity. Qed.

Variable key : Phase.
Variable cb : Room -> Db -> Db.

Lemma phase_is_refl : phase_is (Some key) key = true.
Proof. destruct key; reflexivity. Qed.

Lemma phaseTimerTick_running db r :
  room db = Some r -> roundPhase r = Some key -> 0 < roundRemainingTime r ->
  phaseTimerTick key cb db
  = (set_room (Some (set_roundRemainingTime (roundRemainingTime r - 1) r)) db, Continue).
Proof.
  intros Hr Hk Hpos. unfold phaseTimerTick. rewrite Hr, Hk, phase_is_refl.
  cbn [negb orb]. destruct (_ <=? _) eqn:E; [apply Z.leb_le in E; lia | reflexivity].
Qed.

Lemma phaseTimerTick_expired db r :
  room db = Some r -> roundPhase r = Some key -> roundRemainingTime r <= 0 ->
  phaseTimerTick key cb db = (cb r db, Stopped).
Proof.
  intros Hr Hk Hz. unfold phaseTimerTick. rewrite Hr, Hk, phase_is_refl.
  cbn [negb orb]. destruct (_ <=? _) eqn:E; [reflexivity | apply Z.leb_gt in E; lia].
Qed.

Lemma countdown_steps (k : nat) : forall db r,
  room db = Some r -> roundPhase r = Some key -> Z.of_nat k <= roundRemainingTime r ->
  iterate k (fun d => fst (phaseTimerTick key cb d)) db
  = set_room (Some (set_roundRemainingTime (roundRemainingTime r - Z.of_nat k) r)) db.
Proof.
  induction k as [| k IH]; intros db r Hr Hk Hle.
  - cbn [iterate]. rewrite Z.sub_0_r, set_remaining_same. symmetry. apply set_room_same, Hr.
  - cbn [iterate]. rewrite (phaseTimerTick_running db r Hr Hk) by lia. cbn [fst].
    rewrite (IH _ (set_roundRemainingTime (roundRemainingTime r - 1) r)).
    + rewrite set_room_twice, set_remaining_twice. do 3 f_equal.
      destruct r; cbn. lia.
    + reflexivity.
    + destruct r; exact Hk.
    + destruct r; cbn in *. lia.
Qed.

End Countdown.

(** X4.  The ticker of a phase counts the stored remaining time down by one
    per firing and hands over when it finds zero: as long as nothing else
    writes the room, a phase entered with [n] seconds keeps its phase for
    [n] firings, the firing after [k <= n] of them finds [n - k] seconds,
    and firing [n + 1] runs the phase's continuation, once, on the room with
    zero seconds left, and stops the ticker. *)
Theorem phase_countdown key cb db r (n : nat) :
  room db = Some r ->
  roundPhase r = Some key ->
  roundRemainingTime r = Z.of_nat n ->
  let tick := fun d => fst (phaseTimerTick key cb d) in
  (forall k, (k <= n)%nat ->
     iterate k tick db
     = set_room (Some (set_roundRemainingTime (Z.of_nat (n - k)) r)) db)
  /\ (forall k, (k < n)%nat -> snd (phaseTimerTick key cb (iterate k tick db)) = Continue)
  /\ phaseTimerTick key cb (iterate n tick db)
     = (cb (set_roundRemainingTime 0 r)
          (set_room (Some (set_roundRemainingTime 0 r)) db), Stopped).
Proof.
  intros Hr Hk Hn tick.
  assert (Hsteps : forall k, (k <= n)%nat ->
            iterate k tick db
            = set_room (Some (set_roundRemainingTime (Z.of_nat (n - k)) r)) db).
  { intros k Hle. unfold tick. rewrite (countdown_steps key cb k db r Hr Hk) by lia.
    do 3 f_equal. lia. }
  split; [exact Hsteps | split].
  - intros k Hlt. rewrite Hsteps by lia.
    erewrite phaseTimerTick_running; [reflexivity | reflexivity | |].
    + destruct r; exact Hk.
    + destruct r; cbn. lia.
  - rewrite Hsteps by lia. rewrite Nat.sub_diag.
    apply phaseTimerTick_expired; [reflexivity | destruct r; exact Hk | destruct r; cbn; lia].
Qed.

Lemma phase_countdown_witness :
  let cb := fun r d => fst (intervalTimeout Examples.idOracle r d) in
  let db := RoundPhases.startIntervalPhase Examples.ffaDrawing in
  let r := set_roundRemainingTime 4
             (set_roundPhase (Some interval) (Examples.drawingRoom "1v1")) in
  let tick := fun d => fst (phaseTimerTick interval cb d) in
  (room db = Some r /\ roundPhase r = Some interval /\ roundRemainingTime r = 4)
  /\ (forall k, (k <= 4)%nat ->
        iterate k tick db
        = set_room (Some (set_roundRemainingTime (Z.of_nat (4 - k)) r)) db)
  /\ (forall k, (k < 4)%nat -> snd (phaseTimerTick interval cb (iterate k tick db)) = Continue)
  /\ phaseTimerTick interval cb (iterate 4 tick db)
     = (cb (set_roundRemainingTime 0 r)
          (set_room (Some (set_roundRemainingTime 0 r)) db), Stopped).
Proof.
  cbv zeta. split; [repeat split |].
  exact (phase_countdown interval
           (fun r d => fst (intervalTimeout Examples.idOracle r d))
           (RoundPhases.startIntervalPhase Examples.ffaDrawing)
           (set_roundRemainingTime 4
              (set_roundPhase (Some interval) (Examples.drawingRoom "1v1")))
           4 eq_refl eq_refl eq_refl).
Defined.

Section DrawingCountdown.

Lemma drawingTick_running db r :
  room db = Some r -> roundPhase r = Some drawing -> 0 < roundRemainingTime r ->
  drawingTick db
  = (set_room (Some (set_roundRemainingTime (roundRemainingTime r - 1) r)) db, Continue).
Proof.
  intros Hr Hk Hpos. unfold drawingTick. rewrite Hr, Hk.
  cbn [phase_is Phase_eqb negb orb].
  destruct (_ <=? _) eqn:E; [apply Z.leb_le in E; lia | reflexivity].
Qed.

Lemma drawingTick_expired db r :
  room db = Some r -> roundPhase r = Some drawing -> roundRemainingTime r <= 0 ->
  drawingTick db = (fst (endDrawingPhase r db), Stopped).
Proof.
  intros Hr Hk Hz. unfold drawingTick. rewrite Hr, Hk.
  cbn [phase_is Phase_eqb negb orb].
  destruct (_ <=? _) eqn:E; [reflexivity | apply Z.leb_gt in E; lia].
Qed.

Lemma drawing_steps (k : nat) : forall db r,
  room db = Some r -> roundPhase r = Some drawing -> Z.of_nat k <= roundRemainingTime r ->
  iterate k (fun d => fst (drawingTick d)) db
  = set_room (Some (set_roundRemainingTime (roundRemainingTime r - Z.of_nat k) r)) db.
Proof.
  induction k as [| k IH]; intros db r Hr Hk Hle.
  - cbn [iterate]. rewrite Z.sub_0_r, set_remaining_same. symmetry. apply set_room_same, Hr.
  - cbn [iterate]. rewrite (drawingTick_running db r Hr Hk) by lia. cbn [fst].
    rewrite (IH _ (set_roundRemainingTime (roundRemainingTime r - 1) r)).
    + rewrite set_room_twice, set_remaining_twice. do 3 f_equal.
      destruct r; cbn. lia.
    + reflexivity.
    + destruct r; exact Hk.
    + destruct r; cbn in *. lia.
Qed.

End DrawingCountdown.

(** X5.  The drawing phase lasts its 80 seconds: after [startDrawingPhase],
    and as long as nothing else writes the room (no correct guess, nobody
    leaving), each of the first 80 firings of the drawing ticker takes one
    second off and goes on; firing 81 finds zero, ends the drawing phase on
    the room as stored and stops: the room is then in [reveal]. *)
Theorem drawing_phase_runs_its_time r db :
  let started := startDrawingPhase r db in
  let tick := fun d => fst (drawingTick d) in
  let after := fun k : nat =>
    set_roundRemainingTime (80 - Z.of_nat k) (set_roundPhase (Some drawing) r) in
  (forall k, (k <= 80)%nat -> iterate k tick started = set_room (Some (after k)) db)
  /\ (forall k, (k < 80)%nat -> snd (drawingTick (iterate k tick started)) = Continue)
  /\ drawingTick (iterate 80 tick started)
     = (fst (endDrawingPhase (after 80%nat) (set_room (Some (after 80%nat)) db)), Stopped)
  /\ exists r', room (fst (drawingTick (iterate 80 tick started))) = Some r'
                /\ roundPhase r' = Some reveal.
Proof.
  intros started tick after.
  assert (Hsteps : forall k, (k <= 80)%nat ->
            iterate k tick started = set_room (Some (after k)) db).
  { intros k Hle. unfold tick, started, startDrawingPhase.
    erewrite drawing_steps; [| reflexivity | destruct r; reflexivity | destruct r; cbn; lia].
    rewrite set_room_twice. reflexivity. }
  assert (Hend : drawingTick (iterate 80 tick started)
                 = (fst (endDrawingPhase (after 80%nat) (set_room (Some (after 80%nat)) db)),
                    Stopped)).
  { rewrite Hsteps by lia.
    apply drawingTick_expired; [reflexivity | destruct r; reflexivity | destruct r; cbn; lia]. }
  split; [exact Hsteps | split; [| split; [exact Hend |]]].
  - intros k Hlt. rewrite Hsteps by lia.
    erewrite drawingTick_running;
      [reflexivity | reflexivity | destruct r; reflexivity
      | unfold after, set_roundRemainingTime; cbn [roundRemainingTime]; lia].
  - rewrite Hend. cbn [fst].
    destruct (endDrawingPhase_room (after 80%nat) (set_room (Some (after 80%nat)) db))
      as (r' & Hr' & Hrev & _).
    exists r'. split; assumption.
Qed.

Section SelectionRecords.

Import Rotation.

(** The rotation either keeps the array read from the row or takes a new
    empty one. *)
Lemma pickDrawer_drawn mode ps pointer drawn nd p' d' f :
  pickDrawer mode ps pointer drawn = Pick nd p' d' f ->
  (f = false /\ d' = drawn) \/ (f = true /\ d' = []).
Proof.
  unfold pickDrawer, teamPick, flatPick.
  destruct (String.eqb mode "1v1"); [intros [= _ _ <- <-]; left; split; reflexivity |].
  destruct (_ || _); [intros [= _ _ <- <-]; left; split; reflexivity |].
  destruct (walk _ _ _ _);
    [intros [= _ _ <- <-]; left | intros [= _ _ <- <-]; right | discriminate];
    split; reflexivity.
Qed.

(** The flat rotation never takes a new array. *)
Lemma pickDrawer_flat_drawn ps pointer drawn nd p' d' f :
  pickDrawer "1v1" ps pointer drawn = Pick nd p' d' f -> f = false.
Proof. unfold pickDrawer, flatPick. cbn. intros [= _ _ _ <-]. reflexivity. Qed.

Lemma teams_disjoint p : team_is "blue" p && team_is "orange" p = false.
Proof.
  unfold team_is. destruct (team p) as [t |]; [| reflexivity]. cbn [opt_string_eqb].
  destruct (String.eqb t "blue") eqn:E; [| reflexivity].
  apply String.eqb_eq in E. subst t. reflexivity.
Qed.

Lemma filter_two_length {A} (f g : A -> bool) l :
  (forall x, f x && g x = false) ->
  (List.length (filter f l) + List.length (filter g l) <= List.length l)%nat.
Proof.
  intros Hd. induction l as [| a l IH]; [cbn; lia |].
  cbn [filter]. specialize (Hd a).
  destruct (f a), (g a); cbn [List.length] in *; try discriminate; lia.
Qed.

Lemma sortByUserId_length l : List.length (sortByUserId l) = List.length l.
Proof. apply Permutation_length, sortByUserId_perm. Qed.

Lemma alternating_length ps :
  (List.length (alternatingList (sortByUserId (filter (team_is "blue") ps))
                  (sortByUserId (filter (team_is "orange") ps)))
   <= List.length ps)%nat.
Proof.
  rewrite (Permutation_length (alternatingList_perm _ _)), length_app,
    !sortByUserId_length.
  apply filter_two_length, teams_disjoint.
Qed.

Lemma walk_chosen_pointer alt drawn pointer idxs c q :
  walk alt drawn pointer idxs = Chosen c q -> (q < List.length alt)%nat.
Proof.
  induction idxs as [| i idxs IH]; [discriminate |].
  cbn [walk].
  destruct (nth_error alt _) as [candidate |] eqn:E; [| discriminate].
  destruct (includes drawn (userId candidate)); [exact IH |].
  intros [= _ <-]. apply Nat.mod_upper_bound.
  intros Hz. apply length_zero_iff_nil in Hz. subst alt.
  destruct ((pointer + i) mod List.length (@nil RoomParticipant))%nat; discriminate.
Qed.

Lemma pickDrawer_pointer mode ps pointer drawn nd p' d' f :
  pickDrawer mode ps pointer drawn = Pick (Some nd) p' d' f ->
  (p' < List.length ps)%nat.
Proof.
  assert (Hflat : flatPick ps pointer drawn = Pick (Some nd) p' d' f ->
                  (p' < List.length ps)%nat).
  { unfold flatPick. intros [= Hn <- _ _].
    apply Nat.mod_upper_bound. intros Hz. rewrite Hz in Hn.
    apply length_zero_iff_nil in Hz. subst ps.
    destruct (pointer mod 0)%nat; discriminate. }
  unfold pickDrawer, teamPick.
  destruct (String.eqb mode "1v1"); [exact Hflat |].
  destruct (_ || _); [exact Hflat |].
  pose proof (alternating_length ps) as Hlen.
  destruct (walk _ drawn pointer _) as [c q | |] eqn:W.
  - intros [= _ <- _ _]. apply walk_chosen_pointer in W. lia.
  - intros [= Hn <- _ _]. eapply Nat.lt_le_trans; [| exact Hlen].
    apply Nat.mod_upper_bound. intros Hz. apply length_zero_iff_nil in Hz.
    rewrite Hz in Hn. destruct pointer; discriminate.
  - discriminate.
Qed.

End SelectionRecords.

(** X6.  What a drawer selection leaves behind.  The selected drawer is an
    active participant of the room; the room names that user as current
    drawer, with five seconds of [selecting_drawer] ahead; and the stored
    rotation pointer is below the number of active participants.  The
    stored [drawnUserIds] is left as it was: the drawer's id is pushed onto
    the array read from the row, which [room.save()] does not write.  The
    one exception is the reset branch of a team game, which stores the list
    holding the new drawer alone and is taken only when the stored list
    already holds every active blue or orange participant, the new drawer
    included.  So a ["1v1"] room never changes its list, and an empty list
    stays empty. *)
Theorem selection_records_drawer o db db' nd w :
  RoundPhases.selectDrawerAndStartWordChoice o db = (db', Selected nd w) ->
  exists r r',
    room db = Some r /\ room db' = Some r'
    /\ In nd (parts db) /\ isActive nd = true
    /\ currentDrawerId r' = Some (userId nd)
    /\ roundRemainingTime r' = 5
    /\ (drawnUserIds r' = drawnUserIds r
        \/ (drawnUserIds r' = [userId nd]
            /\ gameMode r <> "1v1"
            /\ In (userId nd) (drawnUserIds r)
            /\ forall c, In c (parts db) -> isActive c = true ->
                 team c = Some "blue" \/ team c = Some "orange" ->
                 In (userId c) (drawnUserIds r)))
    /\ (gameMode r = "1v1" -> drawnUserIds r' = drawnUserIds r)
    /\ (drawnUserIds r = [] -> drawnUserIds r' = [])
    /\ (drawerPointerIndex r' < List.length (activeParticipants (parts db)))%nat.
Proof.
  intros Hsel.
  destruct (room db) as [r |] eqn:Hr;
    [| unfold RoundPhases.selectDrawerAndStartWordChoice in Hsel;
       rewrite Hr in Hsel; discriminate].
  destruct (select_stored_list o db r Hr) as (r' & Hr' & Hstored).
  rewrite Hsel in Hr', Hstored. cbn [fst snd] in Hr', Hstored.
  assert (Hlist : drawnUserIds r' = drawnUserIds r
                  \/ (drawnUserIds r' = [userId nd]
                      /\ gameMode r <> "1v1"
                      /\ In (userId nd) (drawnUserIds r)
                      /\ forall c, In c (parts db) -> isActive c = true ->
                           team c = Some "blue" \/ team c = Some "orange" ->
                           In (userId c) (drawnUserIds r))).
  { destruct Hstored as [Hs | (nd0 & w0 & [= <- <-] & Hs)]; [left | right]; exact Hs. }
  exists r, r'. split; [reflexivity |]. split; [exact Hr' |].
  revert Hsel Hr'. unfold RoundPhases.selectDrawerAndStartWordChoice. rewrite Hr.
  destruct (Rotation.sortByUserId (activeParticipants (parts db)))
    as [| p0 rest] eqn:Es; [discriminate |].
  destruct (Rotation.pickDrawer _ _ _ _) as [nextDrawer pointer drawn fresh |] eqn:Ep;
    [| discriminate].
  destruct nextDrawer as [nd' |]; [| discriminate].
  intros [= <- <- <-].
  cbn [RoundPhases.startPhaseTimerAndBroadcast set_room room]. intros [= <-].
  assert (Hin : In nd' (activeParticipants (parts db))).
  { apply (Permutation_in _ (sortByUserId_perm _)). rewrite Es.
    eapply pickDrawer_member. exact Ep. }
  unfold activeParticipants in Hin. apply filter_In in Hin as [Hin Hact].
  split; [exact Hin |]. split; [exact Hact |].
  split; [reflexivity |]. split; [reflexivity |].
  split; [exact Hlist |].
  split; [| split].
  - intros Hmode. destruct Hlist as [Hs | (_ & Hm & _)]; [exact Hs | contradiction].
  - intros He. destruct Hlist as [Hs | (_ & _ & Hnd & _)].
    + rewrite Hs. exact He.
    + rewrite He in Hnd. destruct Hnd.
  - replace (drawerPointerIndex _) with pointer by (destruct r; reflexivity).
    apply pickDrawer_pointer in Ep.
    rewrite <- Es, sortByUserId_length in Ep. exact Ep.
Qed.

Lemma selection_records_drawer_witness :
  exists r',
    room (fst (RoundPhases.selectDrawerAndStartWordChoice Examples.idOracle
                 Examples.lobbyOfThree)) = Some r'
    /\ currentDrawerId r' = Some 2%nat
    /\ drawnUserIds r' = []
    /\ (drawerPointerIndex r' < 3)%nat.
Proof.
  destruct (selection_records_drawer Examples.idOracle Examples.lobbyOfThree
              (fst (RoundPhases.selectDrawerAndStartWordChoice Examples.idOracle
                      Examples.lobbyOfThree))
              (Examples.player 2 None)
              (Js.Arr ["apple"; "banana"; "cat"]) eq_refl)
    as (r & r' & Hr & Hr' & _ & _ & Hd & _ & _ & _ & He & Hp).
  exists r'. split; [exact Hr' |]. split; [exact Hd |].
  split; [| exact Hp].
  apply He. injection Hr as <-. reflexivity.
Defined.

(* ===================================================================== *)
(** ** Leaving, disconnecting and coming back *)
(* ===================================================================== *)

(** X7.  When the owner leaves through [leave_room] the room row and all its
    participant rows are destroyed, in whatever status or phase the room
    is; the users and the ledger are left as they are, so no entry fee is
    returned. *)
Theorem owner_leave_deletes_room db r :
  room db = Some r ->
  leave_room (Some (ownerId r)) db = mkDb None [] (users db) (ledger db).
Proof.
  intros Hr. unfold leave_room. rewrite Hr, Nat.eqb_refl.
  unfold handleOwnerLeave. rewrite Nat.eqb_refl. reflexivity.
Qed.

Lemma owner_leave_deletes_room_witness :
  room Examples.ffaDrawing = Some (Examples.drawingRoom "1v1")
  /\ leave_room (Some 1%nat) Examples.ffaDrawing = mkDb None [] Examples.someUsers [].
Proof.
  split; [reflexivity |].
  exact (owner_leave_deletes_room Examples.ffaDrawing (Examples.drawingRoom "1v1") eq_refl).
Defined.

Section Leaving.

Lemma deactivate_other u p ps :
  In p ps -> userId p <> u -> In p (deactivate u ps).
Proof.
  intros Hin Hne. unfold deactivate, updateWhere. apply in_map_iff.
  exists p. split; [| exact Hin].
  destruct (Nat.eqb (userId p) u) eqn:E; [apply Nat.eqb_eq in E; contradiction | reflexivity].
Qed.

Lemma deactivate_active u q ps :
  In q (deactivate u ps) -> isActive q = true -> In q ps /\ userId q <> u.
Proof.
  unfold deactivate, updateWhere. intros Hin Hact.
  apply in_map_iff in Hin as (p & Hq & Hin).
  destruct (Nat.eqb (userId p) u) eqn:E.
  - subst q. destruct p; discriminate.
  - subst q. split; [exact Hin |]. apply Nat.eqb_neq. exact E.
Qed.

Lemma deactivate_scores u ps : map score (deactivate u ps) = map score ps.
Proof.
  unfold deactivate, updateWhere. rewrite map_map. apply map_ext.
  intros p. destruct (Nat.eqb _ _); [destruct p |]; reflexivity.
Qed.

(** The owner is present: one of the owner's rows is active. *)
Lemma owner_stays r u ps :
  u <> ownerId r ->
  (exists p, In p ps /\ userId p = ownerId r /\ isActive p = true) ->
  Nat.eqb (List.length (activeParticipants (deactivate u ps))) 0 = false
  /\ existsb (fun p => Nat.eqb (userId p) (ownerId r))
       (activeParticipants (deactivate u ps)) = true.
Proof.
  intros Hne (p & Hin & Hown & Hact).
  assert (Hp : In p (activeParticipants (deactivate u ps))).
  { unfold activeParticipants. apply filter_In. split; [| exact Hact].
    apply deactivate_other; [exact Hin | congruence]. }
  split.
  - destruct (activeParticipants _); [contradiction | reflexivity].
  - apply existsb_exists. exists p. split; [exact Hp | apply Nat.eqb_eq, Hown].
Qed.

Lemma owner_gone r u ps :
  (forall p, In p ps -> userId p = ownerId r -> isActive p = false) ->
  existsb (fun p => Nat.eqb (userId p) (ownerId r))
    (activeParticipants (deactivate u ps)) = false.
Proof.
  intros Hgone. destruct (existsb _ _) eqn:E; [| reflexivity].
  apply existsb_exists in E as (q & Hq & Hown). apply Nat.eqb_eq in Hown.
  unfold activeParticipants in Hq. apply filter_In in Hq as [Hq Hact].
  destruct (deactivate_active _ _ _ Hq Hact) as [Hin _].
  rewrite (Hgone q Hin Hown) in Hact. discriminate.
Qed.

Lemma checkAndCloseEmptyRoom_room db r :
  room db = Some r ->
  fst (checkAndCloseEmptyRoom db)
  = set_room (Some (if countWhere isActive (parts db) =? 1
                    then set_status inactive r else r)) db.
Proof.
  intros Hr. unfold checkAndCloseEmptyRoom. rewrite Hr.
  destruct (_ =? 1); [reflexivity |]. cbn [fst]. symmetry. apply set_room_same, Hr.
Qed.

Lemma checkAndMaybeDeleteRoom_keeps d r0 :
  room d = Some r0 ->
  Nat.eqb (List.length (activeParticipants (parts d))) 0 = false ->
  existsb (fun p => Nat.eqb (userId p) (ownerId r0)) (activeParticipants (parts d)) = true ->
  checkAndMaybeDeleteRoom d = d.
Proof.
  intros Hr Hlen Hex. unfold checkAndMaybeDeleteRoom. rewrite Hr, Hlen, Hex. reflexivity.
Qed.

Lemma checkAndMaybeDeleteRoom_deletes d r0 :
  room d = Some r0 ->
  existsb (fun p => Nat.eqb (userId p) (ownerId r0)) (activeParticipants (parts d)) = false ->
  checkAndMaybeDeleteRoom d = deleteRoom d.
Proof.
  intros Hr Hex. unfold checkAndMaybeDeleteRoom. rewrite Hr, Hex.
  destruct (Nat.eqb _ 0); reflexivity.
Qed.

(** Leaving while the owner is present keeps the room: the rows are the old
    ones with the leaver's deactivated, users and ledger are untouched. *)
Lemma leave_room_kept db r u :
  room db = Some r -> u <> ownerId r ->
  (exists p, In p (parts db) /\ userId p = ownerId r /\ isActive p = true) ->
  exists r', room (leave_room (Some u) db) = Some r'
             /\ parts (leave_room (Some u) db) = deactivate u (parts db)
             /\ users (leave_room (Some u) db) = users db
             /\ ledger (leave_room (Some u) db) = ledger db.
Proof.
  intros Hr Hne Hown. unfold leave_room. rewrite Hr.
  destruct (Nat.eqb (ownerId r) u) eqn:E; [apply Nat.eqb_eq in E; congruence |].
  destruct (owner_stays r u (parts db) Hne Hown) as [Hlen Hex].
  assert (Hkeep : forall d r0, room d = Some r0 ->
            exists r', room (fst (checkAndCloseEmptyRoom d)) = Some r'
                       /\ parts (fst (checkAndCloseEmptyRoom d)) = parts d
                       /\ users (fst (checkAndCloseEmptyRoom d)) = users d
                       /\ ledger (fst (checkAndCloseEmptyRoom d)) = ledger d).
  { intros d r0 Hd. rewrite (checkAndCloseEmptyRoom_room d r0 Hd).
    eexists. repeat split. }
  assert (Hdone : forall d, (exists r0, room d = Some r0) ->
            parts d = deactivate u (parts db) -> users d = users db ->
            ledger d = ledger db ->
            exists r', room (fst (checkAndCloseEmptyRoom d)) = Some r'
                       /\ parts (fst (checkAndCloseEmptyRoom d)) = deactivate u (parts db)
                       /\ users (fst (checkAndCloseEmptyRoom d)) = users db
                       /\ ledger (fst (checkAndCloseEmptyRoom d)) = ledger db).
  { intros d (r0 & Hd) Hp Hu Hl. destruct (Hkeep d r0 Hd) as (r' & A & B & C & D).
    exists r'. rewrite A, B, C, D. repeat split; assumption. }
  destruct (Status_eqb (status r) playing).
  - unfold handleDrawerLeave.
    destruct (_ || _); cbn [fst].
    + apply Hdone; [exists r; exact Hr | reflexivity ..].
    + erewrite checkAndMaybeDeleteRoom_keeps;
        [| reflexivity | exact Hlen | destruct r; exact Hex].
      apply Hdone; [eexists; reflexivity | reflexivity ..].
  - apply Hdone; [exists r; exact Hr | reflexivity ..].
Qed.

End Leaving.

(** X8.  The drawer (not the owner) leaves during the drawing phase of a
    running game.  While the owner is present the round is abandoned
    without a reveal: the room goes to [interval] with four seconds, the
    word, the word options and the current drawer are cleared, no score
    changes (neither drawer reward nor win check), coins and ledger are
    untouched, and the room is marked [inactive] when exactly one active
    participant is left.  When no row of the owner is active any more, the
    room and its participant rows are destroyed instead. *)
Theorem drawer_leave_abandons_round db r u :
  room db = Some r -> u <> ownerId r -> status r = playing ->
  currentDrawerId r = Some u -> roundPhase r = Some drawing ->
  let ps := deactivate u (parts db) in
  let db' := leave_room (Some u) db in
  ((exists p, In p (parts db) /\ userId p = ownerId r /\ isActive p = true) ->
     parts db' = ps /\ map score ps = map score (parts db)
     /\ users db' = users db /\ ledger db' = ledger db
     /\ exists r', room db' = Some r'
                   /\ roundPhase r' = Some interval /\ roundRemainingTime r' = 4
                   /\ currentDrawerId r' = None /\ currentWord r' = None
                   /\ currentWordOptions r' = Js.Null
                   /\ currentRound r' = currentRound r
                   /\ status r' = if countWhere isActive ps =? 1 then inactive else playing)
  /\ ((forall p, In p (parts db) -> userId p = ownerId r -> isActive p = false) ->
      db' = mkDb None [] (users db) (ledger db)).
Proof.
  intros Hr Hne Hst Hd Hph ps db'.
  assert (Hleave : db' = fst (checkAndCloseEmptyRoom
             (checkAndMaybeDeleteRoom
                (startPhaseTimerAndBroadcast
                   (set_currentWordOptions Js.Null
                      (set_currentWord None (set_currentDrawerId None r)))
                   interval (PHASE_DURATIONS interval) (set_parts ps db))))).
  { unfold db', leave_room. rewrite Hr.
    destruct (Nat.eqb (ownerId r) u) eqn:E; [apply Nat.eqb_eq in E; congruence |].
    rewrite Hst. cbn [Status_eqb]. unfold handleDrawerLeave.
    rewrite Hd, Hph. cbn [opt_nat_eqb phase_is Phase_eqb]. rewrite Nat.eqb_refl.
    reflexivity. }
  split.
  - intros Hown. destruct (owner_stays r u (parts db) Hne Hown) as [Hlen Hex].
    rewrite Hleave.
    erewrite checkAndMaybeDeleteRoom_keeps;
      [| reflexivity | exact Hlen | destruct r; exact Hex].
    erewrite checkAndCloseEmptyRoom_room by reflexivity.
    cbn [room set_room set_parts parts users ledger].
    split; [reflexivity |]. split; [apply deactivate_scores |].
    split; [reflexivity |]. split; [reflexivity |].
    eexists. split; [reflexivity |].
    destruct (_ =? 1); destruct r; cbn in *; subst; repeat split.
  - intros Hgone. rewrite Hleave.
    erewrite checkAndMaybeDeleteRoom_deletes;
      [reflexivity | reflexivity |].
    pose proof (owner_gone r u (parts db) Hgone) as Hex.
    destruct r; exact Hex.
Qed.

Lemma drawer_leave_abandons_round_witness :
  let left := leave_room (Some 2%nat) Examples.guestDraws in
  (exists p, In p (parts Examples.guestDraws) /\ userId p = 1%nat /\ isActive p = true)
  /\ map score (parts left) = map score (parts Examples.guestDraws)
  /\ exists r', room left = Some r'
                /\ roundPhase r' = Some interval /\ roundRemainingTime r' = 4
                /\ currentDrawerId r' = None /\ currentWord r' = None
                /\ status r' = playing.
Proof.
  cbv zeta.
  assert (Hown : exists p, In p (parts Examples.guestDraws)
                           /\ userId p = 1%nat /\ isActive p = true).
  { exists (Examples.player 1 None). split; [left; reflexivity | split; reflexivity]. }
  split; [exact Hown |].
  destruct (proj1 (drawer_leave_abandons_round Examples.guestDraws
                     (set_currentDrawerId (Some 2%nat) (Examples.drawingRoom "1v1"))
                     2%nat eq_refl ltac:(discriminate) eq_refl eq_refl eq_refl) Hown)
    as (Hps & Hsc & _ & _ & r' & Hr' & Hph & Hrem & Hd & Hw & _ & _ & Hst).
  rewrite Hps. split; [exact Hsc |].
  exists r'. split; [exact Hr' |]. split; [exact Hph |]. split; [exact Hrem |].
  split; [exact Hd |]. split; [exact Hw |]. exact Hst.
Defined.

Section Reactivation.

Lemma join_room_free_seat db r u sock :
  room db = Some r ->
  countWhere isActive (parts db) < maxPlayers r ->
  snd (join_room u sock db) <> JoinError "room_full"
  /\ room (fst (join_room u sock db))
     = Some (if Status_eqb (status r) inactive
             then set_status (if isPublic r then waiting else lobby) r else r).
Proof.
  intros Hr Hlt. unfold join_room. rewrite Hr.
  destruct (_ <=? _) eqn:E; [apply Z.leb_le in E; lia |].
  rewrite andb_false_r. cbn [fst snd room set_room]. split; [discriminate | reflexivity].
Qed.

End Reactivation.

(** X9.  A disconnect deactivates the user's rows and touches nothing else
    of the store, except that the room is marked [inactive] when exactly one
    active participant remains (whatever the room's status, and also for
    the owner's disconnect, which does not destroy the room); when nobody
    remains the room row is left as it is.  The next [join_room] that finds
    a free seat wakes an [inactive] room up: it becomes [waiting] when
    public and [lobby] when private, all other columns (round, phase,
    drawer, word) being kept. *)
Theorem inactive_room_wakes_on_join db r u :
  room db = Some r ->
  let ps := deactivate u (parts db) in
  let db1 := disconnect (Some u) db in
  parts db1 = ps /\ users db1 = users db /\ ledger db1 = ledger db
  /\ (countWhere isActive ps <> 1 -> room db1 = Some r)
  /\ (countWhere isActive ps = 1 ->
      room db1 = Some (set_status inactive r)
      /\ forall v sock, 1 < maxPlayers r ->
           snd (join_room v sock db1) <> JoinError "room_full"
           /\ room (fst (join_room v sock db1))
              = Some (set_status (if isPublic r then waiting else lobby) r)).
Proof.
  intros Hr ps db1.
  assert (Hd : db1 = set_room (Some (if countWhere isActive ps =? 1
                                     then set_status inactive r else r))
                       (set_parts ps db)).
  { unfold db1, disconnect. rewrite Hr.
    erewrite checkAndCloseEmptyRoom_room by exact Hr. reflexivity. }
  rewrite Hd. cbn [parts users ledger room set_room set_parts].
  split; [reflexivity |]. split; [reflexivity |]. split; [reflexivity |]. split.
  - intros Hne. destruct (_ =? 1) eqn:E; [apply Z.eqb_eq in E; contradiction | reflexivity].
  - intros Hone. rewrite Hone. cbn [Z.eqb Pos.eqb]. split; [reflexivity |].
    intros v sock Hmax.
    destruct (join_room_free_seat
                (set_room (Some (set_status inactive r)) (set_parts ps db))
                (set_status inactive r) v sock eq_refl) as [Hres Hroom].
    + cbn [parts set_room set_parts]. rewrite Hone. destruct r; exact Hmax.
    + split; [exact Hres |]. rewrite Hroom. destruct r; reflexivity.
Qed.

(** X10.  Leaving and coming back.  While the owner is present, a
    participant who leaves through [leave_room] keeps a row, now inactive;
    a later [join_room] of the same user is accepted as a rejoin, with no
    capacity check, and restores that row with its score, team and flags
    (drawer, guessed, paid) as they were, active again and bound to the new
    socket. *)
Theorem rejoin_restores_row db r u p sock :
  room db = Some r -> u <> ownerId r ->
  findByUser u (parts db) = Some p ->
  (exists o, In o (parts db) /\ userId o = ownerId r /\ isActive o = true) ->
  let left := leave_room (Some u) db in
  option_map isActive (findByUser u (parts left)) = Some false
  /\ snd (join_room (Some u) sock left) = RoomJoined true
  /\ findByUser u (parts (fst (join_room (Some u) sock left)))
     = Some (set_isActive true (set_socketId (Some sock) p)).
Proof.
  intros Hr Hne Hp Hown left.
  destruct (leave_room_kept db r u Hr Hne Hown) as (r' & Hr' & Hps & _ & _).
  fold left in Hr', Hps.
  assert (Hrow : findByUser u (parts left)
                 = Some (set_socketId None (set_isActive false p))).
  { rewrite Hps. unfold deactivate.
    rewrite findByUser_updateWhere by (intros []; reflexivity).
    rewrite Hp. cbn [option_map].
    apply find_some in Hp as [_ Hu]. rewrite Hu. reflexivity. }
  split; [rewrite Hrow; destruct p; reflexivity |].
  destruct (join_room_rejoining left r' u _ sock Hr' Hrow) as [Hres Hparts];
    [destruct p; reflexivity |].
  split; [exact Hres |].
  rewrite Hparts, findByUser_updateWhere by (intros []; reflexivity).
  rewrite Hrow. cbn [option_map].
  replace (userId (set_socketId None (set_isActive false p))) with (userId p)
    by (destruct p; reflexivity).
  apply find_some in Hp as [_ Hu]. rewrite Hu. destruct p; reflexivity.
Qed.

Lemma inactive_room_wakes_on_join_witness :
  let db1 := disconnect (Some 2%nat) Examples.fullRoom in
  (countWhere isActive (deactivate 2 (parts Examples.fullRoom)) = 1
   /\ 1 < maxPlayers (mkRoom 1 "1v1" false 250 100 10 2 lobby None Js.Null None 0 None
                        80 0 None []))
  /\ option_map status (room db1) = Some inactive
  /\ option_map status (room (fst (join_room (Some 3%nat) "s3" db1))) = Some lobby.
Proof.
  cbv zeta. split; [split; reflexivity |].
  destruct (inactive_room_wakes_on_join Examples.fullRoom
              (mkRoom 1 "1v1" false 250 100 10 2 lobby None Js.Null None 0 None
                 80 0 None []) 2%nat eq_refl)
    as (_ & _ & _ & _ & Hone).
  destruct (Hone eq_refl) as [Hroom Hjoin].
  destruct (Hjoin (Some 3%nat) "s3" eq_refl) as [_ Hwake].
  rewrite Hroom, Hwake. split; reflexivity.
Defined.

Lemma rejoin_restores_row_witness :
  let back := fst (join_room (Some 3%nat) "s3" (leave_room (Some 3%nat) Examples.finalDb)) in
  (findByUser 3 (parts Examples.finalDb) = Some (set_score 75 (Examples.player 3 None))
   /\ exists o, In o (parts Examples.finalDb) /\ userId o = 1%nat /\ isActive o = true)
  /\ option_map score (findByUser 3 (parts back)) = Some 75
  /\ option_map isActive (findByUser 3 (parts back)) = Some true
  /\ option_map socketId (findByUser 3 (parts back)) = Some (Some "s3").
Proof.
  cbv zeta.
  assert (Hown : exists o, In o (parts Examples.finalDb)
                           /\ userId o = 1%nat /\ isActive o = true).
  { exists (set_score 40 (Examples.player 1 None)).
    split; [left; reflexivity | split; reflexivity]. }
  split; [split; [reflexivity | exact Hown] |].
  destruct (rejoin_restores_row Examples.finalDb
              (set_status playing (Examples.baseRoom "1v1")) 3%nat
              (set_score 75 (Examples.player 3 None))
              "s3" eq_refl ltac:(discriminate) eq_refl Hown) as (_ & _ & Hrow).
  rewrite Hrow. split; [reflexivity | split; reflexivity].
Defined.

(* ===================================================================== *)
(** ** Starting a game, entry fees and the ledger *)
(* ===================================================================== *)

Lemma start_game_needs_lobby o u db r :
  room db = Some r -> status r <> lobby -> status r <> waiting ->
  start_game o u db = db.
Proof.
  intros Hr Ha Hb. unfold start_game. rewrite Hr.
  destruct u as [n |]; [| reflexivity].
  destruct (negb (Nat.eqb (ownerId r) n)); [reflexivity |].
  destruct (status r); cbn [Status_eqb negb andb]; congruence.
Qed.

(** X11.  [start_game] is refused, and leaves the store as it is, when the
    caller is not the owner, when the room is neither in [lobby] nor
    [waiting], when fewer than two participants are active, and in
    [team_vs_team] mode when one of the teams orange and blue has no active
    member. *)
Theorem start_game_refused o u db r :
  room db = Some r ->
  u <> Some (ownerId r)
  \/ (status r <> lobby /\ status r <> waiting)
  \/ (List.length (activeParticipants (parts db)) < 2)%nat
  \/ (gameMode r = "team_vs_team"
      /\ (filter (team_is "orange") (activeParticipants (parts db)) = []
          \/ filter (team_is "blue") (activeParticipants (parts db)) = [])) ->
  start_game o u db = db.
Proof.
  intros Hr H. unfold start_game. rewrite Hr.
  destruct u as [n |]; [| reflexivity].
  destruct (Nat.eqb (ownerId r) n) eqn:E1; cbn [negb]; [| reflexivity].
  destruct (negb (Status_eqb (status r) lobby) && negb (Status_eqb (status r) waiting))
    eqn:E2; [reflexivity |].
  destruct (_ <? 2)%nat eqn:E3; [reflexivity |].
  destruct (String.eqb (gameMode r) "team_vs_team" && _) eqn:E4; [reflexivity |].
  exfalso. destruct H as [H | [[Ha Hb] | [H | [Hm H]]]].
  - apply Nat.eqb_eq in E1. congruence.
  - destruct (status r); cbn in E2; congruence.
  - apply Nat.ltb_ge in E3. lia.
  - rewrite Hm, String.eqb_refl in E4. cbn [andb] in E4.
    destruct H as [H | H]; rewrite H in E4; cbn [List.length Nat.eqb orb] in E4;
      [discriminate |].
    rewrite orb_true_r in E4. discriminate.
Qed.

Lemma start_game_refused_witness :
  room Examples.teamGame
  = Some (set_currentRound 1 (set_status playing (Examples.baseRoom "team_vs_team")))
  /\ start_game Examples.idOracle (Some 1%nat) Examples.teamGame = Examples.teamGame.
Proof.
  split; [reflexivity |].
  apply (start_game_refused Examples.idOracle (Some 1%nat) Examples.teamGame
           (set_currentRound 1 (set_status playing (Examples.baseRoom "team_vs_team")))
           eq_refl).
  right. left. split; discriminate.
Defined.

Section Accounting.

Lemma creditUser_absent u d us :
  ~ In u (map uid us) -> creditUser u d us = us.
Proof.
  intros Hn. unfold creditUser. induction us as [| x us IH]; [reflexivity |].
  cbn [map]. destruct (Nat.eqb (uid x) u) eqn:E.
  - apply Nat.eqb_eq in E. exfalso. apply Hn. left. exact E.
  - f_equal. apply IH. intros Hin. apply Hn. right. exact Hin.
Qed.


Lemma totalCoins_creditUser u d us :
  NoDup (map uid us) -> findUser u us <> None ->
  totalCoins (creditUser u d us) = totalCoins us + d.
Proof.
  intros Hnd Hf. induction us as [| x us IH]; [contradiction |].
  cbn [map] in Hnd. inversion Hnd as [| ? ? Hx Hnd']; subst.
  unfold findUser in Hf. cbn [find] in Hf.
  unfold creditUser. cbn [map totalCoins fold_right].
  destruct (Nat.eqb (uid x) u) eqn:E.
  - apply Nat.eqb_eq in E. subst u.
    fold (creditUser (uid x) d us). rewrite (creditUser_absent _ _ _ Hx).
    cbn [coins set_coins]. fold (totalCoins us). lia.
  - fold (creditUser u d us). fold (totalCoins (creditUser u d us)).
    fold (totalCoins us). rewrite IH by assumption. lia.
Qed.






Lemma select_coins o db :
  users (fst (RoundPhases.selectDrawerAndStartWordChoice o db)) = users db
  /\ ledger (fst (RoundPhases.selectDrawerAndStartWordChoice o db)) = ledger db.
Proof.
  unfold RoundPhases.selectDrawerAndStartWordChoice.
  destruct (room db); [| split; reflexivity].
  destruct (Rotation.sortByUserId _); [split; reflexivity |].
  destruct (Rotation.pickDrawer _ _ _ _) as [[nd |] ? ? |]; split; reflexivity.
Qed.

Lemma startNewRound_coins o db :
  users (fst (startNewRound o db)) = users db
  /\ ledger (fst (startNewRound o db)) = ledger db.
Proof.
  unfold startNewRound. destruct (_ <? 2)%nat; [split; reflexivity |].
  match goal with
  | |- context [RoundPhases.selectDrawerAndStartWordChoice o ?d] =>
      destruct (select_coins o d) as [-> ->]
  end.
  split; reflexivity.
Qed.


Lemma chargeEntry_paid entryCost todo : forall db,
  (forall p, In p todo -> hasPaidEntry p = true) ->
  chargeEntry entryCost todo db = (db, true).
Proof.
  induction todo as [| p todo IH]; intros db Hpaid; cbn [chargeEntry]; [reflexivity |].
  rewrite (Hpaid p) by (left; reflexivity).
  destruct (findUser _ _); apply IH; intros q Hq; apply Hpaid; right; exact Hq.
Qed.

Lemma map_score_updateWhere cond f ps :
  (forall p, score (f p) = score p) -> map score (updateWhere cond f ps) = map score ps.
Proof.
  intros Hf. unfold updateWhere. rewrite map_map. apply map_ext.
  intros p. destruct (cond p); [apply Hf | reflexivity].
Qed.

Lemma select_scores o db :
  map score (parts (fst (RoundPhases.selectDrawerAndStartWordChoice o db)))
  = map score (parts db).
Proof.
  unfold RoundPhases.selectDrawerAndStartWordChoice.
  destruct (room db); [| reflexivity].
  destruct (Rotation.sortByUserId _); [reflexivity |].
  destruct (Rotation.pickDrawer _ _ _ _) as [[nd |] ? ? |]; [| | reflexivity];
    cbn [fst parts set_parts set_room startPhaseTimerAndBroadcast];
    rewrite ?map_score_updateWhere by (intros []; reflexivity); reflexivity.
Qed.

Lemma startNewRound_scores o db :
  map score (parts (fst (startNewRound o db))) = map score (parts db).
Proof.
  unfold startNewRound. destruct (_ <? 2)%nat; [reflexivity |].
  rewrite select_scores. cbn [parts set_parts].
  apply map_score_updateWhere. intros []; reflexivity.
Qed.

Lemma chargeEntry_scores entryCost todo : forall db,
  map score (parts (fst (chargeEntry entryCost todo db))) = map score (parts db).
Proof.
  induction todo as [| p todo IH]; intros db; cbn [chargeEntry]; [reflexivity |].
  destruct (findUser _ _); [| apply IH].
  destruct (hasPaidEntry p); [apply IH |].
  destruct (_ <? _); [reflexivity |].
  rewrite IH. cbn [parts]. apply map_score_updateWhere. intros []; reflexivity.
Qed.

End Accounting.



(** X13.  [start_game] resets neither the scores nor the payments of an
    earlier game in the same room: every participant row keeps its score,
    and when every active participant is already flagged as having paid
    the entry, no coin moves and no ledger entry is written. *)
Theorem start_game_keeps_scores_and_payments o u db :
  map score (parts (start_game o u db)) = map score (parts db)
  /\ ((forall p, In p (parts db) -> isActive p = true -> hasPaidEntry p = true) ->
      users (start_game o u db) = users db
      /\ ledger (start_game o u db) = ledger db).
Proof.
  unfold start_game.
  destruct (room db) as [r |]; [| split; [| intros _; split]; reflexivity].
  destruct u as [n |]; [| split; [| intros _; split]; reflexivity].
  destruct (negb (Nat.eqb _ _)); [split; [| intros _; split]; reflexivity |].
  destruct (_ && _); [split; [| intros _; split]; reflexivity |].
  destruct (_ <? 2)%nat; [split; [| intros _; split]; reflexivity |].
  destruct (_ && _); [split; [| intros _; split]; reflexivity |].
  split.
  - pose proof (chargeEntry_scores (calculateEntryCost (entryPoints r) false)
                  (activeParticipants (parts db)) db) as Hs.
    destruct (chargeEntry _ _ _) as [db1 [|]]; cbn [fst] in Hs; [| exact Hs].
    rewrite startNewRound_scores. exact Hs.
  - intros Hpaid. rewrite chargeEntry_paid.
    + match goal with
      | |- context [startNewRound o ?d] =>
          destruct (startNewRound_coins o d) as [-> ->]
      end.
      split; reflexivity.
    + intros p Hp. unfold activeParticipants in Hp. apply filter_In in Hp as [Hin Hact].
      apply Hpaid; assumption.
Qed.

Lemma start_game_keeps_scores_and_payments_witness :
  let lobbyAgain := endGameLobbyTimeout (fst (checkGameEnd
                      (set_status playing (Examples.baseRoom "1v1")) Examples.finalDb)) in
  (forall p, In p (parts lobbyAgain) -> isActive p = true -> hasPaidEntry p = true)
  /\ option_map status (room lobbyAgain) = Some lobby
  /\ map score (parts (start_game Examples.idOracle (Some 1%nat) lobbyAgain))
     = [40; 120; 75; 90]
  /\ users (start_game Examples.idOracle (Some 1%nat) lobbyAgain) = users lobbyAgain.
Proof.
  cbv zeta.
  set (lobbyAgain := endGameLobbyTimeout _).
  assert (Hpaid : forall p, In p (parts lobbyAgain) -> isActive p = true ->
                            hasPaidEntry p = true).
  { intros p Hin _. vm_compute in Hin.
    destruct Hin as [<- | [<- | [<- | [<- | []]]]]; reflexivity. }
  split; [exact Hpaid |]. split; [vm_compute; reflexivity |].
  destruct (start_game_keeps_scores_and_payments Examples.idOracle (Some 1%nat) lobbyAgain)
    as [Hs Hc].
  rewrite Hs. split; [vm_compute; reflexivity |].
  apply (Hc Hpaid).
Defined.

(* ===================================================================== *)
(** ** Teams: the rotation and the HTTP join *)
(* ===================================================================== *)

Section TeamMembers.

Import Rotation.

Lemma team_is_eq t p : team_is t p = true <-> team p = Some t.
Proof. unfold team_is. apply opt_string_eqb_eq. Qed.

Lemma teamPick_on_team participants pointer drawn c p' d' f :
  filter (team_is "blue") participants <> [] ->
  filter (team_is "orange") participants <> [] ->
  teamPick participants pointer drawn = Pick (Some c) p' d' f ->
  In c participants /\ (team c = Some "blue" \/ team c = Some "orange").
Proof.
  intros Hb Ho. unfold teamPick.
  rewrite !sortByUserId_length.
  destruct (filter (team_is "blue") participants) as [| b bs] eqn:Eb; [contradiction |].
  destruct (filter (team_is "orange") participants) as [| o os] eqn:Eo; [contradiction |].
  cbn [List.length Nat.eqb orb]. rewrite <- Eb, <- Eo.
  assert (Halt : forall x,
            In x (alternatingList (sortByUserId (filter (team_is "blue") participants))
                    (sortByUserId (filter (team_is "orange") participants))) ->
            In x participants /\ (team x = Some "blue" \/ team x = Some "orange")).
  { intros x Hx. apply alternatingList_incl in Hx as [Hx | Hx];
      apply (Permutation_in _ (sortByUserId_perm _)) in Hx;
      apply filter_In in Hx as [Hin Ht]; apply team_is_eq in Ht; auto. }
  destruct (walk _ drawn pointer _) as [c0 q | |] eqn:W.
  - intros [= <- _ _ _]. apply Halt. eapply walk_chosen_in. exact W.
  - intros [= Hn _ _ _]. apply Halt. eapply nth_error_In. exact Hn.
  - discriminate.
Qed.

End TeamMembers.

(** X14.  In a room that is not ["1v1"], once both teams blue and orange
    have an active member, only members of these two teams are ever
    selected as drawer: an active participant without a team, or with any
    other team name, never draws. *)
Theorem team_game_drawer_is_on_a_team o db db' nd w r :
  room db = Some r -> gameMode r <> "1v1" ->
  (exists b, In b (parts db) /\ isActive b = true /\ team b = Some "blue") ->
  (exists c, In c (parts db) /\ isActive c = true /\ team c = Some "orange") ->
  RoundPhases.selectDrawerAndStartWordChoice o db = (db', Selected nd w) ->
  team nd = Some "blue" \/ team nd = Some "orange".
Proof.
  intros Hr Hmode (b & Hb & Hba & Hbt) (c & Hc & Hca & Hct).
  unfold RoundPhases.selectDrawerAndStartWordChoice. rewrite Hr.
  destruct (Rotation.sortByUserId (activeParticipants (parts db)))
    as [| p0 rest] eqn:Es; [discriminate |].
  destruct (Rotation.pickDrawer _ _ _ _) as [nextDrawer pointer drawn fresh |] eqn:Ep;
    [| discriminate].
  destruct nextDrawer as [nd' |]; [| discriminate].
  intros [= _ <- _].
  unfold Rotation.pickDrawer in Ep.
  destruct (String.eqb (gameMode r) "1v1") eqn:Em;
    [apply String.eqb_eq in Em; contradiction |].
  assert (Hmem : forall x t, In x (parts db) -> isActive x = true -> team x = Some t ->
                   filter (team_is t) (p0 :: rest) <> []).
  { intros x t Hx Ha Ht Hnil.
    assert (Hin : In x (filter (team_is t) (p0 :: rest))).
    { apply filter_In. split; [| apply team_is_eq; exact Ht].
      rewrite <- Es. apply (Permutation_in _ (Permutation_sym (sortByUserId_perm _))).
      unfold activeParticipants. apply filter_In. split; assumption. }
    rewrite Hnil in Hin. exact Hin. }
  apply (teamPick_on_team _ _ _ _ _ _ _ (Hmem b "blue" Hb Hba Hbt)
           (Hmem c "orange" Hc Hca Hct)) in Ep.
  apply Ep.
Qed.

Lemma team_game_drawer_is_on_a_team_witness :
  let joined := fst (Rest.join 5 None Examples.teamGame) in
  (gameMode (set_currentRound 1 (set_status playing (Examples.baseRoom "team_vs_team")))
   <> "1v1"
   /\ option_map team (findByUser 5 (parts joined)) = Some (Some "A"))
  /\ (team (Examples.player 1 (Some "blue")) = Some "blue"
      \/ team (Examples.player 1 (Some "blue")) = Some "orange").
Proof.
  cbv zeta. split; [split; [discriminate | reflexivity] |].
  apply (team_game_drawer_is_on_a_team Examples.idOracle
           (fst (Rest.join 5 None Examples.teamGame))
           (fst (RoundPhases.selectDrawerAndStartWordChoice Examples.idOracle
                   (fst (Rest.join 5 None Examples.teamGame))))
           (Examples.player 1 (Some "blue"))
           (Js.Arr ["apple"; "banana"; "cat"])
           (set_currentRound 1 (set_status playing (Examples.baseRoom "team_vs_team")))
           eq_refl ltac:(discriminate)).
  - exists (Examples.player 1 (Some "blue")).
    split; [left; reflexivity | split; reflexivity].
  - exists (Examples.player 2 (Some "orange")).
    split; [right; left; reflexivity | split; reflexivity].
  - vm_compute. reflexivity.
Defined.

Section RestJoin.

Lemma countWhere_app c ps qs : countWhere c (ps ++ qs) = countWhere c ps + countWhere c qs.
Proof. unfold countWhere. rewrite filter_app, length_app. lia. Qed.

Lemma countWhere_activate n ps :
  NoDup (map id ps) ->
  countWhere isActive
    (updateWhere (fun q => Nat.eqb (id q) n)
       (fun q => set_hasPaidEntry true (set_isActive true q)) ps)
  <= countWhere isActive ps + 1.
Proof.
  unfold countWhere, updateWhere. intros Hnd.
  induction ps as [| p ps IH]; [cbn; lia |].
  cbn [map] in Hnd. inversion Hnd as [| ? ? Hp Hnd']; subst.
  cbn [map filter]. destruct (Nat.eqb (id p) n) eqn:E.
  - apply Nat.eqb_eq in E. subst n.
    fold (updateWhere (fun q => Nat.eqb (id q) (id p))
            (fun q => set_hasPaidEntry true (set_isActive true q)) ps).
    rewrite (updateWhere_absent _ _ _ Hp).
    destruct p as [? ? ? ? ? ? ? ? act ?]; cbn [isActive set_hasPaidEntry set_isActive].
    destruct act; cbn [List.length]; lia.
  - specialize (IH Hnd'). destruct (isActive p); cbn [List.length]; lia.
Qed.

Lemma assignTeamRandomly_cases ps :
  Rest.assignTeamRandomly ps = "A" \/ Rest.assignTeamRandomly ps = "B".
Proof. unfold Rest.assignTeamRandomly. destruct (_ <=? _)%nat; auto. Qed.

End RestJoin.

(** X15.  [assignTeamRandomly] keeps two teams level, but these are the
    teams ["A"] and ["B"]: it answers ["A"] when team A has no more members
    than team B, else ["B"]; the gap between the two counts after the new
    member is added is at most one when it was at most one before; and the
    result is never ["orange"] or ["blue"], the only team names the
    rotation and [start_game] know. *)
Theorem assignTeamRandomly_balances ps :
  let a := List.length (filter (team_is "A") ps) in
  let b := List.length (filter (team_is "B") ps) in
  let t := Rest.assignTeamRandomly ps in
  (t = "A" <-> (a <= b)%nat)
  /\ (t = "B" <-> (b < a)%nat)
  /\ (forall joiner, team joiner = Some t ->
        let a' := List.length (filter (team_is "A") (ps ++ [joiner])) in
        let b' := List.length (filter (team_is "B") (ps ++ [joiner])) in
        (a' + b' = a + b + 1)%nat
        /\ ((a <= b + 1)%nat -> (b <= a + 1)%nat ->
            (a' <= b' + 1)%nat /\ (b' <= a' + 1)%nat))
  /\ t <> "orange" /\ t <> "blue".
Proof.
  cbv zeta. unfold Rest.assignTeamRandomly.
  destruct (_ <=? _)%nat eqn:E.
  - apply Nat.leb_le in E. split; [tauto |]. split; [split; [discriminate | lia] |].
    split; [| split; discriminate].
    intros joiner Ht.
    assert (HA : team_is "A" joiner = true) by (unfold team_is; rewrite Ht; reflexivity).
    assert (HB : team_is "B" joiner = false) by (unfold team_is; rewrite Ht; reflexivity).
    rewrite !filter_app, !length_app. cbn [filter]. rewrite HA, HB.
    cbn [List.length]. lia.
  - apply Nat.leb_gt in E. split; [split; [discriminate | lia] |]. split; [tauto |].
    split; [| split; discriminate].
    intros joiner Ht.
    assert (HA : team_is "A" joiner = false) by (unfold team_is; rewrite Ht; reflexivity).
    assert (HB : team_is "B" joiner = true) by (unfold team_is; rewrite Ht; reflexivity).
    rewrite !filter_app, !length_app. cbn [filter]. rewrite HA, HB.
    cbn [List.length]. lia.
Qed.

Lemma assignTeamRandomly_balances_witness :
  let ps := [Examples.player 1 (Some "A"); Examples.player 2 (Some "B");
             Examples.player 3 (Some "A")] in
  Rest.assignTeamRandomly ps = "B"
  /\ (List.length (filter (team_is "A") (ps ++ [Examples.player 4 (Some "B")]))
      <= List.length (filter (team_is "B") (ps ++ [Examples.player 4 (Some "B")])) + 1)%nat.
Proof.
  cbv zeta.
  destruct (assignTeamRandomly_balances
              [Examples.player 1 (Some "A"); Examples.player 2 (Some "B");
               Examples.player 3 (Some "A")]) as (_ & HB & Hjoin & _).
  split; [apply HB; cbn; lia |].
  destruct (Hjoin (Examples.player 4 (Some "B")) eq_refl) as [_ Hgap].
  apply Hgap; cbn; lia.
Defined.

Section RestJoinFacts.

Lemma findByUser_app u ps qs :
  findByUser u (ps ++ qs)
  = match findByUser u ps with Some p => Some p | None => findByUser u qs end.
Proof.
  unfold findByUser. induction ps as [| p ps IH]; [reflexivity |].
  cbn [app find]. destruct (Nat.eqb (userId p) u); [reflexivity | exact IH].
Qed.

Lemma findUser_some_in u us x : findUser u us = Some x -> In u (map uid us).
Proof.
  intros H. pose proof (findUser_uid _ _ _ H) as Hu.
  apply find_some in H as [Hin _]. apply in_map_iff. exists x. split; assumption.
Qed.

End RestJoinFacts.

(** X16.  Joining over HTTP never overfills a room.  A join that finds the
    number of active participants at or above [maxPlayers] is answered
    [room_full] and changes nothing, also for a user who already has a row
    in the room; an accepted join leaves at most [maxPlayers] active
    participants and does not touch the room row. *)
Theorem rest_join_respects_capacity user team db r :
  room db = Some r ->
  NoDup (map id (parts db)) ->
  (maxPlayers r <= countWhere isActive (parts db) ->
   Rest.join user team db = (db, Rest.JoinFailed "room_full"))
  /\ (forall p, snd (Rest.join user team db) = Rest.Joined p ->
        countWhere isActive (parts (fst (Rest.join user team db))) <= maxPlayers r
        /\ room (fst (Rest.join user team db)) = Some r).
Proof.
  intros Hr Hnd. unfold Rest.join. rewrite Hr. split.
  - intros Hfull. destruct (_ <=? _) eqn:E; [reflexivity | apply Z.leb_gt in E; lia].
  - intros p. destruct (_ <=? _) eqn:E; [discriminate |]. apply Z.leb_gt in E.
    destruct (findUser user (users db)) as [u |]; [| discriminate].
    destruct (coins u <? entryPoints r); [discriminate |].
    destruct (findByUser user (parts db)) as [participant |]; intros _;
      cbn [fst parts room set_parts].
    + split; [| try reflexivity; exact Hr].
      pose proof (countWhere_activate (id participant) (parts db) Hnd). lia.
    + split; [| reflexivity].
      rewrite countWhere_app. unfold countWhere at 2. cbn. lia.
Qed.

Lemma rest_join_respects_capacity_witness :
  (room Examples.fullRoom
   = Some (mkRoom 1 "1v1" false 250 100 10 2 lobby None Js.Null None 0 None 80 0 None [])
   /\ NoDup (map id (parts Examples.fullRoom))
   /\ maxPlayers (mkRoom 1 "1v1" false 250 100 10 2 lobby None Js.Null None 0 None 80 0
                    None [])
      <= countWhere isActive (parts Examples.fullRoom))
  /\ Rest.join 2 None Examples.fullRoom = (Examples.fullRoom, Rest.JoinFailed "room_full").
Proof.
  assert (Hnd : NoDup (map id (parts Examples.fullRoom))).
  { cbn. repeat constructor; cbn; intuition discriminate. }
  split; [split; [reflexivity | split; [exact Hnd | cbn; lia]] |].
  apply (proj1 (rest_join_respects_capacity 2 None Examples.fullRoom _ eq_refl Hnd)).
  cbn. lia.
Defined.

(** X17.  Paying over HTTP.  An accepted [POST /join] returns the user's
    row, active and flagged as having paid, and writes no ledger entry.  A
    user without a row pays the room's [entryPoints] there and then (the
    balance covers it), so those coins are not accounted for in the ledger;
    a user who already has a row, paid or not, is flagged as having paid
    without any coin moving.  Either way the entry-fee loop of [start_game]
    skips the returned row. *)
Theorem rest_join_payment user team db r p :
  room db = Some r ->
  NoDup (map uid (users db)) ->
  snd (Rest.join user team db) = Rest.Joined p ->
  let db' := fst (Rest.join user team db) in
  ledger db' = ledger db
  /\ findByUser user (parts db') = Some p
  /\ isActive p = true /\ hasPaidEntry p = true
  /\ (findByUser user (parts db) = None ->
      coinsOf user (users db') = coinsOf user (users db) - entryPoints r
      /\ entryPoints r <= coinsOf user (users db)
      /\ unaccounted db' = unaccounted db - entryPoints r)
  /\ (findByUser user (parts db) <> None -> users db' = users db)
  /\ (forall entryCost rest d,
        chargeEntry entryCost (p :: rest) d = chargeEntry entryCost rest d).
Proof.
  intros Hr Hnd. unfold Rest.join. rewrite Hr.
  destruct (_ <=? _); [discriminate |].
  destruct (findUser user (users db)) as [u |] eqn:Eu; [| discriminate].
  destruct (coins u <? entryPoints r) eqn:Ec; [discriminate |]. apply Z.ltb_ge in Ec.
  pose proof (findUser_uid _ _ _ Eu) as Huid.
  destruct (findByUser user (parts db)) as [participant |] eqn:Ep;
    intros [= <-]; cbn [fst parts users ledger set_parts].
  - split; [reflexivity |]. split.
    { rewrite findByUser_updateWhere by (intros []; reflexivity).
      rewrite Ep. cbn [option_map]. rewrite Nat.eqb_refl. reflexivity. }
    split; [destruct participant; reflexivity |].
    split; [destruct participant; reflexivity |].
    split; [discriminate |]. split; [reflexivity |].
    intros entryCost rest d. cbn [chargeEntry].
    replace (hasPaidEntry _) with true by (destruct participant; reflexivity).
    destruct (findUser _ (users d)); reflexivity.
  - split; [reflexivity |]. split.
    { rewrite findByUser_app. unfold findByUser in Ep |- *. rewrite Ep.
      cbn [find userId]. rewrite Nat.eqb_refl. reflexivity. }
    split; [reflexivity |]. split; [reflexivity |]. split.
    { intros _. rewrite Huid.
      assert (Hc : coinsOf user (users db) = coins u) by (unfold coinsOf; rewrite Eu; reflexivity).
      split; [| split].
      - rewrite coinsOf_credit_same by congruence. lia.
      - lia.
      - unfold unaccounted. cbn [users ledger].
        rewrite totalCoins_creditUser by (assumption || congruence). lia. }
    split; [intros H; contradiction |].
    intros entryCost rest d. cbn [chargeEntry hasPaidEntry].
    destruct (findUser _ (users d)); reflexivity.
Qed.

Lemma rest_join_payment_witness :
  let db' := fst (Rest.join 4 None Examples.lobbyOfThree) in
  (room Examples.lobbyOfThree = Some (set_drawerPointerIndex 1 (Examples.baseRoom "1v1"))
   /\ NoDup (map uid (users Examples.lobbyOfThree))
   /\ findByUser 4 (parts Examples.lobbyOfThree) = None)
  /\ coinsOf 4 (users db') = 750
  /\ ledger db' = []
  /\ unaccounted db' = unaccounted Examples.lobbyOfThree - 250.
Proof.
  cbv zeta.
  assert (Hnd : NoDup (map uid (users Examples.lobbyOfThree))).
  { cbn. repeat constructor; cbn; intuition discriminate. }
  split; [split; [reflexivity | split; [exact Hnd | reflexivity]] |].
  destruct (rest_join_payment 4 None Examples.lobbyOfThree
              (set_drawerPointerIndex 1 (Examples.baseRoom "1v1"))
              (mkParticipant 4 4 None false 0 false false true true None)
              eq_refl Hnd eq_refl) as (Hl & _ & _ & _ & Hnew & _).
  destruct (Hnew eq_refl) as (Hc & _ & Hu).
  split; [rewrite Hc; reflexivity |]. split; [rewrite Hl; reflexivity |].
  exact Hu.
Defined.

(** X18.  Leaving over HTTP only clears the [isActive] flag of the user's
    row: scores, coins and the ledger are untouched, and the room row is
    left as it is (no phase change when the drawer leaves, no deletion when
    the owner leaves) unless no active participant remains, in which case
    the room is [closed].  A closed room stays closed: [join_room] lets
    users in again without changing the status, and [start_game] is refused
    there. *)
Theorem rest_leave_closes_empty_room user db r p :
  room db = Some r ->
  findByUser user (parts db) = Some p ->
  let db' := fst (Rest.leave user db) in
  users db' = users db /\ ledger db' = ledger db
  /\ map score (parts db') = map score (parts db)
  /\ option_map isActive (findByUser user (parts db')) = Some false
  /\ (countWhere isActive (parts db') <> 0 -> room db' = Some r)
  /\ (countWhere isActive (parts db') = 0 ->
      room db' = Some (set_status closed r)
      /\ forall v sock o u,
           let db2 := fst (join_room v sock db') in
           option_map status (room db2) = Some closed
           /\ start_game o u db2 = db2).
Proof.
  intros Hr Hp db'.
  set (ps := updateWhere (fun q => Nat.eqb (id q) (id p)) (set_isActive false) (parts db)).
  assert (Hd : db' = mkDb (if countWhere isActive ps =? 0
                           then Some (set_status closed r) else Some r)
                       ps (users db) (ledger db)).
  { unfold db', Rest.leave. rewrite Hp. fold ps. rewrite Hr.
    destruct (_ =? 0); [reflexivity |]. destruct db; cbn in *. subst. reflexivity. }
  rewrite Hd. cbn [users ledger parts room].
  split; [reflexivity |]. split; [reflexivity |].
  split; [apply map_score_updateWhere; intros []; reflexivity |].
  split.
  { unfold ps. rewrite findByUser_updateWhere by (intros []; reflexivity).
    rewrite Hp. cbn [option_map]. rewrite Nat.eqb_refl. destruct p; reflexivity. }
  split.
  - intros Hne. destruct (_ =? 0) eqn:E; [apply Z.eqb_eq in E; contradiction | reflexivity].
  - intros Hz. rewrite Hz. cbn [Z.eqb]. split; [reflexivity |].
    intros v sock o u. set (db2 := fst (join_room v sock _)).
    assert (Hroom : exists r2, room db2 = Some r2 /\ status r2 = closed).
    { unfold db2, join_room. cbn [room].
      destruct (_ && _); cbn [fst room set_room].
      - eexists. split; [reflexivity | destruct r; reflexivity].
      - eexists. split; [reflexivity |].
        replace (Status_eqb (status (set_status closed r)) inactive) with false
          by (destruct r; reflexivity).
        destruct r; reflexivity. }
    destruct Hroom as (r2 & Hr2 & Hs2). rewrite Hr2. cbn [option_map]. rewrite Hs2.
    split; [reflexivity |].
    apply (start_game_needs_lobby o u db2 r2 Hr2); rewrite Hs2; discriminate.
Qed.

Lemma rest_leave_closes_empty_room_witness :
  let alone := mkDb (Some (Examples.baseRoom "1v1")) [Examples.player 1 None]
                 Examples.someUsers [] in
  let db' := fst (Rest.leave 1 alone) in
  (findByUser 1 (parts alone) = Some (Examples.player 1 None)
   /\ countWhere isActive (parts db') = 0)
  /\ option_map status (room db') = Some closed
  /\ option_map status (room (fst (join_room (Some 1%nat) "s" db'))) = Some closed
  /\ start_game Examples.idOracle (Some 1%nat) (fst (join_room (Some 1%nat) "s" db'))
     = fst (join_room (Some 1%nat) "s" db').
Proof.
  cbv zeta. split; [split; reflexivity |].
  destruct (rest_leave_closes_empty_room 1
              (mkDb (Some (Examples.baseRoom "1v1")) [Examples.player 1 None]
                 Examples.someUsers [])
              (Examples.baseRoom "1v1") (Examples.player 1 None) eq_refl eq_refl)
    as (_ & _ & _ & _ & _ & Hclosed).
  destruct (Hclosed eq_refl) as [Hroom Hstuck].
  destruct (Hstuck (Some 1%nat) "s" Examples.idOracle (Some 1%nat)) as [Hs Hg].
  rewrite Hroom. split; [reflexivity |]. split; [exact Hs | exact Hg].
Defined.

(* ===================================================================== *)
(** ** Reports and bans *)
(* ===================================================================== *)

Section ReportRows.

Import Reports.

Lemma findReport_none b rs : findReport b rs = None -> ~ In b (map userToBlockId rs).
Proof.
  intros Hn Hin. apply in_map_iff in Hin as (r & Hr & Hin).
  apply (find_none _ _ Hn) in Hin. rewrite Hr, Nat.eqb_refl in Hin. discriminate.
Qed.



Lemma saveReport_targets b f rs :
  (forall r, userToBlockId (f r) = userToBlockId r) ->
  map userToBlockId (saveReport b f rs) = map userToBlockId rs.
Proof.
  intros Hf. induction rs as [| r rs IH]; [reflexivity |].
  cbn [saveReport]. destruct (Nat.eqb (userToBlockId r) b); cbn [map]; [rewrite Hf | rewrite IH];
    reflexivity.
Qed.

Lemma saveReport_Forall (P : Report -> Prop) b f rs :
  Forall P rs -> (forall r, userToBlockId r = b -> P (f r)) ->
  Forall P (saveReport b f rs).
Proof.
  intros Hall Hf. induction Hall as [| r rs Hr Hall IH]; [constructor |].
  cbn [saveReport]. destruct (Nat.eqb (userToBlockId r) b) eqn:E.
  - constructor; [apply Hf, Nat.eqb_eq, E | exact Hall].
  - constructor; [exact Hr | exact IH].
Qed.



Lemma NoDup_snoc (a : nat) l : NoDup l -> ~ In a l -> NoDup (l ++ [a]).
Proof.
  intros Hnd Hn. apply NoDup_app; [exact Hnd | repeat constructor; intros [] |].
  intros x Hx [<- | []]. contradiction.
Qed.


Lemma activeRow_findByUser u ps x :
  activeRow u ps = Some x -> exists p, findByUser u ps = Some p.
Proof.
  unfold activeRow, findByUser. induction ps as [| q ps IH]; [discriminate |].
  cbn [find]. destruct (Nat.eqb (userId q) u); cbn [andb].
  - intros _. exists q. reflexivity.
  - exact IH.
Qed.


End ReportRows.

Section ReportCounts.

Import Reports.







End ReportCounts.




(** X21.  A ban does not keep the banned user out: the socket handler
    [join_room] does not look at the reports, so right after the ban a
    [join_room] of the banned user is accepted as a rejoin, without a
    capacity check, and the user's row is active again. *)
Theorem banned_user_can_rejoin a b db rs db' rs' n sock :
  Reports.report a b db rs = (db', rs', Reports.Reported n true) ->
  snd (join_room (Some b) sock db') = RoomJoined true
  /\ option_map isActive (findByUser b (parts (fst (join_room (Some b) sock db'))))
     = Some true.
Proof.
  intros H. unfold Reports.report in H.
  destruct (Nat.eqb b 0); [discriminate |].
  destruct (Reports.activeRow a (parts db)); [| discriminate].
  destruct (Reports.activeRow b (parts db)) as [x |] eqn:Eb; [| discriminate].
  destruct (Nat.eqb a b); [discriminate |].
  destruct (existsb _ _); [discriminate |].
  destruct (3 <=? _)%nat; [| discriminate].
  destruct (room db) as [theRoom |] eqn:Hr; [| discriminate].
  injection H as <- _ _.
  destruct (activeRow_findByUser _ _ _ Eb) as (p & Hp).
  assert (Hrow : findByUser b (parts (set_parts (deactivate b (parts db)) db))
                 = Some (set_socketId None (set_isActive false p))).
  { cbn [parts set_parts]. unfold deactivate.
    rewrite findByUser_updateWhere by (intros []; reflexivity).
    rewrite Hp. cbn [option_map].
    apply find_some in Hp as [_ Hu]. rewrite Hu. reflexivity. }
  destruct (join_room_rejoining (set_parts (deactivate b (parts db)) db) theRoom b _ sock
              Hr Hrow) as [Hres Hparts]; [destruct p; reflexivity |].
  split; [exact Hres |].
  rewrite Hparts, findByUser_updateWhere by (intros []; reflexivity).
  rewrite Hrow. cbn [option_map].
  replace (userId (set_socketId None (set_isActive false p))) with (userId p)
    by (destruct p; reflexivity).
  apply find_some in Hp as [_ Hu]. rewrite Hu. destruct p; reflexivity.
Qed.

Lemma banned_user_can_rejoin_witness :
  let banned := fst (fst (Reports.report 4 3 Examples.ffaFour
                            [Reports.mkReport 3 [1; 2]%nat 2])) in
  snd (Reports.report 4 3 Examples.ffaFour [Reports.mkReport 3 [1; 2]%nat 2])
  = Reports.Reported 3 true
  /\ option_map isActive (findByUser 3 (parts banned)) = Some false
  /\ snd (join_room (Some 3%nat) "s3" banned) = RoomJoined true
  /\ option_map isActive (findByUser 3 (parts (fst (join_room (Some 3%nat) "s3" banned))))
     = Some true.
Proof.
  cbv zeta. split; [reflexivity |]. split; [reflexivity |].
  exact (banned_user_can_rejoin 4 3 Examples.ffaFour [Reports.mkReport 3 [1; 2]%nat 2]
           _ _ 3 "s3" eq_refl).
Defined.

(* ===================================================================== *)
(** ** Room settings and the voice fee *)
(* ===================================================================== *)

Section SettingsFacts.

Import Settings.

Lemma findUser_map f n us :
  (forall x, uid (f x) = uid x) ->
  findUser n (map f us) = option_map f (findUser n us).
Proof.
  intros Hf. unfold findUser. induction us as [| x us IH]; [reflexivity |].
  cbn [map find]. rewrite Hf. destruct (Nat.eqb (uid x) n); [reflexivity | exact IH].
Qed.

Lemma insufficientFunds_iff us ps :
  insufficientFunds us ps = true
  <-> exists p u, In p ps /\ isActive p = true
                  /\ findUser (userId p) us = Some u /\ coins u < VOICE_CHAT_COST.
Proof.
  unfold insufficientFunds. rewrite existsb_exists. split.
  - intros (p & Hin & Hp). unfold activeParticipants in Hin.
    apply filter_In in Hin as [Hin Hact].
    destruct (findUser (userId p) us) as [u |] eqn:E; [| discriminate].
    exists p, u. apply Z.ltb_lt in Hp. auto.
  - intros (p & u & Hin & Hact & Hu & Hlt). exists p. split.
    + unfold activeParticipants. apply filter_In. split; assumption.
    + rewrite Hu. apply Z.ltb_lt. exact Hlt.
Qed.

Lemma assign_keeps {B A} (proj : Room -> B) (v : option A) set r :
  (forall a r0, proj (set a r0) = proj r0) -> proj (assign v set r) = proj r.
Proof. intros H. destruct v; [apply H | reflexivity]. Qed.

Lemma applySettings_visibility s r :
  isPublic (applySettings s r)
  = match newIsPublic s with Some b => b | None => isPublic r end
  /\ status (applySettings s r)
     = match newIsPublic s with
       | Some true => if Status_eqb (status r) lobby then waiting else status r
       | Some false => if Status_eqb (status r) waiting then lobby else status r
       | None => status r
       end.
Proof.
  unfold applySettings. cbv zeta.
  set (r4 := assign (newTargetPoints s) set_targetPoints _).
  assert (Hs : status r4 = status r).
  { unfold r4. rewrite !(assign_keeps status) by (intros ? []; reflexivity). reflexivity. }
  assert (Hp : isPublic r4 = isPublic r).
  { unfold r4. rewrite !(assign_keeps isPublic) by (intros ? []; reflexivity). reflexivity. }
  rewrite (assign_keeps status), (assign_keeps isPublic) by (intros ? []; reflexivity).
  rewrite <- Hs, <- Hp. clearbody r4. clear Hs Hp.
  destruct (newIsPublic s) as [[|] |]; cbn [assign]; destruct r4 as [? ? ? ? ? ? ? st];
    cbn; try (destruct st; split; reflexivity); split; reflexivity.
Qed.

End SettingsFacts.

(** X22.  The voice fee is charged to everybody or to nobody.  When the
    owner switches voice chat on for a room that has it off (before the
    game), either some active participant's user holds fewer than 50 coins,
    and then nothing at all is changed and [insufficient_coins] is
    answered; or the user of every active participant pays exactly 50
    coins, users without an active row pay nothing, and voice chat is on.
    Participant rows and the ledger are never written: the fee leaves no
    ledger entry. *)
Theorem voice_fee_all_or_nothing s db r :
  room db = Some r ->
  status r = lobby \/ status r = waiting ->
  Settings.voiceEnabled s = Some true ->
  let res := Settings.update_settings (Some (ownerId r)) s (Some false) db in
  let db' := fst (fst res) in
  parts db' = parts db /\ ledger db' = ledger db
  /\ ((exists p u, In p (parts db) /\ isActive p = true
                   /\ findUser (userId p) (users db) = Some u /\ coins u < 50) ->
      res = (db, Some false, Some "insufficient_coins"))
  /\ ((forall p u, In p (parts db) -> isActive p = true ->
                   findUser (userId p) (users db) = Some u -> 50 <= coins u) ->
      snd (fst res) = Some true /\ snd res = None
      /\ forall n x, findUser n (users db) = Some x ->
           coinsOf n (users db')
           = coins x - (if existsb (fun p => Nat.eqb (userId p) n)
                             (activeParticipants (parts db))
                        then 50 else 0)).
Proof.
  intros Hr Hst Hv. cbv zeta. unfold Settings.update_settings.
  rewrite Hr, Hv. cbn [opt_nat_eqb]. rewrite Nat.eqb_refl. cbn [negb].
  replace (negb (Status_eqb (status r) lobby) && negb (Status_eqb (status r) waiting))
    with false by (destruct Hst as [-> | ->]; reflexivity).
  destruct (Settings.insufficientFunds (users db) (parts db)) eqn:Ei;
    cbn [fst snd parts ledger users].
  - split; [reflexivity |]. split; [reflexivity |]. split; [reflexivity |].
    intros Hall. exfalso.
    apply insufficientFunds_iff in Ei as (p & u & Hin & Hact & Hu & Hlt).
    specialize (Hall p u Hin Hact Hu). unfold Settings.VOICE_CHAT_COST in Hlt. lia.
  - split; [reflexivity |]. split; [reflexivity |]. split.
    + intros Hex. exfalso.
      apply (proj2 (insufficientFunds_iff (users db) (parts db))) in Hex. congruence.
    + intros _. split; [reflexivity |]. split; [reflexivity |].
      intros n x Hx. unfold coinsOf, Settings.chargeVoice.
      rewrite findUser_map by (intros y; destruct (existsb _ _); reflexivity).
      rewrite Hx. cbn [option_map]. rewrite (findUser_uid _ _ _ Hx).
      destruct (existsb _ _); cbn [coins set_coins]; unfold Settings.VOICE_CHAT_COST; lia.
Qed.

Lemma voice_fee_all_or_nothing_witness :
  let voiceOn := Settings.mkSettings (Some true) None None None None None None in
  let db := mkDb (Some (Examples.baseRoom "1v1"))
              [Examples.player 1 None; Examples.player 2 None]
              [mkUser 1 1000; mkUser 2 60; mkUser 3 500] [] in
  (forall p u, In p (parts db) -> isActive p = true ->
               findUser (userId p) (users db) = Some u -> 50 <= coins u)
  /\ coinsOf 2 (users (fst (fst (Settings.update_settings (Some 1%nat) voiceOn
                                   (Some false) db)))) = 10
  /\ coinsOf 3 (users (fst (fst (Settings.update_settings (Some 1%nat) voiceOn
                                   (Some false) db)))) = 500.
Proof.
  cbv zeta.
  assert (Hall : forall p u,
            In p [Examples.player 1 None; Examples.player 2 None] -> isActive p = true ->
            findUser (userId p) [mkUser 1 1000; mkUser 2 60; mkUser 3 500] = Some u ->
            50 <= coins u).
  { intros p u [<- | [<- | []]] _ [= <-]; cbn; lia. }
  split; [exact Hall |].
  destruct (voice_fee_all_or_nothing
              (Settings.mkSettings (Some true) None None None None None None)
              (mkDb (Some (Examples.baseRoom "1v1"))
                 [Examples.player 1 None; Examples.player 2 None]
                 [mkUser 1 1000; mkUser 2 60; mkUser 3 500] [])
              (Examples.baseRoom "1v1") eq_refl (or_introl eq_refl) eq_refl)
    as (_ & _ & _ & Hcharged).
  destruct (Hcharged Hall) as (_ & _ & Hc).
  split; [exact (Hc 2%nat (mkUser 2 60) eq_refl) | exact (Hc 3%nat (mkUser 3 500) eq_refl)].
Defined.

(** X23.  Settings are the owner's, and only before the game: an
    [update_settings] from anybody else, or for a room that is neither in
    [lobby] nor in [waiting], is answered with an error and changes
    nothing.  An accepted update that sets [isPublic] leaves a public room
    [waiting] and a private room in [lobby]. *)
Theorem update_settings_guard_and_visibility u s voice db r :
  room db = Some r ->
  ((u <> Some (ownerId r) \/ (status r <> lobby /\ status r <> waiting)) ->
   exists message,
     Settings.update_settings u s voice db = (db, voice, Some message))
  /\ (forall b, Settings.newIsPublic s = Some b ->
        snd (Settings.update_settings u s voice db) = None ->
        exists r', room (fst (fst (Settings.update_settings u s voice db))) = Some r'
                   /\ isPublic r' = b
                   /\ status r' = if b then waiting else lobby).
Proof.
  intros Hr. unfold Settings.update_settings. rewrite Hr. split.
  - intros Href.
    destruct (negb (opt_nat_eqb (Some (ownerId r)) u)) eqn:Eo; [eexists; reflexivity |].
    destruct (negb (Status_eqb (status r) lobby) && negb (Status_eqb (status r) waiting))
      eqn:Es; [eexists; reflexivity |].
    exfalso. destruct Href as [Hu | [Ha Hb]].
    + destruct u as [n |]; [| discriminate]. cbn in Eo.
      apply negb_false_iff, Nat.eqb_eq in Eo. congruence.
    + destruct (status r); cbn in Es; congruence.
  - intros b Hb.
    destruct (negb (opt_nat_eqb (Some (ownerId r)) u)); [discriminate |].
    destruct (negb (Status_eqb (status r) lobby) && negb (Status_eqb (status r) waiting))
      eqn:Es; [discriminate |].
    assert (Hvis : isPublic (Settings.applySettings s r) = b
                   /\ status (Settings.applySettings s r) = if b then waiting else lobby).
    { destruct (applySettings_visibility s r) as [Hp Hs]. rewrite Hp, Hs, Hb.
      split; [reflexivity |].
      destruct b, (status r); cbn in Es |- *; congruence. }
    destruct (Settings.voiceEnabled s) as [[|] |], voice as [[|] |];
      try destruct (Settings.insufficientFunds _ _);
      cbn [fst snd room set_room]; try discriminate;
      intros _; eexists; (split; [reflexivity | exact Hvis]).
Qed.

Lemma update_settings_guard_and_visibility_witness :
  let goPublic := Settings.mkSettings None None None None None (Some true) None in
  (exists message,
      Settings.update_settings (Some 2%nat) goPublic (Some false) Examples.lobbyOfThree
      = (Examples.lobbyOfThree, Some false, Some message))
  /\ exists r',
       room (fst (fst (Settings.update_settings (Some 1%nat) goPublic (Some false)
                         Examples.lobbyOfThree))) = Some r'
       /\ isPublic r' = true /\ status r' = waiting.
Proof.
  cbv zeta.
  destruct (update_settings_guard_and_visibility (Some 2%nat)
              (Settings.mkSettings None None None None None (Some true) None)
              (Some false) Examples.lobbyOfThree
              (set_drawerPointerIndex 1 (Examples.baseRoom "1v1")) eq_refl) as [Hguard _].
  destruct (update_settings_guard_and_visibility (Some 1%nat)
              (Settings.mkSettings None None None None None (Some true) None)
              (Some false) Examples.lobbyOfThree
              (set_drawerPointerIndex 1 (Examples.baseRoom "1v1")) eq_refl) as [_ Hvis].
  split.
  - apply Hguard. left. discriminate.
  - exact (Hvis true eq_refl eq_refl).
Defined.

(* ===================================================================== *)
(** ** The words of a theme *)
(* ===================================================================== *)

Section WordLookupFacts.

Import WordLookup.

Lemma findTranslation_some language script k t :
  findTranslation language script k = Some t ->
  In t (translations k) /\ languageId t = langId language /\ scriptType t = script.
Proof.
  intros H. apply find_some in H as [Hin Hc]. apply andb_prop in Hc as [Hl Hs].
  apply Nat.eqb_eq in Hl. apply String.eqb_eq in Hs. auto.
Qed.

Lemma findTranslation_none language script k t :
  findTranslation language script k = None ->
  In t (translations k) -> languageId t = langId language -> scriptType t <> script.
Proof.
  intros H Hin Hl Hs. apply (find_none _ _ H) in Hin.
  rewrite Hl, Hs, Nat.eqb_refl, String.eqb_refl in Hin. discriminate.
Qed.

(** The text chosen for a keyword is that of one of its translations, in
    roman script unless the keyword has no roman translation in that
    language. *)
Lemma wordFor_source tl en k w :
  wordFor tl en "roman" k = Some w ->
  exists t, In t (translations k) /\ translatedText t = w
            /\ (scriptType t = "roman"
                \/ (scriptType t = "native"
                    /\ forall t', In t' (translations k) ->
                                  languageId t' = languageId t ->
                                  scriptType t' <> "roman")).
Proof.
  unfold wordFor. cbn [String.eqb Ascii.eqb Bool.eqb].
  destruct (findTranslation tl "roman" k) as [t |] eqn:E1.
  - intros [= <-]. apply findTranslation_some in E1 as (Hin & _ & Hs).
    exists t. auto.
  - destruct (if negb (String.eqb (languageCode tl) "en")
              then findTranslation tl "native" k else None) as [t |] eqn:E2.
    + intros [= <-]. destruct (negb _); [| discriminate].
      apply findTranslation_some in E2 as (Hin & Hl & Hs).
      exists t. split; [exact Hin |]. split; [reflexivity |]. right.
      split; [exact Hs |]. intros t' Hin' Hl'.
      apply (findTranslation_none tl "roman" k t' E1 Hin'). congruence.
    + destruct (findTranslation en "roman" k) as [t |] eqn:E3; [| discriminate].
      intros [= <-]. apply findTranslation_some in E3 as (Hin & _ & Hs).
      exists t. auto.
Qed.

Lemma wordFor_english tl en script k :
  (exists t, In t (translations k) /\ languageId t = langId en
             /\ scriptType t = "roman") ->
  wordFor tl en script k <> None.
Proof.
  intros (t & Hin & Hl & Hs). unfold wordFor.
  destruct (findTranslation tl script k); [discriminate |].
  destruct (if negb _ then _ else None); [discriminate |].
  destruct (findTranslation en "roman" k) eqn:E; [discriminate |].
  exfalso. exact (findTranslation_none en "roman" k t E Hin Hl Hs).
Qed.

Lemma target_script l s : snd (target l s) = "roman".
Proof.
  unfold target. destruct (opt_string_eqb _ _); [reflexivity |].
  destruct (String.eqb s "english"); [reflexivity |].
  destruct (String.eqb s "default"); reflexivity.
Qed.

Lemma flat_map_opt_length {A B} (f : A -> option B) l :
  (List.length (flat_map (fun a => Rotation.opt_list (f a)) l) <= List.length l)%nat.
Proof.
  induction l as [| a l IH]; [cbn; lia |].
  cbn [flat_map]. rewrite length_app. destruct (f a); cbn [Rotation.opt_list List.length]; lia.
Qed.

Lemma flat_map_opt_full {A B} (f : A -> option B) l :
  (forall a, In a l -> f a <> None) ->
  List.length (flat_map (fun a => Rotation.opt_list (f a)) l) = List.length l.
Proof.
  intros H. induction l as [| a l IH]; [reflexivity |].
  cbn [flat_map]. rewrite length_app, IH by (intros b Hb; apply H; right; exact Hb).
  specialize (H a (or_introl eq_refl)).
  destruct (f a); [reflexivity | contradiction].
Qed.

Lemma flat_map_opt_in {A B} (f : A -> option B) l w :
  In w (flat_map (fun a => Rotation.opt_list (f a)) l) ->
  exists a, In a l /\ f a = Some w.
Proof.
  intros H. apply in_flat_map in H as (a & Hin & Hw).
  exists a. split; [exact Hin |].
  destruct (f a); [destruct Hw as [-> | []]; reflexivity | destruct Hw].
Qed.

(** The tail of the gateway, for a shuffle that only reorders. *)
Lemma tail_words sh words limit :
  permuting sh ->
  let ws := WordSelector.getWordsForTheme (mkOracle words sh) limit in
  (forall w, In w ws -> In w words)
  /\ List.length ws
     = (if Nat.eqb limit 0 then List.length words
        else Nat.min limit (List.length words)).
Proof.
  intros Hsh. cbv zeta. unfold WordSelector.getWordsForTheme. cbn [resolved shuffle].
  pose proof (Hsh words) as Hp.
  destruct (Nat.eqb limit 0).
  - split; [| symmetry; apply Permutation_length, Hp].
    intros w Hw. apply (Permutation_in _ (Permutation_sym Hp)). exact Hw.
  - split.
    + intros w Hw. apply (Permutation_in _ (Permutation_sym Hp)).
      rewrite <- (firstn_skipn limit (sh words)). apply in_or_app. left. exact Hw.
    + rewrite length_firstn, <- (Permutation_length Hp). reflexivity.
Qed.

(** The shape of a result of the full function. *)
Lemma getWordsForTheme_cases tb sh themeId lang script limit ws :
  getWordsForTheme tb sh themeId lang script limit = Some ws ->
  ws = []
  \/ exists kws tl en,
       themeKeywords tb themeId = Some kws /\ kws <> []
       /\ findLanguage tb "en" = Some en
       /\ ws = WordSelector.getWordsForTheme
                 (mkOracle (flat_map (fun k => Rotation.opt_list (wordFor tl en "roman" k)) kws)
                    sh) limit.
Proof.
  unfold getWordsForTheme.
  pose proof (target_script (normalizedLangCode lang) (normalizedScript script)) as Hs.
  destruct (target _ _) as [code sc]. cbn [snd] in Hs. subst sc.
  destruct (themeKeywords tb themeId) as [[| k kws] |]; [intros [= <-]; left; reflexivity | |
    intros [= <-]; left; reflexivity].
  destruct code as [c |]; [| discriminate].
  destruct (findLanguage tb "en") as [en |]; [| intros [= <-]; left; reflexivity].
  intros [= <-]. right.
  exists (k :: kws), (match findLanguage tb c with Some l => l | None => en end), en.
  split; [reflexivity |]. split; [discriminate |]. split; reflexivity.
Qed.

End WordLookupFacts.

(** X24.  The words offered for a theme are words of that theme.  With a
    shuffle that only reorders, every word returned by [getWordsForTheme]
    is the text of a translation of one of the theme's keywords; there are
    at most [limit] of them (for a limit other than 0) and at most one per
    keyword; a missing theme, a theme without keywords and a missing
    language row for English all give no word at all. *)
Theorem words_come_from_the_theme tb sh themeId lang script limit ws :
  permuting sh ->
  WordLookup.getWordsForTheme tb sh themeId lang script limit = Some ws ->
  (limit <> 0%nat -> (List.length ws <= limit)%nat)
  /\ (forall kws, WordLookup.themeKeywords tb themeId = Some kws ->
        (List.length ws <= List.length kws)%nat
        /\ forall w, In w ws ->
             exists t, translationOf kws t /\ WordLookup.translatedText t = w)
  /\ (WordLookup.themeKeywords tb themeId = None
      \/ WordLookup.themeKeywords tb themeId = Some []
      \/ WordLookup.findLanguage tb "en" = None -> ws = []).
Proof.
  intros Hsh H.
  pose proof H as Hcases. apply getWordsForTheme_cases in Hcases.
  destruct Hcases as [-> | (kws & tl & en & Hk & Hne & Hen & ->)].
  - split; [intros _; cbn; lia |]. split; [| reflexivity].
    intros kws _. split; [cbn; lia | intros w []].
  - destruct (tail_words sh
                (flat_map (fun k => Rotation.opt_list (WordLookup.wordFor tl en "roman" k)) kws)
                limit Hsh) as [Hin Hlen].
    split; [| split].
    + intros Hl. rewrite Hlen. destruct (Nat.eqb limit 0) eqn:E; [| lia].
      apply Nat.eqb_eq in E. contradiction.
    + intros kws' Hk'. rewrite Hk in Hk'. injection Hk' as <-. split.
      * rewrite Hlen. pose proof (flat_map_opt_length (WordLookup.wordFor tl en "roman") kws).
        destruct (Nat.eqb limit 0); lia.
      * intros w Hw. apply Hin, flat_map_opt_in in Hw as (k & Hkin & Hw).
        apply wordFor_source in Hw as (t & Ht & Htext & _).
        exists t. split; [exists k; split; assumption | exact Htext].
    + intros [Hnone | [Hnil | Hnoen]]; congruence.
Qed.

Lemma words_come_from_the_theme_witness :
  permuting (fun l => l)
  /\ WordLookup.getWordsForTheme Examples.wordTables (fun l => l) 7
       (Some "Hindi") (Some "Native") 3
     = Some ["billi"; "kutta-native"; "sun"]
  /\ (List.length ["billi"; "kutta-native"; "sun"] <= 3)%nat.
Proof.
  assert (Hid : permuting (fun l => l)) by (intros l; apply Permutation_refl).
  split; [exact Hid |]. split; [vm_compute; reflexivity |].
  refine (proj1 (words_come_from_the_theme Examples.wordTables (fun l => l) 7
                   (Some "Hindi") (Some "Native") 3
                   ["billi"; "kutta-native"; "sun"] Hid _) _);
    [vm_compute; reflexivity | discriminate].
Defined.

(** X25.  The room's script setting never asks for native script.  Every
    word returned is the text of a translation in roman script, except for
    a keyword that has no roman translation in the target language: only
    then is its native text used.  Accordingly the settings ["native"],
    ["all"], ["default"] and no script at all give the same result, and so
    do ["roman"] and ["english"]. *)
Theorem native_text_only_as_fallback tb sh themeId lang script limit ws kws :
  permuting sh ->
  WordLookup.themeKeywords tb themeId = Some kws ->
  WordLookup.getWordsForTheme tb sh themeId lang script limit = Some ws ->
  (forall w, In w ws ->
     exists k t,
       In k kws /\ In t (WordLookup.translations k) /\ WordLookup.translatedText t = w
       /\ (WordLookup.scriptType t = "roman"
           \/ (WordLookup.scriptType t = "native"
               /\ forall t', In t' (WordLookup.translations k) ->
                             WordLookup.languageId t' = WordLookup.languageId t ->
                             WordLookup.scriptType t' <> "roman")))
  /\ WordLookup.getWordsForTheme tb sh themeId lang (Some "native") limit
     = WordLookup.getWordsForTheme tb sh themeId lang None limit
  /\ WordLookup.getWordsForTheme tb sh themeId lang (Some "all") limit
     = WordLookup.getWordsForTheme tb sh themeId lang (Some "default") limit
  /\ WordLookup.getWordsForTheme tb sh themeId lang (Some "roman") limit
     = WordLookup.getWordsForTheme tb sh themeId lang (Some "english") limit.
Proof.
  intros Hsh Hk H. split; [| split; [| split]; reflexivity].
  apply getWordsForTheme_cases in H.
  destruct H as [-> | (kws' & tl & en & Hk' & _ & _ & ->)]; [intros w [] |].
  rewrite Hk in Hk'. injection Hk' as <-.
  intros w Hw.
  apply (proj1 (tail_words sh _ limit Hsh)), flat_map_opt_in in Hw as (k & Hkin & Hw).
  apply wordFor_source in Hw as (t & Ht & Htext & Hscript).
  exists k, t. auto.
Qed.

Lemma native_text_only_as_fallback_witness :
  (permuting (fun l => l)
   /\ WordLookup.themeKeywords Examples.wordTables 7 = Some Examples.animalKeywords)
  /\ WordLookup.getWordsForTheme Examples.wordTables (fun l => l) 7
       (Some "Hindi") (Some "native") 3
     = Some ["billi"; "kutta-native"; "sun"]
  /\ WordLookup.getWordsForTheme Examples.wordTables (fun l => l) 7
       (Some "Hindi") (Some "native") 3
     = WordLookup.getWordsForTheme Examples.wordTables (fun l => l) 7
         (Some "Hindi") None 3.
Proof.
  assert (Hid : permuting (fun l => l)) by (intros l; apply Permutation_refl).
  split; [split; [exact Hid | reflexivity] |]. split; [vm_compute; reflexivity |].
  refine (proj1 (proj2 (native_text_only_as_fallback Examples.wordTables (fun l => l) 7
                          (Some "Hindi") (Some "native") 3
                          ["billi"; "kutta-native"; "sun"] Examples.animalKeywords
                          Hid eq_refl _))).
  vm_compute. reflexivity.
Defined.

(** X26.  The English fallback fills the list.  When the language row for
    English exists and every keyword of the theme has an English
    translation in roman script, no keyword is skipped, whatever the room's
    language (other than a name inherited from [Object.prototype]) and
    script: the call returns [min(limit, number of keywords)] words, and
    all keywords for limit 0.  A theme with three such keywords thus always
    yields the three words asked for by the drawer selection. *)
Theorem english_fallback_fills_the_list tb sh themeId lang script limit kws en :
  permuting sh ->
  WordLookup.themeKeywords tb themeId = Some kws ->
  WordLookup.findLanguage tb "en" = Some en ->
  WordLookup.normalizedLangCode lang <> None ->
  (forall k, In k kws ->
     exists t, In t (WordLookup.translations k)
               /\ WordLookup.languageId t = WordLookup.langId en
               /\ WordLookup.scriptType t = "roman") ->
  exists ws,
    WordLookup.getWordsForTheme tb sh themeId lang script limit = Some ws
    /\ List.length ws
       = (if Nat.eqb limit 0 then List.length kws
          else Nat.min limit (List.length kws)).
Proof.
  intros Hsh Hk Hen Hlang Hall. unfold WordLookup.getWordsForTheme.
  assert (Hcode : exists c, fst (WordLookup.target (WordLookup.normalizedLangCode lang)
                                   (WordLookup.normalizedScript script)) = Some c).
  { unfold WordLookup.target.
    destruct (opt_string_eqb _ _); [eexists; reflexivity |].
    destruct (String.eqb _ "english"); [eexists; reflexivity |].
    destruct (WordLookup.normalizedLangCode lang) as [c |]; [| contradiction].
    destruct (String.eqb _ "default"); exists c; reflexivity. }
  destruct Hcode as (c & Hc).
  destruct (WordLookup.target _ _) as [code sc]. cbn [fst] in Hc. subst code.
  rewrite Hk, Hen.
  destruct kws as [| k kws].
  { exists []. split; [reflexivity |].
    destruct (Nat.eqb limit 0); [reflexivity | cbn [List.length]; lia]. }
  eexists. split; [reflexivity |].
  match goal with
  | |- context [mkOracle ?words sh] =>
      rewrite (proj2 (tail_words sh words limit Hsh));
      assert (Hfull : List.length words = List.length (k :: kws))
  end.
  { apply flat_map_opt_full. intros a Ha. apply wordFor_english, Hall, Ha. }
  rewrite Hfull. reflexivity.
Qed.

Lemma english_fallback_fills_the_list_witness :
  (permuting (fun l => l)
   /\ WordLookup.normalizedLangCode (Some "Telugu") <> None
   /\ forall k, In k Examples.animalKeywords ->
        exists t, In t (WordLookup.translations k)
                  /\ WordLookup.languageId t = WordLookup.langId Examples.english
                  /\ WordLookup.scriptType t = "roman")
  /\ exists ws,
       WordLookup.getWordsForTheme Examples.wordTables (fun l => l) 7
         (Some "Telugu") None 3 = Some ws
       /\ List.length ws = 3%nat.
Proof.
  assert (Hid : permuting (fun l => l)) by (intros l; apply Permutation_refl).
  assert (Hall : forall k, In k Examples.animalKeywords ->
            exists t, In t (WordLookup.translations k)
                      /\ WordLookup.languageId t = WordLookup.langId Examples.english
                      /\ WordLookup.scriptType t = "roman").
  { intros k [<- | [<- | [<- | []]]]; eexists; (split; [left; reflexivity | split; reflexivity]). }
  split; [split; [exact Hid | split; [discriminate | exact Hall]] |].
  exact (english_fallback_fills_the_list Examples.wordTables (fun l => l) 7
           (Some "Telugu") None 3 Examples.animalKeywords Examples.english
           Hid eq_refl eq_refl ltac:(discriminate) Hall).
Defined.

Section LanguageNames.

Import WordLookup.

Lemma lower_char_idem c : Js.lower_char (Js.lower_char c) = Js.lower_char c.
Proof.
  unfold Js.lower_char. destruct (Js.is_upper c) eqn:E; [| rewrite E; reflexivity].
  unfold Js.is_upper in *. apply andb_prop in E as [E1 E2].
  apply Nat.leb_le in E1. apply Nat.leb_le in E2.
  rewrite nat_ascii_embedding by lia.
  destruct ((65 <=? nat_of_ascii c + 32)%nat && (nat_of_ascii c + 32 <=? 90)%nat) eqn:E;
    [| reflexivity].
  apply andb_prop in E as [_ E]. apply Nat.leb_le in E. lia.
Qed.

Lemma toLowerCase_idem s : Js.toLowerCase (Js.toLowerCase s) = Js.toLowerCase s.
Proof.
  induction s as [| c s IH]; [reflexivity |].
  cbn [Js.toLowerCase]. rewrite lower_char_idem, IH. reflexivity.
Qed.

(** The code read from the lower-cased name alone. *)
Lemma code_of_lower l :
  existsb (String.eqb l) inheritedKeys = false ->
  normalizedLangCode (Some l)
  = match lookupLang (Js.toLowerCase l) with
    | Own code => Some code
    | Inherited => None
    | Absent => if String.eqb (Js.toLowerCase l) "" then Some "en"
                else Some (Js.toLowerCase l)
    end.
Proof.
  intros Hin. unfold normalizedLangCode.
  destruct (lookupLang l) as [code | |] eqn:E; [| | reflexivity].
  - unfold lookupLang in E.
    destruct (find _ langCodeMap) as [kv |] eqn:Ef;
      [| destruct (existsb _ _); discriminate].
    injection E as <-.
    apply find_some in Ef as [Hkv Hk]. apply String.eqb_eq in Hk. subst l.
    cbn [langCodeMap In] in Hkv.
    repeat (destruct Hkv as [<- | Hkv]; [reflexivity |]). destruct Hkv.
  - unfold lookupLang in E. destruct (find _ langCodeMap); [discriminate |].
    rewrite Hin in E. discriminate.
Qed.

Lemma code_is_lower l code :
  normalizedLangCode l = Some code -> code <> "" /\ Js.toLowerCase code = code.
Proof.
  assert (Hown : forall k c, lookupLang k = Own c -> c <> "" /\ Js.toLowerCase c = c).
  { intros k c E. unfold lookupLang in E.
    destruct (find _ langCodeMap) as [kv |] eqn:Ef;
      [| destruct (existsb _ _); discriminate].
    injection E as <-. apply find_some in Ef as [Hkv _].
    cbn [langCodeMap In] in Hkv.
    repeat (destruct Hkv as [<- | Hkv]; [split; [discriminate | reflexivity] |]).
    destruct Hkv. }
  unfold normalizedLangCode. destruct l as [l |];
    [| intros [= <-]; split; [discriminate | reflexivity]].
  destruct (lookupLang l) eqn:E1; [intros [= <-]; eapply Hown, E1 | discriminate |].
  destruct (lookupLang (Js.toLowerCase l)) eqn:E2;
    [intros [= <-]; eapply Hown, E2 | discriminate |].
  destruct (String.eqb (Js.toLowerCase l) "") eqn:E3;
    intros [= <-]; [split; [discriminate | reflexivity] |].
  split; [apply String.eqb_neq, E3 | apply toLowerCase_idem].
Qed.

End LanguageNames.

(** X27.  The room's language is read without regard to case: two
    spellings that differ only in the case of their ASCII letters (neither
    being a name inherited from [Object.prototype]) give the same language
    code, so that ["Hindi"] and ["HINDI"] both give ["hi"].  The code, when
    there is one, is never empty and is in lower case; a missing and an
    empty language give ["en"]. *)
Theorem language_name_ignores_case a b :
  Js.toLowerCase a = Js.toLowerCase b ->
  existsb (String.eqb a) WordLookup.inheritedKeys = false ->
  existsb (String.eqb b) WordLookup.inheritedKeys = false ->
  WordLookup.normalizedLangCode (Some a) = WordLookup.normalizedLangCode (Some b)
  /\ (forall code, WordLookup.normalizedLangCode (Some a) = Some code ->
        code <> "" /\ Js.toLowerCase code = code)
  /\ WordLookup.normalizedLangCode None = Some "en"
  /\ WordLookup.normalizedLangCode (Some "") = Some "en".
Proof.
  intros Hab Ha Hb. split; [| split; [| split; reflexivity]].
  - rewrite (code_of_lower a Ha), (code_of_lower b Hb), Hab. reflexivity.
  - intros code. apply code_is_lower.
Qed.

Lemma language_name_ignores_case_witness :
  (Js.toLowerCase "HINDI" = Js.toLowerCase "Hindi"
   /\ existsb (String.eqb "HINDI") WordLookup.inheritedKeys = false
   /\ existsb (String.eqb "Hindi") WordLookup.inheritedKeys = false)
  /\ WordLookup.normalizedLangCode (Some "Hindi") = Some "hi"
  /\ WordLookup.normalizedLangCode (Some "HINDI") = WordLookup.normalizedLangCode (Some "Hindi").
Proof.
  split; [split; [reflexivity | split; reflexivity] |]. split; [reflexivity |].
  exact (proj1 (language_name_ignores_case "HINDI" "Hindi" eq_refl eq_refl eq_refl)).
Defined.

(* ===================================================================== *)
(** ** Skipping a turn *)
(* ===================================================================== *)

Section SkipTurn.

Lemma map_guessed_updateWhere cond f ps :
  (forall p, hasGuessedThisRound (f p) = hasGuessedThisRound p) ->
  map hasGuessedThisRound (updateWhere cond f ps) = map hasGuessedThisRound ps.
Proof.
  intros Hf. unfold updateWhere. rewrite map_map. apply map_ext.
  intros p. destruct (cond p); [apply Hf | reflexivity].
Qed.

Lemma select_guessed o db :
  map hasGuessedThisRound (parts (fst (RoundPhases.selectDrawerAndStartWordChoice o db)))
  = map hasGuessedThisRound (parts db).
Proof.
  unfold RoundPhases.selectDrawerAndStartWordChoice.
  destruct (room db); [| reflexivity].
  destruct (Rotation.sortByUserId _); [reflexivity |].
  destruct (Rotation.pickDrawer _ _ _ _) as [[nd |] ? ? |]; [| | reflexivity];
    cbn [fst parts set_parts set_room startPhaseTimerAndBroadcast];
    rewrite ?map_guessed_updateWhere by (intros []; reflexivity); reflexivity.
Qed.

End SkipTurn.

(** X28.  [skip_turn] does not start a new round.  In whatever state the
    room is, it moves no coin, changes no score and, unlike the start of a
    round, leaves the [hasGuessedThisRound] flags as they are:
    a participant who had guessed the word of the skipped turn stays
    flagged in the turn that follows.  A round started by [startNewRound]
    with at least two active participants begins with every flag
    cleared. *)
Theorem skip_turn_keeps_guessed_flags o db :
  map hasGuessedThisRound (parts (skip_turn o db)) = map hasGuessedThisRound (parts db)
  /\ map score (parts (skip_turn o db)) = map score (parts db)
  /\ users (skip_turn o db) = users db /\ ledger (skip_turn o db) = ledger db
  /\ ((2 <= List.length (activeParticipants (parts db)))%nat ->
      forall p, In p (parts (fst (startNewRound o db))) -> hasGuessedThisRound p = false).
Proof.
  split; [| split; [| split; [| split]]].
  - unfold skip_turn. destruct (room db); [| reflexivity].
    destruct (_ <? 2)%nat; cbn [parts set_parts];
      [| rewrite select_guessed; cbn [parts set_parts set_room]];
      apply map_guessed_updateWhere; intros []; reflexivity.
  - unfold skip_turn. destruct (room db); [| reflexivity].
    destruct (_ <? 2)%nat; cbn [parts set_parts];
      [| rewrite select_scores; cbn [parts set_parts set_room]];
      apply map_score_updateWhere; intros []; reflexivity.
  - unfold skip_turn. destruct (room db); [| reflexivity].
    destruct (_ <? 2)%nat; [reflexivity |].
    match goal with
    | |- context [RoundPhases.selectDrawerAndStartWordChoice o ?d] =>
        rewrite (proj1 (select_coins o d))
    end. reflexivity.
  - unfold skip_turn. destruct (room db); [| reflexivity].
    destruct (_ <? 2)%nat; [reflexivity |].
    match goal with
    | |- context [RoundPhases.selectDrawerAndStartWordChoice o ?d] =>
        rewrite (proj2 (select_coins o d))
    end. reflexivity.
  - intros Hn p Hin. unfold startNewRound in Hin.
    destruct (_ <? 2)%nat eqn:E; [apply Nat.ltb_lt in E; lia |].
    apply (in_map hasGuessedThisRound) in Hin. rewrite select_guessed in Hin.
    cbn [parts set_parts] in Hin. unfold updateWhere in Hin. rewrite map_map in Hin.
    apply in_map_iff in Hin as (q & Hq & _). rewrite <- Hq. destruct q; reflexivity.
Qed.

Lemma skip_turn_keeps_guessed_flags_witness :
  let guessed := fst (submit_guess (Some 2%nat) "cat" Examples.ffaFour) in
  (2 <= List.length (activeParticipants (parts guessed)))%nat
  /\ map hasGuessedThisRound (parts (skip_turn Examples.idOracle guessed))
     = [false; true; false; false]
  /\ forall p, In p (parts (fst (startNewRound Examples.idOracle guessed))) ->
               hasGuessedThisRound p = false.
Proof.
  cbv zeta.
  assert (Hn : (2 <= List.length (activeParticipants
                  (parts (fst (submit_guess (Some 2%nat) "cat" Examples.ffaFour)))))%nat)
    by (vm_compute; lia).
  split; [exact Hn |].
  destruct (skip_turn_keeps_guessed_flags Examples.idOracle
              (fst (submit_guess (Some 2%nat) "cat" Examples.ffaFour)))
    as (Hflags & _ & _ & _ & Hnew).
  split; [rewrite Hflags; vm_compute; reflexivity | exact (Hnew Hn)].
Defined.

(* ===================================================================== *)
(** ** Choosing the word *)
(* ===================================================================== *)

(** X29.  The word that the drawer chooses is the word that is guessed.
    During [choosing_word], a [choose_word] of the current drawer for one
    of the offered words stores that word, clears the options and opens the
    drawing phase with 80 seconds, without touching the participants; from
    anybody else, or for a word that was not offered, it changes nothing.
    In the drawing phase so opened (outside [team_vs_team]), a guess from a
    participant who is not the drawer and has not guessed yet is answered
    as correct as soon as it equals the chosen word up to case and
    surrounding blanks. *)
Theorem chosen_word_is_the_word_to_guess u w db r ws :
  room db = Some r ->
  currentDrawerId r = Some u ->
  roundPhase r = Some choosing_word ->
  currentWordOptions r = Js.Arr ws ->
  In w ws -> w <> "" ->
  let db' := choose_word (Some u) w db in
  parts db' = parts db
  /\ (exists r', room db' = Some r'
                 /\ roundPhase r' = Some drawing /\ roundRemainingTime r' = 80
                 /\ currentWord r' = Some w /\ currentWordOptions r' = Js.Null)
  /\ (forall v w', v <> Some u \/ ~ In w' ws -> choose_word v w' db = db)
  /\ (forall v p guess,
        gameMode r <> "team_vs_team" ->
        findByUser v (parts db) = Some p ->
        isDrawer p = false -> hasGuessedThisRound p = false ->
        normalize guess = normalize w ->
        exists points ended,
          snd (submit_guess (Some v) guess db') = GuessCorrect points ended).
Proof.
  intros Hr Hd Hph Hopt Hin Hne db'.
  assert (Hinc : forall x, Js.includes (Js.Arr ws) x = true <-> In x ws).
  { intros x. cbn [Js.includes]. rewrite existsb_exists. split.
    - intros (y & Hy & He). apply String.eqb_eq in He. subst. exact Hy.
    - intros Hx. exists x. split; [exact Hx | apply String.eqb_refl]. }
  assert (Hdb' : db' = set_room (Some (set_roundRemainingTime (PHASE_DURATIONS drawing)
                                         (set_roundPhase (Some drawing)
                                            (set_currentWordOptions Js.Null
                                               (set_currentWord (Some w) r))))) db).
  { unfold db', choose_word. rewrite Hr, Hd, Hph, Hopt.
    cbn [opt_nat_eqb phase_is Phase_eqb negb Js.truthy orb]. rewrite Nat.eqb_refl.
    cbn [negb]. rewrite (proj2 (Hinc w) Hin). reflexivity. }
  split; [rewrite Hdb'; reflexivity |]. split; [| split].
  - rewrite Hdb'. eexists. split; [reflexivity |]. destruct r; repeat split.
  - intros v w' Hbad. unfold choose_word. rewrite Hr, Hd, Hph, Hopt.
    destruct v as [n |]; [| reflexivity].
    cbn [opt_nat_eqb]. destruct (Nat.eqb u n) eqn:E; [| reflexivity].
    apply Nat.eqb_eq in E. subst n.
    destruct Hbad as [Hv | Hw]; [congruence |].
    cbn [negb phase_is Phase_eqb Js.truthy orb].
    destruct (Js.includes (Js.Arr ws) w') eqn:Ei; [| reflexivity].
    apply Hinc in Ei. contradiction.
  - intros v p guess Hmode Hp Hnd Hng Hguess. rewrite Hdb'.
    unfold submit_guess. cbn [room set_room parts].
    set (r' := set_roundRemainingTime _ _).
    assert (Hgate : guessGate (Some v) r' (parts db) = inr p).
    { unfold guessGate, r'.
      replace (roundPhase _) with (Some drawing) by (destruct r; reflexivity).
      replace (currentWord _) with (Some w) by (destruct r; reflexivity).
      replace (gameMode _) with (gameMode r) by (destruct r; reflexivity).
      cbn [phase_is Phase_eqb negb].
      rewrite (proj2 (String.eqb_neq w "") Hne), Hp, Hnd, Hng.
      rewrite (proj2 (String.eqb_neq (gameMode r) "team_vs_team") Hmode). reflexivity. }
    rewrite Hgate.
    replace (currentWord r') with (Some w) by (unfold r'; destruct r; reflexivity).
    rewrite Hguess, String.eqb_refl.
    destruct (correctGuess_spec r' p (set_room (Some r') db)) as [Hres _].
    rewrite Hres. eexists. eexists. reflexivity.
Qed.

Lemma chosen_word_is_the_word_to_guess_witness :
  (In "cat" ["apple"; "banana"; "cat"] /\ normalize "  CAT " = normalize "cat")
  /\ exists points ended,
       snd (submit_guess (Some 2%nat) "  CAT "
              (choose_word (Some 1%nat) "cat" Examples.ffaChoosing))
       = GuessCorrect points ended.
Proof.
  assert (Hin : In "cat" ["apple"; "banana"; "cat"])
    by (right; right; left; reflexivity).
  split; [split; [exact Hin | reflexivity] |].
  exact (proj2 (proj2 (proj2
           (chosen_word_is_the_word_to_guess 1%nat "cat" Examples.ffaChoosing
              Examples.choosingRoom ["apple"; "banana"; "cat"]
              eq_refl eq_refl eq_refl eq_refl Hin ltac:(discriminate))))
           2%nat (Examples.player 2 None) "  CAT "
           ltac:(discriminate) eq_refl eq_refl eq_refl eq_refl).
Defined.
